(** * Saros DLMM demo: distribution engine, strategy simulator, order matching

    A shallow embedding of three TypeScript modules of the repository

    - the distribution helpers ([makeCenteredDistribution] ... [getDistributionMetrics]),
    - the strategy simulator (class [StrategySimulator]),
    - the limit-order service (class [LimitOrderService]),

    together with the properties of them that the design document states,
    and with further properties of the same code: which widths give a full
    distribution, what a run records when it rebalances, what a backtest
    returns, and how an order moves through the service.

    Conventions of the embedding.

    - A JavaScript [number] is an IEEE 754 binary64 value; it is modelled by
      Rocq's primitive [float], whose operations are the same binary64
      operations (round to nearest even, one NaN). [Math.sqrt] is the
      correctly rounded square root.
    - Basis points, bin ids and widths are integral numbers far below 2^53,
      where binary64 arithmetic is exact; the distribution generators are
      therefore modelled on [Z], with [Z.div] for [Math.floor(a / b)].
    - A [Date] is its time value in milliseconds, [None] for an invalid date.
    - A JavaScript [Map] iterated in insertion order is an association list; a
      [Map] that is only looked up by key is a [gmap].
    - Calls that leave the repository ([Math.random], [Math.pow], [new Date()],
      the DLMM SDK behind [dlmmService]) are parameters of the model. *)

From Stdlib Require Import ZArith List Bool Lia Floats Ascii.
From stdpp Require Import gmap strings pretty.
Import ListNotations.

Set Warnings "-inexact-float".
Local Open Scope Z_scope.

(* ================================================================== *)
(** * JavaScript numbers *)
(* ================================================================== *)

Module JS.

Definition number := float.

(** The number denoting an integer: the nearest binary64 value, exact
    below 2^53. *)
Definition of_Z (z : Z) : number :=
  SF2Prim (binary_normalize prec emax z 0 false).

Definition of_nat (n : nat) : number := of_Z (Z.of_nat n).

Definition NaN : number := PrimFloat.nan.

Definition isNaN (x : number) : bool := PrimFloat.is_nan x.

(** [x === y] on numbers: false on NaN, true on [0] and [-0]. *)
Definition strict_eq (x y : number) : bool := PrimFloat.eqb x y.

(** A finite number other than [0] and [-0]. *)
Definition finite_nonzero (x : number) : bool :=
  match Prim2SF x with
  | S754_finite _ _ _ => true
  | _ => false
  end.

(** A number that is neither NaN nor an infinity. *)
Definition finite (x : number) : bool :=
  match Prim2SF x with
  | S754_zero _ | S754_finite _ _ _ => true
  | _ => false
  end.

Definition is_neg_zero (x : number) : bool :=
  match Prim2SF x with
  | S754_zero true => true
  | _ => false
  end.

(** [x || 0] on a number: [0], [-0] and NaN are falsy. *)
Definition or_zero (x : number) : number :=
  if PrimFloat.eqb x 0%float || isNaN x then 0%float else x.

(** [arr[i] || 0], where a missing element is [undefined]. *)
Definition elem_or_zero (o : option number) : number :=
  match o with
  | Some x => or_zero x
  | None => 0%float
  end.

(** [Math.max(x, y)]: NaN if either is, [+0] above [-0]. *)
Definition Math_max (x y : number) : number :=
  if isNaN x || isNaN y then NaN
  else if PrimFloat.ltb x y then y
  else if PrimFloat.ltb y x then x
  else if is_neg_zero x then y else x.

(** [Math.floor(x)] of a finite number, as an integer. *)
Definition Math_floor (x : number) : Z :=
  match Prim2SF x with
  | S754_finite s m e =>
      let v := if s then Z.neg m else Z.pos m in
      if 0 <=? e then v * 2 ^ e else v / 2 ^ (- e)
  | _ => 0
  end.

(** [Math.sign(x)] of a number that is not NaN, as an integer. *)
Definition Math_sign (x : number) : Z :=
  if PrimFloat.ltb 0 x then 1 else if PrimFloat.ltb x 0 then -1 else 0.

(** [z | 0]: ToInt32 of an integral number. *)
Definition ToInt32 (z : Z) : Z := (z + 2 ^ 31) mod 2 ^ 32 - 2 ^ 31.

(** [arr[i]] read as a number: a missing element is [undefined], which
    arithmetic converts to NaN. *)
Definition get (arr : list number) (i : Z) : number :=
  if i <? 0 then NaN else nth (Z.to_nat i) arr NaN.

(** [arr.slice(start, end)]: negative indices count from the end. *)
Definition slice {A : Type} (arr : list A) (start stop : Z) : list A :=
  let len := Z.of_nat (length arr) in
  let k := if start <? 0 then Z.max (len + start) 0 else Z.min start len in
  let fin := if stop <? 0 then Z.max (len + stop) 0 else Z.min stop len in
  firstn (Z.to_nat (fin - k)) (skipn (Z.to_nat k) arr).

(** [arr.reduce((a, b) => a + b, 0)]. *)
Definition sum (arr : list number) : number :=
  fold_left (fun a b => (a + b)%float) arr 0%float.

(** A date: its time value, [None] when invalid. *)
Definition Date := option Z.

(** TimeClip: a time value beyond 8.64e15 ms makes the date invalid. *)
Definition TimeClip (t : Z) : Date :=
  if Z.abs t <=? 8640000000000000 then Some t else None.

Definition msPerDay : Z := 24 * 60 * 60 * 1000.

(** Stable insertion sort, for [arr.sort((a, b) => a - b)]: [x] goes
    before the first element [y] with [x - y < 0]. *)
Fixpoint insert_sorted (x : number) (l : list number) : list number :=
  match l with
  | [] => [x]
  | y :: l' =>
      if PrimFloat.ltb (x - y) 0 then x :: l else y :: insert_sorted x l'
  end.

Definition sort_asc (l : list number) : list number :=
  fold_right insert_sorted [] (rev l).

(** An instance of the [Math.pow] parameter, used to run the model on
    concrete inputs: the exponents 2 and 3 of the moments by
    multiplication, which gives the values ECMAScript fixes for the bases
    [0] and NaN; it is NaN on every other exponent and says nothing about
    [Math.pow] there. *)
Definition pow_by_mul (x y : number) : number :=
  if strict_eq y 2%float then (x * x)%float
  else if strict_eq y 3%float then (x * x * x)%float
  else NaN.


(** A number that is a zero or NaN. *)
Definition zero_or_NaN (x : number) : Prop :=
  isNaN x = true \/ strict_eq x 0%float = true.

(** ** The order of the numbers that are not NaN

    The comparison of binary64 values is lexicographic in the class
    (negative infinity, negative, zero, positive, positive infinity), the
    exponent and the mantissa; [key] is that triple. *)

Definition SFkey (x : spec_float) : Z * Z * Z :=
  match x with
  | S754_infinity true => (-2, 0, 0)
  | S754_finite true m e => (-1, - e, Z.neg m)
  | S754_zero _ => (0, 0, 0)
  | S754_nan => (0, 0, 0)
  | S754_finite false m e => (1, e, Z.pos m)
  | S754_infinity false => (2, 0, 0)
  end%Z.

Definition key (x : number) : Z * Z * Z := SFkey (Prim2SF x).

Definition lex_lt (a b : Z * Z * Z) : Prop :=
  let '(a1, a2, a3) := a in
  let '(b1, b2, b3) := b in
  (a1 < b1 \/ (a1 = b1 /\ (a2 < b2 \/ (a2 = b2 /\ a3 < b3))))%Z.

Definition lex_le (a b : Z * Z * Z) : Prop := lex_lt a b \/ a = b.

End JS.

(* ================================================================== *)
(** * Distribution helpers *)
(* ================================================================== *)

Module Dist.

(** The generators and [validateDistribution] on integers, and
    [getDistributionMetrics] on binary64 numbers. The two functions that
    leave the integers, [makeVolatilityAdjustedDistribution] ([Math.exp])
    and [normalizeDistribution] (a fractional factor), are not part of the
    development. *)

(** [type Distribution = { binRelativeId; bpsX; bpsY }] *)
Record Distribution := mkDistribution {
  binRelativeId : Z;
  bpsX : Z;
  bpsY : Z
}.

(** The ids visited by [for (let i = -half; i <= half; i++)]. *)
Definition loop_ids (half : Z) : list Z :=
  map (fun k => Z.of_nat k - half) (seq 0 (Z.to_nat (2 * half + 1))).

(** The bin pushed by the loop body shared by every centred generator. *)
Definition side_bin (per shift i : Z) : Distribution :=
  {| binRelativeId := i + shift;
     bpsX := if i <? 0 then per else 0;
     bpsY := if 0 <? i then per else 0 |}.

(** [bins.find(b => b.binRelativeId === 0)] followed by the two [+=] on
    the bin found: the first bin with id 0 is updated in place. *)
Fixpoint add_to_center (dx dy : Z) (bins : list Distribution) : list Distribution :=
  match bins with
  | [] => []
  | b :: rest =>
      if binRelativeId b =? 0
      then {| binRelativeId := binRelativeId b;
              bpsX := bpsX b + dx;
              bpsY := bpsY b + dy |} :: rest
      else b :: add_to_center dx dy rest
  end.

Definition makeCenteredDistribution (width : Z) : list Distribution :=
  let w := Z.max 1 (JS.ToInt32 width) in
  let half := w / 2 in
  let per := 10000 / w in
  let bins := map (side_bin per 0) (loop_ids half) in
  let used := per * w in
  let rem := 10000 - used in
  add_to_center (rem / 2) (rem - rem / 2) bins.

(** [arr[0].bpsX += d] / [arr[0].bpsY += d], guarded by [arr.length]. *)
Definition bump_first (dx dy : Z) (arr : list Distribution) : list Distribution :=
  match arr with
  | [] => []
  | b :: rest =>
      {| binRelativeId := binRelativeId b;
         bpsX := bpsX b + dx;
         bpsY := bpsY b + dy |} :: rest
  end.

(** [Array.from({ length: width }, f)]: a length above 2^32 - 1 raises a
    RangeError ([None]); a negative length is an empty array. *)
Definition Array_from {A : Type} (width : Z) (f : Z -> A) : option (list A) :=
  if 4294967295 <? width then None
  else Some (map (fun i => f (Z.of_nat i)) (seq 0 (Z.to_nat width))).

Definition makeSingleSidedX (width : Z) : option (list Distribution) :=
  let per := 10000 / width in
  match Array_from width
          (fun i => {| binRelativeId := - i - 1; bpsX := per; bpsY := 0 |}) with
  | None => None
  | Some arr =>
      let used := per * width in
      Some (bump_first (10000 - used) 0 arr)
  end.

Definition makeSingleSidedY (width : Z) : option (list Distribution) :=
  let per := 10000 / width in
  match Array_from width
          (fun i => {| binRelativeId := i + 1; bpsX := 0; bpsY := per |}) with
  | None => None
  | Some arr =>
      let used := per * width in
      Some (bump_first 0 (10000 - used) arr)
  end.

(** The signal enters only through [Math.sign]; it is represented by an
    integer of the same sign. *)
Definition makeMomentumDistribution (width momentum : Z) : list Distribution :=
  let w := Z.max 1 (JS.ToInt32 width) in
  let half := w / 2 in
  let shift := Z.sgn momentum * (w / 4) in
  let per := 10000 / w in
  map (side_bin per shift) (loop_ids half).

Definition makeMeanReversionDistribution (width deviation : Z) : list Distribution :=
  let w := Z.max 1 (JS.ToInt32 width) in
  let half := w / 2 in
  let shift := - Z.sgn deviation * (w / 4) in
  let per := 10000 / w in
  map (side_bin per shift) (loop_ids half).

Definition makeConservativeDistribution (width : Z) : list Distribution :=
  let w := Z.max 1 (Z.min width 5) in
  let half := w / 2 in
  let per := 10000 / w in
  map (side_bin per 0) (loop_ids half).

Definition makeAggressiveDistribution (width : Z) : list Distribution :=
  let w := Z.max 1 (Z.min width 15) in
  let half := w / 2 in
  let per := 10000 / w in
  map (side_bin per 0) (loop_ids half).

(** [distribution.reduce((sum, d) => sum + d.bpsX + d.bpsY, 0)] *)
Definition sumBps (distribution : list Distribution) : Z :=
  fold_left (fun sum d => sum + bpsX d + bpsY d) distribution 0.

Definition validateDistribution (distribution : list Distribution) : bool :=
  let totalBps := sumBps distribution in
  totalBps =? 10000.

(** The result of [getDistributionMetrics]; [totalBps] and [activeBins]
    are integral, the two moments are binary64 values. *)
Record Metrics := mkMetrics {
  totalBps : JS.number;
  activeBins : nat;
  concentration : JS.number;
  skewness : JS.number
}.

Definition weight (d : Distribution) : JS.number :=
  (JS.of_Z (bpsX d) + JS.of_Z (bpsY d))%float.

Section Metrics.
Variable Math_pow : JS.number -> JS.number -> JS.number.

Local Open Scope float_scope.

(** The constants [totalBps], [mean], [variance] and [stdDev] of
    [getDistributionMetrics]. *)
Definition weighted_total (distribution : list Distribution) : JS.number :=
  fold_left (fun sum d => sum + JS.of_Z (bpsX d) + JS.of_Z (bpsY d))
            distribution 0.

Definition weighted_mean (distribution : list Distribution) : JS.number :=
  fold_left (fun sum d => sum + JS.of_Z (binRelativeId d) * weight d)
            distribution 0
  / weighted_total distribution.

Definition weighted_variance (distribution : list Distribution) : JS.number :=
  let mean := weighted_mean distribution in
  fold_left (fun sum d =>
               let total := weight d in
               sum + Math_pow (JS.of_Z (binRelativeId d) - mean) 2
                     * (total / 10000))
            distribution 0.

Definition weighted_stdDev (distribution : list Distribution) : JS.number :=
  PrimFloat.sqrt (weighted_variance distribution).

(** One summand of the skewness. *)
Definition skew_term (mean stdDev : JS.number) (d : Distribution) : JS.number :=
  let total := weight d in
  Math_pow ((JS.of_Z (binRelativeId d) - mean) / stdDev) 3 * (total / 10000).

Definition getDistributionMetrics (distribution : list Distribution) : Metrics :=
  let totalBps := weighted_total distribution in
  let activeBins :=
    length (List.filter (fun d => PrimFloat.ltb 0 (JS.of_Z (bpsX d))
                             || PrimFloat.ltb 0 (JS.of_Z (bpsY d)))
                   distribution) in
  let concentration :=
    fold_left (fun sum d =>
                 let total := weight d in
                 sum + Math_pow (total / 10000) 2)
              distribution 0 in
  let mean := weighted_mean distribution in
  let stdDev := weighted_stdDev distribution in
  let skewness :=
    fold_left (fun sum d => sum + skew_term mean stdDev d) distribution 0 in
  mkMetrics totalBps activeBins concentration skewness.
End Metrics.

End Dist.

(* ================================================================== *)
(** * Strategy simulator *)
(* ================================================================== *)

Module Sim.

Import Dist.

Inductive Strategy := passive | active | momentum | mean_reversion.
Inductive RiskTolerance := low | medium | high.

(** [duration] is a whole number of days. *)
Record SimulationParams := mkParams {
  initialCapital : JS.number;
  strategy : Strategy;
  duration : Z;
  rebalanceFrequency : JS.number;
  riskTolerance : RiskTolerance;
  pair : string
}.

Inductive Action := rebalance_action | add_liquidity | remove_liquidity.

(** The [reason] strings; where the source formats a percentage into the
    text, the constructor carries the number that is formatted. *)
Inductive Reason :=
| Weekly_rebalance
| No_rebalance_needed
| High_volatility_detected (pct : JS.number)
| Volatility_within_threshold
| Insufficient_data
| Momentum_detected (pct : JS.number)
| No_momentum_signal
| Mean_reversion_signal (pct : JS.number)
| No_mean_reversion_signal.

Record RebalanceEvent := mkEvent {
  timestamp : JS.Date;
  action : Action;
  amount : JS.number;
  price : JS.number;
  reason : Reason
}.

Record AdvancedMetrics := mkAdvanced {
  volatility : JS.number;
  calmarRatio : JS.number;
  sortinoRatio : JS.number;
  var95 : JS.number;
  cvar95 : JS.number
}.

Record SimulationResult := mkResult {
  finalValue : JS.number;
  totalReturn : JS.number;
  annualizedReturn : JS.number;
  maxDrawdown : JS.number;
  sharpeRatio : JS.number;
  winRate : JS.number;
  totalFees : JS.number;
  netReturn : JS.number;
  dailyReturns : list JS.number;
  portfolioValues : list JS.number;
  rebalanceEvents : list RebalanceEvent;
  metrics : AdvancedMetrics
}.

(** What a strategy's decision function returns. *)
Record Decision := mkDecision {
  rebalance : bool;
  newDistribution : option (list Distribution);
  decision_reason : Reason
}.

Local Open Scope float_scope.

(** ** Distributions proposed by the strategies *)

Definition generateBalancedDistribution (riskTolerance : RiskTolerance) : list Distribution :=
  let width := match riskTolerance with low => 5 | medium => 7 | high => 9 end%Z in
  let per := (10000 / width)%Z in
  map (side_bin per 0) (loop_ids (width / 2)).

Definition generateVolatilityAdjustedDistribution
    (params : SimulationParams) (priceChange : JS.number) : list Distribution :=
  let width := match riskTolerance params with low => 3 | medium => 5 | high => 7 end%Z in
  let per := (10000 / width)%Z in
  let shift := (JS.Math_sign priceChange * (width / 4))%Z in
  map (side_bin per shift) (loop_ids (width / 2)).

Definition generateMomentumDistribution
    (params : SimulationParams) (momentum : JS.number) : list Distribution :=
  let width := match riskTolerance params with low => 3 | medium => 5 | high => 7 end%Z in
  let per := (10000 / width)%Z in
  let shift := (JS.Math_sign momentum * (width / 3))%Z in
  map (side_bin per shift) (loop_ids (width / 2)).

Definition generateMeanReversionDistribution
    (params : SimulationParams) (deviation : JS.number) : list Distribution :=
  let width := match riskTolerance params with low => 5 | medium => 7 | high => 9 end%Z in
  let per := (10000 / width)%Z in
  let shift := (- JS.Math_sign deviation * (width / 4))%Z in
  map (side_bin per shift) (loop_ids (width / 2)).

Definition getLiquidityExposure (params : SimulationParams) : JS.number :=
  match strategy params with
  | passive => 0.8
  | active => 0.9
  | momentum => 0.85
  | mean_reversion => 0.75
  end.

Definition getVolatilityThreshold (riskTolerance : RiskTolerance) : JS.number :=
  match riskTolerance with
  | low => 0.01
  | medium => 0.02
  | high => 0.03
  end.

(** ** Decision functions *)

Definition applyPassiveStrategy (params : SimulationParams) (dayIndex : nat) : Decision :=
  if (dayIndex mod 7 =? 0)%nat
  then mkDecision true
         (Some (generateBalancedDistribution (riskTolerance params)))
         Weekly_rebalance
  else mkDecision false None No_rebalance_needed.

Definition applyActiveStrategy (params : SimulationParams)
    (currentPrice priceChange : JS.number) (dayIndex : nat) : Decision :=
  let volatilityThreshold := getVolatilityThreshold (riskTolerance params) in
  if PrimFloat.ltb volatilityThreshold (PrimFloat.abs priceChange)
  then mkDecision true
         (Some (generateVolatilityAdjustedDistribution params priceChange))
         (High_volatility_detected (priceChange * 100))
  else mkDecision false None Volatility_within_threshold.

Definition applyMomentumStrategy (params : SimulationParams)
    (priceData : list JS.number) (dayIndex : nat) : Decision :=
  if (dayIndex <? 5)%nat then mkDecision false None Insufficient_data
  else
    let i := Z.of_nat dayIndex in
    let shortTerm := JS.slice priceData (i - 5) i in
    let longTerm := JS.slice priceData (i - 20) i in
    let last l := JS.get l (Z.of_nat (length l) - 1) in
    let shortTermReturn := (last shortTerm - JS.get shortTerm 0) / JS.get shortTerm 0 in
    let longTermReturn := (last longTerm - JS.get longTerm 0) / JS.get longTerm 0 in
    if PrimFloat.ltb longTermReturn shortTermReturn && PrimFloat.ltb 0.02 shortTermReturn
    then mkDecision true
           (Some (generateMomentumDistribution params shortTermReturn))
           (Momentum_detected (shortTermReturn * 100))
    else mkDecision false None No_momentum_signal.

Definition applyMeanReversionStrategy (params : SimulationParams)
    (priceData : list JS.number) (dayIndex : nat) : Decision :=
  if (dayIndex <? 10)%nat then mkDecision false None Insufficient_data
  else
    let i := Z.of_nat dayIndex in
    let recent := JS.slice priceData (i - 5) i in
    let historical := JS.slice priceData (i - 20) (i - 5) in
    let recentAvg := JS.sum recent / JS.of_nat (length recent) in
    let historicalAvg := JS.sum historical / JS.of_nat (length historical) in
    let deviation := (recentAvg - historicalAvg) / historicalAvg in
    if PrimFloat.ltb 0.05 (PrimFloat.abs deviation)
    then mkDecision true
           (Some (generateMeanReversionDistribution params deviation))
           (Mean_reversion_signal (deviation * 100))
    else mkDecision false None No_mean_reversion_signal.

Definition applyStrategy (params : SimulationParams)
    (currentPrice priceChange portfolioValue : JS.number)
    (dayIndex : nat) (priceData : list JS.number) : Decision :=
  match strategy params with
  | passive => applyPassiveStrategy params dayIndex
  | active => applyActiveStrategy params currentPrice priceChange dayIndex
  | momentum => applyMomentumStrategy params priceData dayIndex
  | mean_reversion => applyMeanReversionStrategy params priceData dayIndex
  end.

(** ** Rebalancing *)

Record RebalanceOutcome := mkOutcome {
  newValue : JS.number;
  fees : JS.number;
  rebalanced_amount : JS.number
}.

Definition executeRebalance (currentValue : JS.number)
    (distribution : option (list Distribution))
    (currentPrice : JS.number) (pair : string) : RebalanceOutcome :=
  let feeRate := 0.003 in
  let fees := currentValue * feeRate in
  let newValue := currentValue - fees in
  mkOutcome newValue fees currentValue.

(** ** Synthetic prices *)

Section PriceData.
(** [Math_random k] is the value of the [k]-th call of [Math.random()]
    made by one run. *)
Variable Math_random : nat -> JS.number.

(** The body of [for (let i = 1; i < days; i++)], run [n] times from
    the [k]-th random draw on. *)
Fixpoint price_walk (n k : nat) (currentPrice : JS.number) : list JS.number :=
  match n with
  | O => []
  | S n' =>
      let volatility := 0.02 in
      let drift := 0.0001 in
      let randomChange := (Math_random k - 0.5) * volatility + drift in
      let currentPrice' := currentPrice * (1 + randomChange) in
      currentPrice' :: price_walk n' (S k) currentPrice'
  end.

(** [Math.ceil((endDate.getTime() - startDate.getTime()) / msPerDay)];
    [None] is NaN, the difference of an invalid date. *)
Definition days_between (startDate endDate : JS.Date) : option Z :=
  match startDate, endDate with
  | Some s, Some e => Some (- ((- (e - s)) / JS.msPerDay))%Z
  | _, _ => None
  end.

Definition generatePriceData (startDate endDate : JS.Date) (pair : string)
    : list JS.number :=
  let days := days_between startDate endDate in
  let iterations :=
    match days with
    | Some d => Z.to_nat (d - 1)
    | None => O
    end in
  100 :: price_walk iterations 0 100.
End PriceData.

(** ** Statistics *)

Definition calculateMaxDrawdown (values : list JS.number) : JS.number :=
  let peak0 := JS.get values 0 in
  fst (fold_left
         (fun (acc : JS.number * JS.number) value =>
            let '(maxDrawdown, peak) := acc in
            let peak := if PrimFloat.ltb peak value then value else peak in
            let drawdown := (peak - value) / peak in
            (JS.Math_max maxDrawdown drawdown, peak))
         values (0, peak0)).

Section Statistics.
Variable Math_pow : JS.number -> JS.number -> JS.number.

Definition calculateSharpeRatio (returns : list JS.number) : JS.number :=
  let avgReturn := JS.sum returns / JS.of_nat (length returns) in
  let variance :=
    fold_left (fun a b => a + Math_pow (b - avgReturn) 2) returns 0
    / JS.of_nat (length returns) in
  let stdDev := PrimFloat.sqrt variance in
  if JS.strict_eq stdDev 0 then 0 else avgReturn / stdDev.

Definition calculateAdvancedMetrics (returns values : list JS.number)
    : AdvancedMetrics :=
  let avgReturn := JS.sum returns / JS.of_nat (length returns) in
  let variance :=
    fold_left (fun a b => a + Math_pow (b - avgReturn) 2) returns 0
    / JS.of_nat (length returns) in
  let volatility := PrimFloat.sqrt variance in
  let maxDrawdown := calculateMaxDrawdown values in
  let calmarRatio :=
    if JS.strict_eq maxDrawdown 0 then 0 else avgReturn / maxDrawdown in
  let negativeReturns := List.filter (fun r => PrimFloat.ltb r 0) returns in
  let downsideVariance :=
    fold_left (fun a b => a + Math_pow b 2) negativeReturns 0
    / JS.of_nat (length negativeReturns) in
  let downsideDeviation := PrimFloat.sqrt downsideVariance in
  let sortinoRatio :=
    if JS.strict_eq downsideDeviation 0 then 0
    else avgReturn / downsideDeviation in
  let sortedReturns := JS.sort_asc returns in
  let var95Index := JS.Math_floor (JS.of_nat (length sortedReturns) * 0.05) in
  let var95 := JS.elem_or_zero (nth_error sortedReturns (Z.to_nat var95Index)) in
  let cvar95 :=
    JS.sum (JS.slice sortedReturns 0 (var95Index + 1))
    / JS.of_Z (var95Index + 1) in
  mkAdvanced volatility calmarRatio sortinoRatio var95 cvar95.

(** ** One simulation run *)

(** The variables that the day loop assigns. *)
Record LoopState := mkLoop {
  cur_portfolioValue : JS.number;
  cur_totalFees : JS.number;
  cur_dailyReturns : list JS.number;
  cur_portfolioValues : list JS.number;
  cur_rebalanceEvents : list RebalanceEvent
}.

(** [new Date(startDate.getTime() + i * msPerDay)] *)
Definition day_date (startDate : JS.Date) (i : nat) : JS.Date :=
  match startDate with
  | Some s => JS.TimeClip (s + Z.of_nat i * JS.msPerDay)
  | None => None
  end.

(** The body of [for (let i = 1; i < priceData.length; i++)]. *)
Definition day_step (params : SimulationParams) (startDate : JS.Date)
    (priceData : list JS.number) (st : LoopState) (i : nat) : LoopState :=
  let currentPrice := JS.get priceData (Z.of_nat i) in
  let previousPrice := JS.get priceData (Z.of_nat i - 1) in
  let priceChange := (currentPrice - previousPrice) / previousPrice in
  let portfolioValue := cur_portfolioValue st in
  let strategyResult :=
    applyStrategy params currentPrice priceChange portfolioValue i priceData in
  let '(portfolioValue', totalFees', events') :=
    if rebalance strategyResult then
      let rebalanceResult :=
        executeRebalance portfolioValue (newDistribution strategyResult)
                         currentPrice (pair params) in
      (newValue rebalanceResult,
       cur_totalFees st + fees rebalanceResult,
       cur_rebalanceEvents st ++
         [mkEvent (day_date startDate i) rebalance_action
                  (rebalanced_amount rebalanceResult) currentPrice
                  (decision_reason strategyResult)])
    else
      (portfolioValue * (1 + priceChange * getLiquidityExposure params),
       cur_totalFees st,
       cur_rebalanceEvents st) in
  let previous :=
    JS.get (cur_portfolioValues st)
           (Z.of_nat (length (cur_portfolioValues st)) - 1) in
  let dailyReturn := (portfolioValue' - previous) / previous in
  mkLoop portfolioValue' totalFees'
         (cur_dailyReturns st ++ [dailyReturn])
         (cur_portfolioValues st ++ [portfolioValue'])
         events'.

(** Everything [runSimulation] does once the prices are known. *)
Definition simulate (params : SimulationParams) (startDate : JS.Date)
    (priceData : list JS.number) : SimulationResult :=
  let startValue := initialCapital params in
  let st :=
    fold_left (day_step params startDate priceData)
              (seq 1 (length priceData - 1))
              (mkLoop startValue 0 [] [startValue] []) in
  let dailyReturns := cur_dailyReturns st in
  let portfolioValues := cur_portfolioValues st in
  let finalValue :=
    JS.get portfolioValues (Z.of_nat (length portfolioValues) - 1) in
  let totalReturn := (finalValue - startValue) / startValue in
  let annualizedReturn :=
    Math_pow (1 + totalReturn) (365 / JS.of_Z (duration params)) - 1 in
  let netReturn := totalReturn - cur_totalFees st / startValue in
  let maxDrawdown := calculateMaxDrawdown portfolioValues in
  let sharpeRatio := calculateSharpeRatio dailyReturns in
  let winRate :=
    JS.of_nat (length (List.filter (fun r => PrimFloat.ltb 0 r) dailyReturns))
    / JS.of_nat (length dailyReturns) in
  let metrics := calculateAdvancedMetrics dailyReturns portfolioValues in
  mkResult finalValue totalReturn annualizedReturn maxDrawdown sharpeRatio
           winRate (cur_totalFees st) netReturn dailyReturns portfolioValues
           (cur_rebalanceEvents st) metrics.

(** [runSimulation]: [now] is the time value of [new Date()]. The body
    of the [try] raises nothing, so the [catch] is never entered; the
    result type keeps the error case of the signature. *)
Inductive SarosError := UNKNOWN_ERROR (message : string).

Definition runSimulation (Math_random : nat -> JS.number) (now : Z)
    (params : SimulationParams) : SarosError + SimulationResult :=
  let endDate : JS.Date := Some now in
  let startDate := JS.TimeClip (now - duration params * JS.msPerDay) in
  let priceData := generatePriceData Math_random startDate endDate (pair params) in
  inr (simulate params startDate priceData).
End Statistics.

(** ** Comparing strategies *)

Record Comparison := mkComparison {
  bestStrategy : string;
  worstStrategy : string;
  riskAdjustedWinner : string
}.

(** [results[key]] on an object given by its entries in key order. *)
Fixpoint lookup_result (results : list (string * SimulationResult)) (key : string)
    : option SimulationResult :=
  match results with
  | [] => None
  | (k, r) :: rest => if String.eqb k key then Some r else lookup_result rest key
  end.

(** [results[a].f > results[b].f ? a : b] *)
Definition pick (results : list (string * SimulationResult))
    (better : JS.number -> JS.number -> bool)
    (f : SimulationResult -> JS.number) (a b : string) : string :=
  match lookup_result results a, lookup_result results b with
  | Some ra, Some rb => if better (f ra) (f rb) then a else b
  | _, _ => b
  end.

(** [strategies.reduce(g)] without an initial value: a TypeError on the
    empty array ([None]). *)
Definition reduce1 (g : string -> string -> string) (strategies : list string)
    : option string :=
  match strategies with
  | [] => None
  | a :: rest => Some (fold_left g rest a)
  end.

Definition gt (x y : JS.number) : bool := PrimFloat.ltb y x.
Definition lt (x y : JS.number) : bool := PrimFloat.ltb x y.

Definition compareStrategies (results : list (string * SimulationResult))
    : option Comparison :=
  let strategies := map fst results in
  match reduce1 (pick results gt totalReturn) strategies,
        reduce1 (pick results lt totalReturn) strategies,
        reduce1 (pick results gt sharpeRatio) strategies with
  | Some bestStrategy, Some worstStrategy, Some riskAdjustedWinner =>
      Some (mkComparison bestStrategy worstStrategy riskAdjustedWinner)
  | _, _, _ => None
  end.

(** What the fold needs of a comparison: on numbers that are not NaN it is
    a strict weak order. *)
Definition strict_weak (better : JS.number -> JS.number -> bool) : Prop :=
  (forall x, JS.isNaN x = false -> better x x = false)
  /\ (forall x y, JS.isNaN x = false -> JS.isNaN y = false ->
        better x y = true -> better y x = false)
  /\ (forall x y z, JS.isNaN x = false -> JS.isNaN y = false -> JS.isNaN z = false ->
        better x y = false -> better y z = false -> better x z = false).

(** The comparison of [compareStrategies] on two entries. *)
Definition keep (better : JS.number -> JS.number -> bool)
    (f : SimulationResult -> JS.number)
    (a b : string * SimulationResult) : string * SimulationResult :=
  if better (f (snd a)) (f (snd b)) then a else b.

(** ** The benchmark *)

(** [runBenchmark]: [duration] is [Math.ceil] of the span of the backtest
    in days; [Array(n)] raises a RangeError for a negative [n] and for an
    [n] above 2^32 - 1. *)
Definition runBenchmark (duration : Z) : option SimulationResult :=
  if ((duration <? 0) || (4294967295 <? duration + 1))%Z then None
  else
    let startValue := 10000 in
    let totalReturn := 0.1 in
    let finalValue := startValue * (1 + totalReturn) in
    let d := JS.of_Z duration in
    let dailyReturns := repeat (totalReturn / d) (Z.to_nat duration) in
    let portfolioValues :=
      map (fun i => startValue * (1 + totalReturn * JS.of_nat i / d))
          (seq 0 (Z.to_nat (duration + 1))) in
    Some (mkResult finalValue totalReturn totalReturn 0.05 1.0 0.6 0
                   totalReturn dailyReturns portfolioValues []
                   (mkAdvanced 0.15 2.0 1.5 (-0.02) (-0.03))).

(** ** Backtests *)

Inductive Benchmark := buy_hold | market_cap.

Record BacktestParams := mkBacktestParams {
  startDate : JS.Date;
  endDate : JS.Date;
  strategies : list SimulationParams;
  benchmark : option Benchmark
}.

Record BacktestResult := mkBacktestResult {
  bt_strategies : list (string * SimulationResult);
  bt_benchmark : option SimulationResult;
  comparison : Comparison
}.

Definition strategy_name (s : Strategy) : string :=
  match s with
  | passive => "passive"
  | active => "active"
  | momentum => "momentum"
  | mean_reversion => "mean_reversion"
  end.

(** [`strategy_${i}_${strategy.strategy}`] *)
Definition strategy_key (i : nat) (s : SimulationParams) : string :=
  "strategy_" +:+ pretty i +:+ "_" +:+ strategy_name (strategy s).

(** [results[key] = r] on an object given by its entries in key order: a
    key that is present keeps its place, a new one goes last. *)
Fixpoint set_result (results : list (string * SimulationResult)) (key : string)
    (r : SimulationResult) : list (string * SimulationResult) :=
  match results with
  | [] => [(key, r)]
  | (k, r0) :: rest =>
      if String.eqb k key then (k, r) :: rest
      else (k, r0) :: set_result rest key r
  end.

Section Backtest.
Variable Math_pow : JS.number -> JS.number -> JS.number.
(** [Math_random i] and [now i] are the random draws and the clock of the
    [i]-th run of the backtest. *)
Variable Math_random : nat -> nat -> JS.number.
Variable now : nat -> Z.
(** The messages of the engine's errors: the RangeError of [Array(n)] and
    the TypeError of [reduce] on an empty array. *)
Variable RangeError_message : string.
Variable TypeError_message : string.

(** [handleSarosError] of an [Error] that is not a [SarosError]. *)
Definition wrapped (message : string) : SarosError :=
  UNKNOWN_ERROR ("Saros operation failed: " +:+ message).

(** The loop over [params.strategies], from index [i] on. *)
Fixpoint run_strategies (i : nat) (todo : list SimulationParams)
    (results : list (string * SimulationResult))
    : SarosError + list (string * SimulationResult) :=
  match todo with
  | [] => inr results
  | strategy :: rest =>
      let key := strategy_key i strategy in
      match runSimulation Math_pow (Math_random i) (now i) strategy with
      | inl e => inl e
      | inr r => run_strategies (S i) rest (set_result results key r)
      end
  end.

(** [runBenchmark(params)] as [runBacktest] calls it: the duration is
    taken from the two dates, and is NaN when one of them is invalid. *)
Definition benchmark_of (params : BacktestParams) : option SimulationResult :=
  match days_between (startDate params) (endDate params) with
  | Some duration => runBenchmark duration
  | None => None
  end.

Definition runBacktest (params : BacktestParams) : SarosError + BacktestResult :=
  match run_strategies 0 (strategies params) [] with
  | inl e => inl e
  | inr results =>
      let requested :=
        match benchmark params with
        | Some _ =>
            match benchmark_of params with
            | Some r => inr (Some r)
            | None => inl (wrapped RangeError_message)
            end
        | None => inr None
        end in
      match requested with
      | inl e => inl e
      | inr benchmark =>
          match compareStrategies results with
          | Some comparison => inr (mkBacktestResult results benchmark comparison)
          | None => inl (wrapped TypeError_message)
          end
      end
  end.
End Backtest.

(** ** Notions used to state the properties of a run *)

(** The state after the first [n] days. *)
Definition after_days (params : SimulationParams) (startDate : JS.Date)
    (priceData : list JS.number) (n : nat) : LoopState :=
  fold_left (day_step params startDate priceData) (seq 1 n)
            (mkLoop (initialCapital params) 0 [] [initialCapital params] []).

(** The days of the first [n] on which the passive strategy rebalances. *)
Definition weekly_days (n : nat) : list nat :=
  List.filter (fun i => (i mod 7 =? 0)%nat) (seq 1 n).

(** The event [ev] was recorded on day [i] of a run over [priceData]
    that produced the series [values] and [returns]: it carries the date
    and the price of that day and, as its amount, the portfolio value of
    the day before; the strategy decided to rebalance on that day; the
    value of the day is the amount less 0.3 %. *)
Definition recorded_on (params : SimulationParams) (startDate : JS.Date)
    (priceData values returns : list JS.number)
    (ev : RebalanceEvent) (i : nat) : Prop :=
  timestamp ev = day_date startDate i
  /\ action ev = rebalance_action
  /\ price ev = JS.get priceData (Z.of_nat i)
  /\ nth_error values (i - 1) = Some (amount ev)
  /\ nth_error values i = Some (amount ev - amount ev * 0.003)
  /\ nth_error returns (i - 1)
     = Some ((amount ev - amount ev * 0.003 - amount ev) / amount ev)
  /\ rebalance
       (applyStrategy params (JS.get priceData (Z.of_nat i))
          ((JS.get priceData (Z.of_nat i) - JS.get priceData (Z.of_nat i - 1))
           / JS.get priceData (Z.of_nat i - 1))
          (amount ev) i priceData) = true.

(** A string of decimal digits, as [`${i}`] is for an index [i]. *)
Definition is_digit (c : ascii) : bool :=
  match c with
  | "0" | "1" | "2" | "3" | "4" | "5" | "6" | "7" | "8" | "9" => true
  | _ => false
  end%char.

Fixpoint numeral (s : string) : bool :=
  match s with
  | EmptyString => true
  | String c rest => is_digit c && numeral rest
  end.

(** 0.3 % of every rebalanced amount, added up in the order of the
    events. *)
Definition fees_of (events : list RebalanceEvent) : JS.number :=
  fold_left (fun total ev => total + amount ev * 0.003) events 0.

(** A series that never falls. *)
Fixpoint nondecreasing (values : list JS.number) : bool :=
  match values with
  | x :: rest =>
      match rest with
      | y :: _ => PrimFloat.leb x y && nondecreasing rest
      | [] => true
      end
  | [] => true
  end.

(** [key] names the last of the candidates that are best under [better]:
    no candidate is better, and every later one is strictly worse. *)
Definition last_best (better : JS.number -> JS.number -> bool)
    (f : SimulationResult -> JS.number)
    (results : list (string * SimulationResult)) (key : string) : Prop :=
  exists before r after,
    results = before ++ (key, r) :: after
    /\ (forall c, In c results -> better (f (snd c)) (f r) = false)
    /\ (forall c, In c after -> better (f r) (f (snd c)) = true).

(** ** Sample inputs

    A run of [days] days on 10000 units of capital, started at the time
    value of 2026-11-02T00:00:00Z, and a source of random draws that always
    returns the same number. *)

Definition sample_params (s : Strategy) (days : Z) : SimulationParams :=
  mkParams 10000 s days 24 medium "SOL/USDC".

Definition sample_now : Z := 1793664000000.

Definition constant_draw (x : JS.number) : nat -> JS.number := fun _ => x.

(** Random draws that make the price fall by 0.79 % a day for twenty
    days and rise by 0.81 % a day afterwards. *)
Definition late_rally (k : nat) : JS.number :=
  if (k <? 20)%nat then 0.1 else 0.9.

(** A result of which only the two compared figures matter. *)
Definition result_with (totalReturn sharpeRatio : JS.number) : SimulationResult :=
  mkResult 0 totalReturn 0 0 sharpeRatio 0 0 0 [] [] [] (mkAdvanced 0 0 0 0 0).

End Sim.

(* ================================================================== *)
(** * Limit-order service *)
(* ================================================================== *)

Module Orders.

Inductive Side := buy | sell.
Inductive LimitStatus := pending | filled | cancelled | expired.
Inductive StopStatus := active | triggered | stop_cancelled.

(** A [PublicKey] is identified with its base58 text; [equals] is
    equality of keys. *)
Definition PublicKey := string.

Record LimitOrder := mkLimitOrder {
  id : string;
  pair : string;
  side : Side;
  amount : JS.number;
  price : JS.number;
  binId : JS.number;
  status : LimitStatus;
  createdAt : JS.Date;
  expiresAt : option JS.Date;
  filledAt : option JS.Date;
  filledAmount : option JS.number;
  filledPrice : option JS.number
}.

Record StopLossOrder := mkStopLossOrder {
  stop_id : string;
  position : PublicKey;
  triggerPrice : JS.number;
  stop_amount : JS.number;
  stop_status : StopStatus;
  stop_createdAt : JS.Date;
  triggeredAt : option JS.Date
}.

Record OrderBookEntry := mkEntry {
  entry_price : JS.number;
  entry_amount : JS.number;
  entry_binId : JS.number;
  entry_side : Side
}.

(** [PositionData] of the DLMM service, without its [bins], which the
    order service never reads. *)
Record PositionData := mkPosition {
  pos_position : PublicKey;
  pos_pair : string;
  totalShares : string;
  totalX : string;
  totalY : string;
  totalValueUSD : JS.number;
  feesEarned : JS.number
}.

(** The three maps of the service. [orders] and [stopLossOrders] are
    iterated in insertion order. *)
Record Service := mkService {
  orders : list (string * LimitOrder);
  stopLossOrders : list (string * StopLossOrder);
  orderBook : gmap string (list OrderBookEntry)
}.

Definition Side_eqb (a b : Side) : bool :=
  match a, b with
  | buy, buy | sell, sell => true
  | _, _ => false
  end.

Definition is_pending (o : LimitOrder) : bool :=
  match status o with pending => true | _ => false end.

Definition is_active (o : StopLossOrder) : bool :=
  match stop_status o with active => true | _ => false end.

Definition set_status (o : LimitOrder) (s : LimitStatus) : LimitOrder :=
  mkLimitOrder (id o) (pair o) (side o) (amount o) (price o) (binId o) s
               (createdAt o) (expiresAt o) (filledAt o) (filledAmount o)
               (filledPrice o).

Definition set_filled (o : LimitOrder) (at_ : Z) (currentPrice : JS.number)
    : LimitOrder :=
  mkLimitOrder (id o) (pair o) (side o) (amount o) (price o) (binId o) filled
               (createdAt o) (expiresAt o) (Some (Some at_)) (Some (amount o))
               (Some currentPrice).

Definition set_triggered (o : StopLossOrder) (at_ : Z) : StopLossOrder :=
  mkStopLossOrder (stop_id o) (position o) (triggerPrice o) (stop_amount o)
                  triggered (stop_createdAt o) (Some (Some at_)).

(** ** The order book *)

Definition entry_of (order : LimitOrder) : OrderBookEntry :=
  mkEntry (price order) (amount order) (binId order) (side order).

(** [entry] has the price, amount and side of [probe], compared with
    [===]. *)
Definition same_listing (probe entry : OrderBookEntry) : bool :=
  JS.strict_eq (entry_price entry) (entry_price probe)
  && JS.strict_eq (entry_amount entry) (entry_amount probe)
  && Side_eqb (entry_side entry) (entry_side probe).

(** The predicate of [entries.findIndex] in [removeFromOrderBook]. *)
Definition entry_matches (order : LimitOrder) (entry : OrderBookEntry) : bool :=
  JS.strict_eq (entry_price entry) (price order)
  && JS.strict_eq (entry_amount entry) (amount order)
  && Side_eqb (entry_side entry) (side order).

(** [findIndex] followed by [splice(index, 1)]: the first entry that
    satisfies [p] is removed, if there is one. *)
Fixpoint remove_first {A : Type} (p : A -> bool) (l : list A) : list A :=
  match l with
  | [] => []
  | x :: l' => if p x then l' else x :: remove_first p l'
  end.

Definition removeFromOrderBook (book : gmap string (list OrderBookEntry))
    (order : LimitOrder) : gmap string (list OrderBookEntry) :=
  match book !! pair order with
  | None => book
  | Some entries => <[pair order := remove_first (entry_matches order) entries]> book
  end.

(** The comparator of [entries.sort] in [addToOrderBook]. *)
Definition book_compare (a b : OrderBookEntry) : JS.number :=
  match entry_side a with
  | buy => (entry_price b - entry_price a)%float
  | sell => (entry_price a - entry_price b)%float
  end.

Section AddToOrderBook.
(** [Array.prototype.sort] with a comparator; on a book that mixes
    sides the comparator above is not consistent, and the order of the
    result is left to the engine. *)
Variable Array_sort :
  (OrderBookEntry -> OrderBookEntry -> JS.number) ->
  list OrderBookEntry -> list OrderBookEntry.

Definition addToOrderBook (book : gmap string (list OrderBookEntry))
    (order : LimitOrder) : gmap string (list OrderBookEntry) :=
  let entries := default [] (book !! pair order) in
  <[pair order := Array_sort book_compare (entries ++ [entry_of order])]> book.
End AddToOrderBook.

(** ** Orders that still have their entry in the book

    An order is put in the book when it is created and taken out when it
    is filled or cancelled, so the orders whose entry is still there are
    the pending and the expired ones. Entries are only told apart by
    price, amount and side: [book_covers] says that, for every pair and
    every such triple, the book lists at least as many entries as there
    are orders that still have theirs. *)

Definition still_listed (o : LimitOrder) : bool :=
  match status o with
  | pending | expired => true
  | filled | cancelled => false
  end.

Definition listed_orders (pair_ : string) (probe : OrderBookEntry)
    (os : list (string * LimitOrder)) : nat :=
  length (List.filter (fun io => still_listed (snd io)
                            && String.eqb (pair (snd io)) pair_
                            && same_listing (entry_of (snd io)) probe) os).

Definition listed_entries (pair_ : string) (probe : OrderBookEntry)
    (book : gmap string (list OrderBookEntry)) : nat :=
  length (List.filter (same_listing probe) (default [] (book !! pair_))).

Definition book_covers (os : list (string * LimitOrder))
    (book : gmap string (list OrderBookEntry)) : Prop :=
  forall pair_ probe,
    (listed_orders pair_ probe os <= listed_entries pair_ probe book)%nat.

(** ** Cancelling *)

Inductive Failure := Order_not_found | Order_cannot_be_cancelled.

Fixpoint Map_get {V : Type} (m : list (string * V)) (key : string) : option V :=
  match m with
  | [] => None
  | (k, v) :: rest => if String.eqb k key then Some v else Map_get rest key
  end.

(** [m.set(key, v)] on a key that is present: the entry keeps its place. *)
Fixpoint Map_set {V : Type} (m : list (string * V)) (key : string) (v : V)
    : list (string * V) :=
  match m with
  | [] => [(key, v)]
  | (k, v0) :: rest =>
      if String.eqb k key then (k, v) :: rest else (k, v0) :: Map_set rest key v
  end.

Definition cancelLimitOrder (s : Service) (orderId : string)
    : Failure + Service :=
  match Map_get (orders s) orderId with
  | None => inl Order_not_found
  | Some order =>
      if is_pending order then
        let order' := set_status order cancelled in
        inr (mkService (Map_set (orders s) orderId order')
                       (stopLossOrders s)
                       (removeFromOrderBook (orderBook s) order'))
      else inl Order_cannot_be_cancelled
  end.

(** ** Creating orders *)

(** [LbPairLite], what [getPairInfo] resolves to. *)
Record LbPairLite := mkPair {
  tokenXMint : PublicKey;
  tokenYMint : PublicKey;
  pubkey : PublicKey
}.

(** The argument of [createLimitOrder]. *)
Record LimitOrderParams := mkLimitOrderParams {
  new_pair : string;
  new_side : Side;
  new_amount : JS.number;
  new_price : JS.number;
  new_user : PublicKey;
  new_expiresAt : option JS.Date
}.

(** The argument of [createStopLossOrder]. *)
Record StopLossParams := mkStopLossParams {
  new_position : PublicKey;
  new_triggerPrice : JS.number;
  new_stop_amount : JS.number;
  new_stop_user : PublicKey
}.

(** What one call that creates an order observes: [getPairInfo pair] is
    what [dlmmService.getPairInfo] resolves to ([inr None] for [null]) or
    the message of the [SarosError] it rejects with, [generateOrderId] the
    id drawn from [Date.now()] and [Math.random()], and [createClock] the
    reading of [new Date()]. *)
Record CreateEnv := mkCreateEnv {
  getPairInfo : string -> string + option LbPairLite;
  generateOrderId : string;
  createClock : Z
}.

Inductive CreateFailure :=
| Pair_not_found
| Price_out_of_range_for_current_bins
| Rejected (message : string).

Section CreateLimitOrder.
Variable Array_sort :
  (OrderBookEntry -> OrderBookEntry -> JS.number) ->
  list OrderBookEntry -> list OrderBookEntry.
Variable Math_log : JS.number -> JS.number.
Variable Math_round : JS.number -> JS.number.

Definition findBinForPrice (pairInfo : LbPairLite) (price : JS.number) : JS.number :=
  let basePrice := 100%float in
  let binStep := 0.01%float in
  Math_round (Math_log (price / basePrice) / Math_log (1 + binStep))%float.

Definition createLimitOrder (env : CreateEnv) (s : Service)
    (params : LimitOrderParams) : CreateFailure + Service * LimitOrder :=
  match getPairInfo env (new_pair params) with
  | inl message => inl (Rejected message)
  | inr None => inl Pair_not_found
  | inr (Some pairInfo) =>
      let binId := findBinForPrice pairInfo (new_price params) in
      if JS.strict_eq binId (-1)%float
      then inl Price_out_of_range_for_current_bins
      else
        let orderId := generateOrderId env in
        let order :=
          mkLimitOrder orderId (new_pair params) (new_side params)
                       (new_amount params) (new_price params) binId pending
                       (Some (createClock env)) (new_expiresAt params)
                       None None None in
        inr (mkService (Map_set (orders s) orderId order)
                       (stopLossOrders s)
                       (addToOrderBook Array_sort (orderBook s) order),
             order)
  end.
End CreateLimitOrder.

Definition createStopLossOrder (env : CreateEnv) (s : Service)
    (params : StopLossParams) : Service * StopLossOrder :=
  let orderId := generateOrderId env in
  let order :=
    mkStopLossOrder orderId (new_position params) (new_triggerPrice params)
                    (new_stop_amount params) active (Some (createClock env))
                    None in
  (mkService (orders s) (Map_set (stopLossOrders s) orderId order) (orderBook s),
   order).

Inductive StopFailure :=
| Stop_loss_order_not_found
| Stop_loss_order_cannot_be_cancelled.

Definition set_stop_status (o : StopLossOrder) (st : StopStatus) : StopLossOrder :=
  mkStopLossOrder (stop_id o) (position o) (triggerPrice o) (stop_amount o) st
                  (stop_createdAt o) (triggeredAt o).

Definition cancelStopLossOrder (s : Service) (orderId : string)
    : StopFailure + Service :=
  match Map_get (stopLossOrders s) orderId with
  | None => inl Stop_loss_order_not_found
  | Some order =>
      if is_active order then
        let order' := set_stop_status order stop_cancelled in
        inr (mkService (orders s)
                       (Map_set (stopLossOrders s) orderId order')
                       (orderBook s))
      else inl Stop_loss_order_cannot_be_cancelled
  end.

(** ** Reading the orders *)

(** [getUserOrders]: the values of the two maps, whoever the user is. *)
Definition getUserOrders (s : Service) (user : PublicKey)
    : list LimitOrder * list StopLossOrder :=
  (map snd (orders s), map snd (stopLossOrders s)).

(** The counts of [getOrderStatistics] are lengths of arrays; the volume
    and the rate are binary64 numbers. *)
Record OrderStatistics := mkStatistics {
  totalOrders : nat;
  pendingOrders : nat;
  filledOrders : nat;
  cancelledOrders : nat;
  totalVolume : JS.number;
  successRate : JS.number
}.

Definition has_status (st : LimitStatus) (o : LimitOrder) : bool :=
  match status o, st with
  | pending, pending | filled, filled
  | cancelled, cancelled | expired, expired => true
  | _, _ => false
  end.

Definition getOrderStatistics (s : Service) (user : PublicKey) : OrderStatistics :=
  let limitOrders := fst (getUserOrders s user) in
  let totalOrders := length limitOrders in
  let pendingOrders := length (List.filter (has_status pending) limitOrders) in
  let filledOrders := length (List.filter (has_status filled) limitOrders) in
  let cancelledOrders := length (List.filter (has_status cancelled) limitOrders) in
  let totalVolume :=
    fold_left (fun sum o => (sum + JS.elem_or_zero (filledAmount o))%float)
              (List.filter (has_status filled) limitOrders) 0%float in
  let successRate :=
    if (0 <? totalOrders)%nat
    then (JS.of_nat filledOrders / JS.of_nat totalOrders)%float
    else 0%float in
  mkStatistics totalOrders pendingOrders filledOrders cancelledOrders
               totalVolume successRate.

(** ** Fill evaluation *)

(** What one pass of [checkOrderFills] observes. The functions are keyed
    by the id of the order under examination: [marketPrice id pair] is
    [parseFloat] of the price that [getMarketData(pair)] resolves to in
    that iteration, [None] when the promise rejects; [expiryClock] and
    [fillClock] are the two readings of [new Date()]. *)
Record FillEnv := mkFillEnv {
  marketPrice : string -> string -> option JS.number;
  expiryClock : string -> Z;
  fillClock : string -> Z
}.

(** [order.expiresAt && new Date() > order.expiresAt] *)
Definition has_expired (now : Z) (order : LimitOrder) : bool :=
  match expiresAt order with
  | Some (Some e) => e <? now
  | _ => false
  end.

Definition shouldFill (order : LimitOrder) (currentPrice : JS.number) : bool :=
  match side order with
  | buy => PrimFloat.leb currentPrice (price order)
  | sell => PrimFloat.leb (price order) currentPrice
  end.

(** One iteration of the loop of [checkOrderFills]: the order afterwards,
    the book afterwards and what was pushed on [filledOrders]; [None]
    when [getMarketData] rejects, which ends the pass. *)
Definition examine (env : FillEnv) (orderId : string) (order : LimitOrder)
    (book : gmap string (list OrderBookEntry))
    : option (LimitOrder * gmap string (list OrderBookEntry) * list LimitOrder) :=
  if negb (is_pending order) then Some (order, book, [])
  else
    match marketPrice env orderId (pair order) with
    | None => None
    | Some currentPrice =>
        let fill := shouldFill order currentPrice in
        if has_expired (expiryClock env orderId) order
        then Some (set_status order expired, book, [])
        else if fill then
          let order' := set_filled order (fillClock env orderId) currentPrice in
          Some (order', removeFromOrderBook book order', [order'])
        else Some (order, book, [])
    end.

Fixpoint fills_loop (env : FillEnv) (todo : list (string * LimitOrder))
    (book : gmap string (list OrderBookEntry))
    : list (string * LimitOrder) * gmap string (list OrderBookEntry)
      * option (list LimitOrder) :=
  match todo with
  | [] => ([], book, Some [])
  | (orderId, order) :: rest =>
      match examine env orderId order book with
      | None => (todo, book, None)
      | Some (order', book', pushed) =>
          let '(rest', book'', filledOrders) := fills_loop env rest book' in
          ((orderId, order') :: rest', book'',
           option_map (app pushed) filledOrders)
      end
  end.

(** [checkOrderFills]: the service afterwards and the orders filled, or
    [None] when the pass was ended by a rejected quote. *)
Definition checkOrderFills (env : FillEnv) (s : Service)
    : Service * option (list LimitOrder) :=
  let '(orders', book', filledOrders) :=
    fills_loop env (orders s) (orderBook s) in
  (mkService orders' (stopLossOrders s) book', filledOrders).

(** ** Stop-loss triggers *)

Record TriggerEnv := mkTriggerEnv {
  getUserPositions : string -> PublicKey -> option (list PositionData);
  triggerClock : string -> Z
}.

Definition examine_stop (env : TriggerEnv) (orderId : string)
    (order : StopLossOrder) : option (StopLossOrder * list StopLossOrder) :=
  if negb (is_active order) then Some (order, [])
  else
    match getUserPositions env orderId (position order) with
    | None => None
    | Some positions =>
        match find (fun p => String.eqb (pos_position p) (position order))
                   positions with
        | None => Some (order, [])
        | Some position =>
            let currentPrice :=
              (totalValueUSD position / totalValueUSD position)%float in
            if PrimFloat.leb currentPrice (triggerPrice order)
            then
              let order' := set_triggered order (triggerClock env orderId) in
              Some (order', [order'])
            else Some (order, [])
        end
    end.

Fixpoint triggers_loop (env : TriggerEnv) (todo : list (string * StopLossOrder))
    : list (string * StopLossOrder) * option (list StopLossOrder) :=
  match todo with
  | [] => ([], Some [])
  | (orderId, order) :: rest =>
      match examine_stop env orderId order with
      | None => (todo, None)
      | Some (order', pushed) =>
          let '(rest', triggeredOrders) := triggers_loop env rest in
          ((orderId, order') :: rest', option_map (app pushed) triggeredOrders)
      end
  end.

Definition checkStopLossTriggers (env : TriggerEnv) (s : Service)
    : Service * option (list StopLossOrder) :=
  let '(stops', triggeredOrders) := triggers_loop env (stopLossOrders s) in
  (mkService (orders s) stops' (orderBook s), triggeredOrders).

(** ** The states of a service

    A service starts with three empty maps and changes only through its
    six methods that write. *)

Section Reachable.
Variable Array_sort :
  (OrderBookEntry -> OrderBookEntry -> JS.number) ->
  list OrderBookEntry -> list OrderBookEntry.
Variable Math_log : JS.number -> JS.number.
Variable Math_round : JS.number -> JS.number.

Inductive reachable : Service -> Prop :=
| reach_new : reachable (mkService [] [] ∅)
| reach_createLimitOrder env s params s' order :
    reachable s ->
    createLimitOrder Array_sort Math_log Math_round env s params = inr (s', order) ->
    reachable s'
| reach_createStopLossOrder env s params :
    reachable s -> reachable (fst (createStopLossOrder env s params))
| reach_cancelLimitOrder s orderId s' :
    reachable s -> cancelLimitOrder s orderId = inr s' -> reachable s'
| reach_cancelStopLossOrder s orderId s' :
    reachable s -> cancelStopLossOrder s orderId = inr s' -> reachable s'
| reach_checkOrderFills env s :
    reachable s -> reachable (fst (checkOrderFills env s))
| reach_checkStopLossTriggers env s :
    reachable s -> reachable (fst (checkStopLossTriggers env s)).
End Reachable.

(** The orders are filed under their own ids, each id once. *)
Definition filed_by_id (os : list (string * LimitOrder)) : Prop :=
  List.NoDup (map fst os) /\ forall k o, In (k, o) os -> id o = k.

(** An order before and after a pass of [checkOrderFills]: it keeps its
    key and its id, an order that was not pending is as it was, and so is
    an order that is pending afterwards. *)
Definition settled_step (a b : string * LimitOrder) : Prop :=
  fst b = fst a
  /\ id (snd b) = id (snd a)
  /\ (status (snd a) <> pending -> snd b = snd a)
  /\ (status (snd b) = pending -> snd b = snd a).

(** ** Sample inputs *)

(** A pending order for 10 units on SOL/USDC, created at [sample_time]. *)
Definition sample_time : Z := 1793664000000.

Definition sample_order (orderId : string) (side_ : Side) (limit : JS.number)
    (expiry : option JS.Date) : LimitOrder :=
  mkLimitOrder orderId "SOL/USDC" side_ 10%float limit 0%float pending
               (Some sample_time) expiry None None None.

(** A service that holds the given orders and the entry of each. *)
Definition service_of (os : list LimitOrder) : Service :=
  mkService (map (fun o => (id o, o)) os) []
            (<["SOL/USDC" := map entry_of os]> ∅).

(** A pass that observes the price [quote] an hour after [sample_time]. *)
Definition sample_env (quote : JS.number) : FillEnv :=
  mkFillEnv (fun _ _ => Some quote)
            (fun _ => sample_time + 3600000)
            (fun _ => sample_time + 3600001).

(** A pass that observes the price [quote] an hour after [sample_time],
    except for the order [unquoted], whose quote is rejected. *)
Definition sample_env_without (unquoted : string) (quote : JS.number) : FillEnv :=
  mkFillEnv (fun orderId _ => if String.eqb orderId unquoted then None else Some quote)
            (fun _ => sample_time + 3600000)
            (fun _ => sample_time + 3600001).

Definition sample_position (value : JS.number) : PositionData :=
  mkPosition "pos1" "SOL/USDC" "1000" "5" "600" value 12.34%float.

Definition sample_stop (trigger : JS.number) : StopLossOrder :=
  mkStopLossOrder "order_9" "pos1" trigger 10%float active (Some sample_time) None.

Definition sample_trigger_env (value : JS.number) : TriggerEnv :=
  mkTriggerEnv (fun _ _ => Some [sample_position value])
               (fun _ => sample_time + 3600000).

(** Stand-ins for the engine's [sort], [Math.log] and [Math.round], to run
    [createLimitOrder] on concrete inputs: a sort that leaves the array as
    it is, the first-order logarithm [x - 1], and [floor(x + 0.5)]. *)
Definition sample_sort (cmp : OrderBookEntry -> OrderBookEntry -> JS.number)
    (l : list OrderBookEntry) : list OrderBookEntry := l.

Definition sample_log (x : JS.number) : JS.number := (x - 1)%float.

Definition sample_round (x : JS.number) : JS.number :=
  JS.of_Z (JS.Math_floor (x + 0.5)%float).

(** A call that finds the pair and draws the id [orderId]. *)
Definition sample_create_env (orderId : string) : CreateEnv :=
  mkCreateEnv (fun _ => inr (Some (mkPair "So11" "EPjF" "pair1")))
              orderId sample_time.

Definition sample_limit_params (side_ : Side) (limit : JS.number)
    : LimitOrderParams :=
  mkLimitOrderParams "SOL/USDC" side_ 10%float limit "user1" None.

(** A service as its constructor leaves it. *)
Definition new_service : Service := mkService [] [] ∅.

End Orders.

(* ================================================================== *)
(** * Facts about binary64 arithmetic *)
(* ================================================================== *)

Section Binary64.

Local Open Scope float_scope.

Lemma isNaN_spec (x : JS.number) : JS.isNaN x = true <-> Prim2SF x = S754_nan.
Proof.
  unfold JS.isNaN, is_nan. rewrite FloatAxioms.eqb_spec.
  destruct (Prim2SF x) as [s|s| |s m e]; cbn.
  - split; discriminate.
  - destruct s; cbn; split; discriminate.
  - split; reflexivity.
  - unfold SFeqb, SFcompare. rewrite Z.compare_refl.
    change (Pos.compare_cont Eq m m) with (Pos.compare m m).
    rewrite Pos.compare_refl. destruct s; cbn; split; discriminate.
Qed.

Lemma isNaN_false (x : JS.number) : JS.isNaN x = false <-> Prim2SF x <> S754_nan.
Proof.
  rewrite <- isNaN_spec. destruct (JS.isNaN x); split; congruence.
Qed.

Lemma isNaN_eq (x : JS.number) : JS.isNaN x = true -> x = JS.NaN.
Proof.
  intros H%isNaN_spec. apply Prim2SF_inj. rewrite H. reflexivity.
Qed.

(** NaN is absorbing. *)
Lemma add_NaN_l (x : JS.number) : JS.NaN + x = JS.NaN.
Proof.
  apply Prim2SF_inj. rewrite FloatAxioms.add_spec.
  change (Prim2SF JS.NaN) with S754_nan. reflexivity.
Qed.

Lemma add_NaN_r (x : JS.number) : x + JS.NaN = JS.NaN.
Proof.
  apply Prim2SF_inj. rewrite FloatAxioms.add_spec.
  change (Prim2SF JS.NaN) with S754_nan.
  destruct (Prim2SF x) as [s|s| |s m e]; reflexivity.
Qed.

Lemma mul_NaN_l (x : JS.number) : JS.NaN * x = JS.NaN.
Proof.
  apply Prim2SF_inj. rewrite FloatAxioms.mul_spec.
  change (Prim2SF JS.NaN) with S754_nan. reflexivity.
Qed.

Lemma div_NaN_r (x : JS.number) : x / JS.NaN = JS.NaN.
Proof.
  apply Prim2SF_inj. rewrite FloatAxioms.div_spec.
  change (Prim2SF JS.NaN) with S754_nan.
  destruct (Prim2SF x) as [s|s| |s m e]; reflexivity.
Qed.

Lemma strict_eq_zero (x : JS.number) :
  JS.strict_eq x 0 = true <-> exists s, Prim2SF x = S754_zero s.
Proof.
  unfold JS.strict_eq. rewrite FloatAxioms.eqb_spec.
  change (Prim2SF 0) with (S754_zero false).
  destruct (Prim2SF x) as [s|s| |s m e]; cbn.
  - split; eauto.
  - destruct s; split; try discriminate; intros [? ?]; discriminate.
  - split; try discriminate; intros [? ?]; discriminate.
  - destruct s; split; try discriminate; intros [? ?]; discriminate.
Qed.

(** Zero by zero, whatever the signs, is NaN. *)
Lemma div_zero_zero (x y : JS.number) :
  JS.strict_eq x 0 = true -> JS.strict_eq y 0 = true -> x / y = JS.NaN.
Proof.
  intros [sx Hx]%strict_eq_zero [sy Hy]%strict_eq_zero.
  apply Prim2SF_inj. rewrite FloatAxioms.div_spec, Hx, Hy. reflexivity.
Qed.

Lemma finite_nonzero_finite (x : JS.number) :
  JS.finite_nonzero x = true -> JS.finite x = true.
Proof.
  unfold JS.finite_nonzero, JS.finite. now destruct (Prim2SF x).
Qed.

Lemma sub_self (x : JS.number) : JS.finite x = true -> x - x = 0.
Proof.
  unfold JS.finite. intros H. apply Prim2SF_inj. rewrite FloatAxioms.sub_spec.
  destruct (Prim2SF x) as [s|s| |s m e]; try discriminate.
  - destruct s; reflexivity.
  - unfold SF64sub, SFsub. rewrite Z.sub_diag. reflexivity.
Qed.

Lemma zero_div (x y : JS.number) :
  JS.strict_eq x 0 = true -> JS.finite_nonzero y = true ->
  JS.strict_eq (x / y) 0 = true.
Proof.
  intros [sx Hx]%strict_eq_zero Hy. apply strict_eq_zero.
  rewrite FloatAxioms.div_spec, Hx. unfold JS.finite_nonzero in Hy.
  destruct (Prim2SF y) as [s|s| |s m e]; try discriminate.
  eexists. reflexivity.
Qed.

Lemma div_self_SF (s : bool) (m : positive) (e : Z) :
  SF64div (S754_finite s m e) (S754_finite s m e) = Prim2SF 1.
Proof.
  unfold SF64div, SFdiv, SFdiv_core_binary.
  rewrite xorb_nilpotent, !Z.sub_diag.
  change (Z.min (fexp prec emax 0) 0) with (-53)%Z.
  change (0 - -53)%Z with 53%Z.
  cbv iota beta zeta.
  assert (Hq : Z.div_eucl (Z.shiftl (Z.pos m) 53) (Z.pos m) = (2 ^ 53, 0)%Z).
  { rewrite Z.shiftl_mul_pow2 by lia. rewrite (Z.mul_comm (Z.pos m)).
    assert (Hp : forall a b, Z.div_eucl a b = (a / b, a mod b)%Z).
    { intros a b. unfold Z.div, Z.modulo. now destruct (Z.div_eucl a b). }
    rewrite Hp, Z.div_mul, Z.mod_mul by lia. reflexivity. }
  rewrite Hq. unfold new_location, new_location_even, new_location_odd.
  destruct (Z.even (Z.pos m)); reflexivity.
Qed.

(** A finite non-zero number divided by itself is exactly 1. *)
Lemma div_self (x : JS.number) : JS.finite_nonzero x = true -> x / x = 1.
Proof.
  unfold JS.finite_nonzero. intros H. apply Prim2SF_inj. rewrite FloatAxioms.div_spec.
  destruct (Prim2SF x) as [s|s| |s m e]; try discriminate.
  apply div_self_SF.
Qed.

Lemma mul_one_r_SF (s : bool) (m : positive) (e : Z) :
  valid_binary (S754_finite s m e) = true ->
  SF64mul (S754_finite s m e) (Prim2SF 1) = S754_finite s m e.
Proof.
  intros Hv. cbn in Hv. unfold bounded, canonical_mantissa in Hv.
  apply andb_true_iff in Hv as [Hc Hb]. apply Z.eqb_eq in Hc.
  change (Prim2SF 1) with (S754_finite false 4503599627370496 (-52)).
  unfold SF64mul, SFmul. rewrite xorb_false_r.
  unfold binary_round_aux, shr_fexp.
  assert (HD : Zdigits2 (Z.pos (m * 4503599627370496))
               = (Z.pos (digits2_pos m) + 52)%Z).
  { rewrite !Pos.mul_xO_r, Pos.mul_1_r. cbn [Zdigits2 digits2_pos].
    rewrite !Pos2Z.inj_succ. lia. }
  rewrite HD.
  replace (Z.pos (digits2_pos m) + 52 + (e + -52))%Z
    with (Z.pos (digits2_pos m) + e)%Z by lia.
  rewrite Hc.
  replace (e - (e + -52))%Z with 52%Z by lia.
  rewrite !Pos.mul_xO_r, Pos.mul_1_r.
  cbn [shr shr_record_of_loc SpecFloat.iter_pos shr_1 orb].
  cbn [loc_of_shr_record shr_m round_nearest_even Zdigits2].
  replace (e + -52 + 52)%Z with e by lia.
  rewrite Hc, Z.sub_diag. cbn [shr shr_record_of_loc shr_m].
  rewrite Hb. reflexivity.
Qed.

(** Multiplying by 1 changes nothing. *)
Lemma mul_one_r (x : JS.number) : x * 1 = x.
Proof.
  apply Prim2SF_inj. rewrite FloatAxioms.mul_spec.
  pose proof (Prim2SF_valid x) as Hv.
  destruct (Prim2SF x) as [s|s| |s m e] eqn:E.
  - destruct s; reflexivity.
  - destruct s; reflexivity.
  - reflexivity.
  - now apply mul_one_r_SF.
Qed.

Lemma SFcompare_lt_key (x y : spec_float) :
  x <> S754_nan -> y <> S754_nan ->
  (SFcompare x y = Some Lt <-> JS.lex_lt (JS.SFkey x) (JS.SFkey y)).
Proof.
  intros Hx Hy.
  destruct x as [sx|sx| |sx mx ex], y as [sy|sy| |sy my ey]; try congruence;
    try (destruct sx); try (destruct sy); cbn;
    try (split; [intros; try discriminate; lia | intros; try reflexivity; lia]).
  all: change (Pos.compare_cont Eq mx my) with (Pos.compare mx my).
  all: destruct (Z.compare_spec ex ey); destruct (Pos.compare_spec mx my); cbn;
       split; intros; try discriminate; try reflexivity; try lia.
Qed.

Lemma SFcompare_eq_key (x y : spec_float) :
  x <> S754_nan -> y <> S754_nan ->
  (SFcompare x y = Some Eq <-> JS.SFkey x = JS.SFkey y).
Proof.
  intros Hx Hy.
  destruct x as [sx|sx| |sx mx ex], y as [sy|sy| |sy my ey]; try congruence;
    try (destruct sx); try (destruct sy); cbn;
    try (split; [ intros; try discriminate; try reflexivity; congruence
                | intros; try reflexivity; try discriminate; congruence ]).
  all: change (Pos.compare_cont Eq mx my) with (Pos.compare mx my).
  all: destruct (Z.compare_spec ex ey); destruct (Pos.compare_spec mx my); cbn;
       split; intros HH; try discriminate; try reflexivity;
       try (injection HH; intros; lia); try (subst; reflexivity).
Qed.

Lemma ltb_key (x y : JS.number) :
  JS.isNaN x = false -> JS.isNaN y = false ->
  (PrimFloat.ltb x y = true <-> JS.lex_lt (JS.key x) (JS.key y)).
Proof.
  intros Hx%isNaN_false Hy%isNaN_false. rewrite FloatAxioms.ltb_spec. unfold SFltb, JS.key.
  rewrite <- (SFcompare_lt_key _ _ Hx Hy).
  destruct (SFcompare (Prim2SF x) (Prim2SF y)) as [[]|]; split; congruence.
Qed.

Lemma leb_key (x y : JS.number) :
  JS.isNaN x = false -> JS.isNaN y = false ->
  (PrimFloat.leb x y = true <-> JS.lex_le (JS.key x) (JS.key y)).
Proof.
  intros Hx%isNaN_false Hy%isNaN_false. rewrite FloatAxioms.leb_spec. unfold SFleb, JS.key, JS.lex_le.
  rewrite <- (SFcompare_lt_key _ _ Hx Hy), <- (SFcompare_eq_key _ _ Hx Hy).
  destruct (SFcompare (Prim2SF x) (Prim2SF y)) as [[]|];
    split; intros H; try tauto; try congruence; destruct H; congruence.
Qed.

(** [===] holds between two numbers exactly when neither is NaN and they
    have the same place in the order. *)
Lemma strict_eq_key (x y : JS.number) :
  JS.strict_eq x y = true
  <-> JS.isNaN x = false /\ JS.isNaN y = false /\ JS.key x = JS.key y.
Proof.
  unfold JS.strict_eq. rewrite FloatAxioms.eqb_spec, !isNaN_false. unfold SFeqb, JS.key.
  split.
  - intros H.
    assert (Hx : Prim2SF x <> S754_nan).
    { intros E. rewrite E in H. discriminate. }
    assert (Hy : Prim2SF y <> S754_nan).
    { intros E. rewrite E in H. now destruct (Prim2SF x). }
    repeat split; try assumption.
    apply (SFcompare_eq_key _ _ Hx Hy).
    destruct (SFcompare (Prim2SF x) (Prim2SF y)) as [[]|]; congruence.
  - intros (Hx & Hy & Hk). apply (SFcompare_eq_key _ _ Hx Hy) in Hk.
    now rewrite Hk.
Qed.

Lemma strict_eq_refl (x : JS.number) :
  JS.isNaN x = false -> JS.strict_eq x x = true.
Proof. intros H. apply strict_eq_key. auto. Qed.

Lemma strict_eq_sym (x y : JS.number) :
  JS.strict_eq x y = true -> JS.strict_eq y x = true.
Proof. rewrite !strict_eq_key. intuition congruence. Qed.

Lemma strict_eq_trans (x y z : JS.number) :
  JS.strict_eq x y = true -> JS.strict_eq y z = true -> JS.strict_eq x z = true.
Proof. rewrite !strict_eq_key. intuition congruence. Qed.

(** Equal numbers satisfy both [<=] and [>=]. *)
Lemma strict_eq_leb (x y : JS.number) :
  JS.strict_eq x y = true ->
  PrimFloat.leb x y = true /\ PrimFloat.leb y x = true.
Proof.
  intros (Hx & Hy & Hk)%strict_eq_key.
  split; apply leb_key; try assumption; right; congruence.
Qed.

Lemma lex_lt_trans (a b c : Z * Z * Z) : JS.lex_lt a b -> JS.lex_lt b c -> JS.lex_lt a c.
Proof.
  destruct a as [[a1 a2] a3], b as [[b1 b2] b3], c as [[c1 c2] c3].
  unfold JS.lex_lt. lia.
Qed.

Lemma lex_le_trans (a b c : Z * Z * Z) : JS.lex_le a b -> JS.lex_le b c -> JS.lex_le a c.
Proof.
  unfold JS.lex_le. intros [H1|H1] [H2|H2]; subst; auto.
  left. eapply lex_lt_trans; eassumption.
Qed.

Lemma lex_lt_le_trans (a b c : Z * Z * Z) : JS.lex_lt a b -> JS.lex_le b c -> JS.lex_lt a c.
Proof.
  intros H1 [H2|H2]; subst; auto. eapply lex_lt_trans; eassumption.
Qed.

Lemma lex_total (a b : Z * Z * Z) : JS.lex_lt a b \/ JS.lex_le b a.
Proof.
  destruct a as [[a1 a2] a3], b as [[b1 b2] b3]. unfold JS.lex_le, JS.lex_lt.
  destruct (Z.lt_total a1 b1) as [?|[?|?]]; try (left; lia); try (right; left; lia).
  destruct (Z.lt_total a2 b2) as [?|[?|?]]; try (left; lia); try (right; left; lia).
  destruct (Z.lt_total a3 b3) as [?|[?|?]]; try (left; lia); try (right; left; lia).
  right. right. congruence.
Qed.

Lemma lex_lt_irrefl (a b : Z * Z * Z) : JS.lex_lt a b -> JS.lex_le b a -> False.
Proof.
  destruct a as [[a1 a2] a3], b as [[b1 b2] b3]. unfold JS.lex_le, JS.lex_lt.
  intros H [H'|H']; [lia|]. injection H'. lia.
Qed.

End Binary64.

(* ================================================================== *)
(** * Total weight of the generated distributions *)
(* ================================================================== *)

Section TotalWeight.
Import Dist.

Lemma fold_bps_shift (l : list Distribution) (a : Z) :
  fold_left (fun sum d => sum + bpsX d + bpsY d) l a = a + sumBps l.
Proof.
  unfold sumBps. revert a.
  induction l as [|d l IH]; intros a; cbn [fold_left].
  - lia.
  - rewrite IH, (IH (0 + bpsX d + bpsY d)). lia.
Qed.

Lemma sumBps_cons (d : Distribution) (l : list Distribution) :
  sumBps (d :: l) = bpsX d + bpsY d + sumBps l.
Proof.
  unfold sumBps at 1. cbn [fold_left]. rewrite fold_bps_shift. lia.
Qed.

Lemma sumBps_app (l1 l2 : list Distribution) :
  sumBps (l1 ++ l2) = sumBps l1 + sumBps l2.
Proof.
  induction l1 as [|d l1 IH]; [reflexivity|].
  cbn [app]. rewrite !sumBps_cons, IH. lia.
Qed.

(** The weight of one loop bin: [per] off the centre, nothing on it. *)
Lemma side_bin_weight (per shift i : Z) :
  bpsX (side_bin per shift i) + bpsY (side_bin per shift i)
  = if i =? 0 then 0 else per.
Proof.
  unfold side_bin; cbn.
  destruct (Z.ltb_spec i 0), (Z.ltb_spec 0 i), (Z.eqb_spec i 0); lia.
Qed.

(** The first [n] bins of the loop that starts at [-half]. *)
Lemma loop_prefix_weight (per shift half : Z) (n : nat) :
  0 <= half ->
  sumBps (map (side_bin per shift)
              (map (fun k => Z.of_nat k - half) (seq 0 n)))
  = per * (if Z.of_nat n <=? half then Z.of_nat n else Z.of_nat n - 1).
Proof.
  intros Hh. induction n as [|n IH].
  - change (Z.of_nat 0) with 0. change (sumBps _) with 0.
    destruct (Z.leb_spec 0 half); lia.
  - rewrite seq_S, !map_app, sumBps_app, IH. cbn [map Nat.add].
    rewrite sumBps_cons, side_bin_weight. change (sumBps []) with 0.
    destruct (Z.leb_spec (Z.of_nat n) half), (Z.leb_spec (Z.of_nat (S n)) half),
             (Z.eqb_spec (Z.of_nat n - half) 0); lia.
Qed.

(** The loop alone hands out [per] to each of the [2 * half] side bins. *)
Lemma loop_weight (per shift half : Z) :
  0 <= half ->
  sumBps (map (side_bin per shift) (loop_ids half)) = 2 * half * per.
Proof.
  intros Hh. unfold loop_ids. rewrite loop_prefix_weight by assumption.
  rewrite Z2Nat.id by lia.
  destruct (Z.leb_spec (2 * half + 1) half); lia.
Qed.

Lemma add_to_center_weight (dx dy : Z) (bins : list Distribution) :
  sumBps (add_to_center dx dy bins)
  = sumBps bins
    + (if existsb (fun b => binRelativeId b =? 0) bins then dx + dy else 0).
Proof.
  induction bins as [|b bins IH]; [reflexivity|].
  cbn [add_to_center existsb].
  destruct (binRelativeId b =? 0); cbn [orb].
  - rewrite !sumBps_cons. cbn. lia.
  - rewrite !sumBps_cons, IH. lia.
Qed.

Lemma loop_has_center (per half : Z) :
  0 <= half ->
  existsb (fun b => binRelativeId b =? 0)
          (map (side_bin per 0) (loop_ids half)) = true.
Proof.
  intros Hh. apply existsb_exists. exists (side_bin per 0 0). split.
  - apply in_map. unfold loop_ids. apply in_map_iff.
    exists (Z.to_nat half). split; [lia|]. apply in_seq. lia.
  - reflexivity.
Qed.

Lemma ToInt32_small (z : Z) : - 2147483648 <= z < 2147483648 -> JS.ToInt32 z = z.
Proof.
  intros H. unfold JS.ToInt32.
  change (2 ^ 31) with 2147483648. change (2 ^ 32) with 4294967296.
  rewrite Z.mod_small by lia. lia.
Qed.

(** What the centred generator hands out, for any effective width. *)
Lemma centered_weight (width : Z) :
  let w := Z.max 1 (JS.ToInt32 width) in
  sumBps (makeCenteredDistribution width)
  = 2 * (w / 2) * (10000 / w) + (10000 - 10000 / w * w).
Proof.
  intros w. unfold makeCenteredDistribution. fold w.
  assert (0 <= w / 2) by (apply Z.div_pos; lia).
  rewrite add_to_center_weight, loop_has_center, loop_weight by assumption.
  lia.
Qed.

Lemma odd_half (w : Z) : Z.odd w = true -> 2 * (w / 2) = w - 1.
Proof.
  intros Ho. rewrite (Zdiv2_odd_eqn w) at 2. rewrite Ho, Z.div2_div. lia.
Qed.

Lemma even_half (w : Z) : Z.even w = true -> 2 * (w / 2) = w.
Proof.
  intros He. rewrite (Zdiv2_odd_eqn w) at 2.
  rewrite <- Z.negb_even, He, Z.div2_div. cbn. lia.
Qed.

(** The side bins of an odd width below 10000 miss one share. *)
Lemma odd_loop_short (w : Z) :
  1 <= w <= 9999 -> Z.odd w = true -> 2 * (w / 2) * (10000 / w) <> 10000.
Proof.
  intros Hw Ho. rewrite (odd_half w Ho).
  assert (Hq : 1 <= 10000 / w) by (apply Z.div_le_lower_bound; lia).
  pose proof (Z.mul_div_le 10000 w ltac:(lia)). nia.
Qed.

(** The bins of the loop shared by the centred generators. *)
Lemma loop_bin (per shift half : Z) (i : nat) (b : Distribution) :
  nth_error (map (side_bin per shift) (loop_ids half)) i = Some b ->
  (i < Z.to_nat (2 * half + 1))%nat /\ b = side_bin per shift (Z.of_nat i - half).
Proof.
  unfold loop_ids. rewrite !nth_error_map, nth_error_seq.
  destruct (Nat.ltb_spec i (Z.to_nat (2 * half + 1))) as [Hlt|_]; [|discriminate].
  cbn. intros Hb. injection Hb as <-. now split.
Qed.

(** [find] stops at the first bin with id 0, and only that bin is
    changed. *)
Lemma add_to_center_first (dx dy : Z) (bins : list Distribution) :
  forall (k : nat) (c : Distribution),
    nth_error bins k = Some c -> binRelativeId c = 0 ->
    (forall j b, (j < k)%nat -> nth_error bins j = Some b -> binRelativeId b <> 0) ->
    nth_error (add_to_center dx dy bins) k
    = Some (mkDistribution (binRelativeId c) (bpsX c + dx) (bpsY c + dy))
    /\ forall i, i <> k ->
         nth_error (add_to_center dx dy bins) i = nth_error bins i.
Proof.
  induction bins as [|b bins IH]; intros k c Hk Hc Hbefore; [destruct k; discriminate|].
  cbn [add_to_center]. destruct k as [|k]; cbn [nth_error] in Hk.
  - injection Hk as ->. rewrite (proj2 (Z.eqb_eq _ _) Hc). split; [reflexivity|].
    intros [|i] Hi; [congruence | reflexivity].
  - destruct (Z.eqb_spec (binRelativeId b) 0) as [Hb|Hb].
    + exfalso. apply (Hbefore 0%nat b); [lia | reflexivity | exact Hb].
    + destruct (IH k c Hk Hc) as [Hat Hother].
      { intros j b' Hj Hb'. apply (Hbefore (S j) b'); [lia | exact Hb']. }
      split; [exact Hat|]. intros [|i] Hi; [reflexivity|]. cbn. apply Hother. lia.
Qed.

(** X2. For an even width the centred generator returns [width + 1] bins;
    the bin in the middle is the centre bin, which holds the remainder
    [rem = 10000 - floor(10000 / width) * width] alone, [floor(rem / 2)]
    of it as base and the rest as quote weight; every other bin holds
    [floor(10000 / width)]; and the distribution passes
    [validateDistribution]. *)
Lemma centered_even_valid (width : Z) :
  1 <= width < 2147483648 -> Z.even width = true ->
  let bins := makeCenteredDistribution width in
  let per := 10000 / width in
  let rem := 10000 - per * width in
  validateDistribution bins = true
  /\ length bins = Z.to_nat (width + 1)
  /\ nth_error bins (Z.to_nat (width / 2))
     = Some (mkDistribution 0 (rem / 2) (rem - rem / 2))
  /\ forall i b, nth_error bins i = Some b -> i <> Z.to_nat (width / 2) ->
       bpsX b + bpsY b = per.
Proof.
  intros Hw He bins per rem.
  assert (Hhalf : 2 * (width / 2) = width) by now apply even_half.
  assert (Hvalid : validateDistribution bins = true).
  { subst bins. unfold validateDistribution. apply Z.eqb_eq.
    rewrite centered_weight, ToInt32_small by lia.
    rewrite Z.max_r by lia. rewrite Hhalf. lia. }
  split; [exact Hvalid|]. subst bins. unfold makeCenteredDistribution.
  rewrite ToInt32_small by lia. rewrite Z.max_r by lia.
  fold per. fold rem.
  set (loop := map (side_bin per 0) (loop_ids (width / 2))).
  assert (Hc : nth_error loop (Z.to_nat (width / 2)) = Some (side_bin per 0 0)).
  { subst loop. unfold loop_ids. rewrite !nth_error_map, nth_error_seq.
    destruct (Nat.ltb_spec (Z.to_nat (width / 2)) (Z.to_nat (2 * (width / 2) + 1)));
      [|lia].
    cbn. do 2 f_equal. lia. }
  destruct (add_to_center_first (rem / 2) (rem - rem / 2) loop
              (Z.to_nat (width / 2)) (side_bin per 0 0) Hc eq_refl) as [Hat Hother].
  { intros j b Hj Hb. apply loop_bin in Hb. destruct Hb as [_ ->]. cbn. lia. }
  split; [|split].
  - rewrite <- (length_map binRelativeId).
    assert (Hids : forall l, map binRelativeId (add_to_center (rem / 2) (rem - rem / 2) l)
                             = map binRelativeId l).
    { induction l as [|b l IH]; [reflexivity|]. cbn.
      destruct (binRelativeId b =? 0); cbn; [reflexivity | now rewrite IH]. }
    rewrite Hids. subst loop. unfold loop_ids.
    rewrite !length_map, length_seq. f_equal. lia.
  - rewrite Hat. reflexivity.
  - intros i b Hb Hi. rewrite Hother in Hb by exact Hi.
    apply loop_bin in Hb. destruct Hb as [Hlt ->].
    rewrite side_bin_weight.
    destruct (Z.eqb_spec (Z.of_nat i - width / 2) 0); [lia | reflexivity].
Qed.

Lemma centered_odd_weight (width : Z) :
  1 <= width < 2147483648 -> Z.odd width = true ->
  sumBps (makeCenteredDistribution width) = 10000 - 10000 / width.
Proof.
  intros Hw Ho.
  rewrite centered_weight, ToInt32_small by lia.
  rewrite Z.max_r by lia. rewrite (odd_half width Ho). lia.
Qed.

Lemma bump_first_weight (dx dy : Z) (arr : list Distribution) :
  arr <> [] -> sumBps (bump_first dx dy arr) = sumBps arr + dx + dy.
Proof.
  destruct arr as [|b rest]; [congruence|]. intros _.
  cbn [bump_first]. rewrite !sumBps_cons. cbn. lia.
Qed.

Lemma constant_weight (g : nat -> Distribution) (per : Z) (n : nat) :
  (forall i, bpsX (g i) + bpsY (g i) = per) ->
  sumBps (map g (seq 0 n)) = per * Z.of_nat n.
Proof.
  intros Hg. induction n as [|n IH]; [cbn; lia|].
  rewrite seq_S, map_app, sumBps_app, IH. cbn [map Nat.add].
  rewrite sumBps_cons, Hg. change (sumBps []) with 0. lia.
Qed.

(** The bins of [bump_first]: only the first one is changed. *)
Lemma bump_first_nth (dx dy : Z) (arr : list Distribution) (i : nat)
    (b : Distribution) :
  nth_error (bump_first dx dy arr) i = Some b ->
  exists a,
    nth_error arr i = Some a
    /\ bpsX b = bpsX a + (if (i =? 0)%nat then dx else 0)
    /\ bpsY b = bpsY a + (if (i =? 0)%nat then dy else 0).
Proof.
  destruct arr as [|a arr]; [destruct i; discriminate|]. cbn [bump_first].
  destruct i as [|i]; cbn [nth_error Nat.eqb].
  - intros H. injection H as <-. exists a. split; [reflexivity|]. cbn. lia.
  - intros H. exists b. split; [exact H|]. lia.
Qed.

(** X1. For a width from 1 to 2^32 - 1 the single-sided generators hand
    out the whole weight and pass [validateDistribution]: every bin gets
    [floor(10000 / width)], and the first bin gets the remainder
    [10000 - floor(10000 / width) * width] on top of it. *)
Lemma single_sided_valid (width : Z) :
  1 <= width <= 4294967295 ->
  let per := 10000 / width in
  let rem := 10000 - per * width in
  (exists d,
     makeSingleSidedX width = Some d /\ validateDistribution d = true
     /\ nth_error d 0 = Some (mkDistribution (-1) (per + rem) 0)
     /\ forall i b, nth_error d i = Some b -> i <> 0%nat -> bpsX b = per)
  /\ (exists d,
        makeSingleSidedY width = Some d /\ validateDistribution d = true
        /\ nth_error d 0 = Some (mkDistribution 1 0 (per + rem))
        /\ forall i b, nth_error d i = Some b -> i <> 0%nat -> bpsY b = per).
Proof.
  intros Hw per rem. unfold makeSingleSidedX, makeSingleSidedY, Array_from.
  destruct (Z.ltb_spec 4294967295 width) as [?|_]; [lia|].
  assert (Hne : forall g : nat -> Distribution,
             map g (seq 0 (Z.to_nat width)) <> []).
  { intros g. destruct (Z.to_nat width) eqn:E; [lia|]. discriminate. }
  assert (Hfirst : exists n, Z.to_nat width = S n)
    by (destruct (Z.to_nat width) eqn:E; [lia | eauto]).
  destruct Hfirst as [n Hn].
  fold per. fold rem.
  split; eexists; (split; [reflexivity|]); (split; [|split]).
  - unfold validateDistribution. apply Z.eqb_eq.
    rewrite bump_first_weight by apply Hne.
    rewrite (constant_weight _ per) by (intros; cbn; lia).
    rewrite Z2Nat.id by lia. subst rem. lia.
  - rewrite Hn. reflexivity.
  - intros i b Hb Hi. apply bump_first_nth in Hb. destruct Hb as (a & Ha & Hx & _).
    rewrite nth_error_map in Ha.
    destruct (nth_error (seq 0 (Z.to_nat width)) i); [|discriminate].
    injection Ha as <-. rewrite Hx. apply Nat.eqb_neq in Hi. rewrite Hi. cbn. lia.
  - unfold validateDistribution. apply Z.eqb_eq.
    rewrite bump_first_weight by apply Hne.
    rewrite (constant_weight _ per) by (intros; cbn; lia).
    rewrite Z2Nat.id by lia. subst rem. lia.
  - rewrite Hn. reflexivity.
  - intros i b Hb Hi. apply bump_first_nth in Hb. destruct Hb as (a & Ha & _ & Hy).
    rewrite nth_error_map in Ha.
    destruct (nth_error (seq 0 (Z.to_nat width)) i); [|discriminate].
    injection Ha as <-. rewrite Hy. apply Nat.eqb_neq in Hi. rewrite Hi. cbn. lia.
Qed.

(** C1 (the code breaks it). The design promises the total weight 10000
    for every generator and every width from 1 on. For an odd width the
    generators built on the centred loop give out only [width - 1] shares:
    the distribution of the centred, momentum, mean-reversion, conservative
    and aggressive generators fails [validateDistribution] for every odd
    width between 1 and 9999. *)
Theorem odd_width_fails_validation (width signal : Z) :
  1 <= width <= 9999 -> Z.odd width = true ->
  validateDistribution (makeCenteredDistribution width) = false
  /\ validateDistribution (makeMomentumDistribution width signal) = false
  /\ validateDistribution (makeMeanReversionDistribution width signal) = false
  /\ validateDistribution (makeConservativeDistribution width) = false
  /\ validateDistribution (makeAggressiveDistribution width) = false.
Proof.
  intros Hw Ho.
  pose proof (odd_loop_short width Hw Ho) as Hshort.
  assert (Hq : 1 <= 10000 / width) by (apply Z.div_le_lower_bound; lia).
  assert (Hhalf : forall w, 1 <= w -> 0 <= w / 2) by (intros; apply Z.div_pos; lia).
  unfold validateDistribution.
  repeat split; apply Z.eqb_neq.
  - rewrite centered_odd_weight by (assumption || lia). lia.
  - unfold makeMomentumDistribution. rewrite ToInt32_small, Z.max_r by lia.
    rewrite loop_weight by (apply Hhalf; lia). exact Hshort.
  - unfold makeMeanReversionDistribution. rewrite ToInt32_small, Z.max_r by lia.
    rewrite loop_weight by (apply Hhalf; lia). exact Hshort.
  - unfold makeConservativeDistribution.
    rewrite loop_weight by (apply Hhalf; lia).
    destruct (Z.le_gt_cases width 5) as [Hle|Hgt].
    + rewrite Z.min_l, Z.max_r by lia. exact Hshort.
    + rewrite Z.min_r, Z.max_r by lia. discriminate.
  - unfold makeAggressiveDistribution.
    rewrite loop_weight by (apply Hhalf; lia).
    destruct (Z.le_gt_cases width 15) as [Hle|Hgt].
    + rewrite Z.min_l, Z.max_r by lia. exact Hshort.
    + rewrite Z.min_r, Z.max_r by lia. discriminate.
Qed.

Lemma odd_width_fails_validation_at_3 :
  validateDistribution (makeCenteredDistribution 3) = false
  /\ validateDistribution (makeMomentumDistribution 3 1) = false
  /\ validateDistribution (makeMeanReversionDistribution 3 1) = false
  /\ validateDistribution (makeConservativeDistribution 3) = false
  /\ validateDistribution (makeAggressiveDistribution 3) = false.
Proof.
  apply (odd_width_fails_validation 3 1); [lia | reflexivity].
Defined.

Lemma centered_even_valid_at_6 :
  let bins := makeCenteredDistribution 6 in
  validateDistribution bins = true
  /\ length bins = 7%nat
  /\ nth_error bins 3 = Some (mkDistribution 0 2 2)
  /\ forall i b, nth_error bins i = Some b -> i <> 3%nat -> bpsX b + bpsY b = 1666.
Proof.
  apply (centered_even_valid 6); [lia | reflexivity].
Defined.

Lemma single_sided_valid_at_7 :
  (exists d,
     makeSingleSidedX 7 = Some d /\ validateDistribution d = true
     /\ nth_error d 0 = Some (mkDistribution (-1) 1432 0)
     /\ forall i b, nth_error d i = Some b -> i <> 0%nat -> bpsX b = 1428)
  /\ (exists d,
        makeSingleSidedY 7 = Some d /\ validateDistribution d = true
        /\ nth_error d 0 = Some (mkDistribution 1 0 1432)
        /\ forall i b, nth_error d i = Some b -> i <> 0%nat -> bpsY b = 1428).
Proof.
  apply (single_sided_valid 7). lia.
Defined.

End TotalWeight.

(* ================================================================== *)
(** * The simulation run: series lengths and degenerate statistics *)
(* ================================================================== *)

Section SimulationRun.
Import Sim.

Variable Math_pow : JS.number -> JS.number -> JS.number.
Variable Math_random : nat -> JS.number.

Local Open Scope float_scope.

Lemma price_walk_length (n k : nat) (p : JS.number) :
  length (price_walk Math_random n k p) = n.
Proof.
  revert k p. induction n as [|n IH]; intros k p; cbn; [reflexivity|].
  now rewrite IH.
Qed.

(** The span of a run, in days, is its duration. *)
Lemma run_days (now d : Z) :
  (- (- (now - (now - d * JS.msPerDay)) / JS.msPerDay))%Z = d.
Proof.
  replace (- (now - (now - d * JS.msPerDay)))%Z with (- d * JS.msPerDay)%Z by lia.
  rewrite Z.div_mul by discriminate. lia.
Qed.

(** [generatePriceData] yields one price per day of the duration, not one
    more. *)
Lemma generatePriceData_length (now : Z) (params : SimulationParams) :
  (1 <= duration params)%Z ->
  JS.TimeClip (now - duration params * JS.msPerDay) <> None ->
  length (generatePriceData Math_random
            (JS.TimeClip (now - duration params * JS.msPerDay)) (Some now)
            (pair params))
  = Z.to_nat (duration params).
Proof.
  intros Hd Hvalid. unfold generatePriceData, days_between, JS.TimeClip in *.
  destruct (Z.abs _ <=? _)%Z; [|congruence].
  cbn [length]. rewrite price_walk_length, run_days. lia.
Qed.

(** A run shorter than two days has the single price 100. *)
Lemma generatePriceData_short (now : Z) (params : SimulationParams) :
  (duration params < 2)%Z ->
  generatePriceData Math_random
    (JS.TimeClip (now - duration params * JS.msPerDay)) (Some now) (pair params)
  = [100].
Proof.
  intros Hd. unfold generatePriceData, days_between, JS.TimeClip.
  destruct (Z.abs _ <=? _)%Z; [|reflexivity].
  rewrite run_days. replace (Z.to_nat (duration params - 1)) with O by lia.
  reflexivity.
Qed.

(** Each day appends one return and one portfolio value. *)
Lemma day_step_series (params : SimulationParams) (startDate : JS.Date)
    (priceData : list JS.number) (st : LoopState) (i : nat) :
  let st' := day_step params startDate priceData st i in
  cur_portfolioValues st' = cur_portfolioValues st ++ [cur_portfolioValue st']
  /\ length (cur_dailyReturns st') = S (length (cur_dailyReturns st)).
Proof.
  unfold day_step.
  destruct (rebalance (applyStrategy _ _ _ _ _ _)); cbn;
    rewrite length_app; cbn; split; (reflexivity || lia).
Qed.

Lemma day_loop_series (params : SimulationParams) (startDate : JS.Date)
    (priceData : list JS.number) (days : list nat) (st : LoopState) :
  let st' := fold_left (day_step params startDate priceData) days st in
  length (cur_portfolioValues st') = (length (cur_portfolioValues st) + length days)%nat
  /\ length (cur_dailyReturns st') = (length (cur_dailyReturns st) + length days)%nat
  /\ exists tail, cur_portfolioValues st' = cur_portfolioValues st ++ tail.
Proof.
  revert st. induction days as [|i days IH]; intros st; cbn [fold_left length].
  - repeat split; try lia. exists []. now rewrite app_nil_r.
  - destruct (IH (day_step params startDate priceData st i)) as (H1 & H2 & tail & H3).
    destruct (day_step_series params startDate priceData st i) as [H4 H5].
    cbv zeta in *. rewrite H1, H2, H3, H5, H4, length_app. cbn [length].
    repeat split; try lia.
    rewrite <- app_assoc. eexists. reflexivity.
Qed.

(** C3 (the code breaks it). The design gives the series of portfolio
    values [duration + 1] elements. A run over [duration >= 1] days returns
    a series that does start with the initial capital but has [duration]
    elements, and [duration - 1] daily returns: [generatePriceData] stops
    one day short. *)
Theorem portfolioValues_has_duration_elements
    (now : Z) (params : SimulationParams) :
  (1 <= duration params)%Z ->
  JS.TimeClip (now - duration params * JS.msPerDay) <> None ->
  exists r,
    runSimulation Math_pow Math_random now params = inr r
    /\ length (portfolioValues r) = Z.to_nat (duration params)
    /\ nth_error (portfolioValues r) 0 = Some (initialCapital params)
    /\ length (dailyReturns r) = Z.to_nat (duration params - 1).
Proof.
  intros Hd Hvalid. eexists. split; [reflexivity|].
  unfold simulate. cbn [portfolioValues dailyReturns].
  pose proof (generatePriceData_length now params Hd Hvalid) as Hlen.
  set (priceData := generatePriceData _ _ _ _) in *.
  set (start := JS.TimeClip _) in *.
  destruct (day_loop_series params start priceData (seq 1 (length priceData - 1))
              (mkLoop (initialCapital params) 0 [] [initialCapital params] []))
    as (H1 & H2 & tail & H3).
  cbv zeta in *. rewrite H1, H2, H3, length_seq, Hlen. cbn. 
  repeat split; lia.
Qed.

(** X3. The benchmark over [d] days has [d] daily returns and [d + 1]
    portfolio values. *)
Lemma runBenchmark_series (d : Z) :
  (0 <= d < 4294967295)%Z ->
  exists r,
    runBenchmark d = Some r
    /\ length (portfolioValues r) = Z.to_nat (d + 1)
    /\ length (dailyReturns r) = Z.to_nat d.
Proof.
  intros Hd. unfold runBenchmark.
  destruct (Z.ltb_spec d 0); [lia|].
  destruct (Z.ltb_spec 4294967295 (d + 1)); [lia|]. cbn [orb].
  eexists. split; [reflexivity|]. cbn [portfolioValues dailyReturns].
  now rewrite length_map, length_seq, repeat_length.
Qed.

(** C2 (amended). A run with [duration < 2] does not fail: it returns a
    result, whose series of daily returns is empty, whose only portfolio
    value is the initial capital, and which records no rebalance and no
    fee. *)
Theorem short_run_returns_empty_series (now : Z) (params : SimulationParams) :
  (duration params < 2)%Z ->
  exists r,
    runSimulation Math_pow Math_random now params = inr r
    /\ dailyReturns r = []
    /\ portfolioValues r = [initialCapital params]
    /\ rebalanceEvents r = []
    /\ totalFees r = 0.
Proof.
  intros Hd. eexists. split; [reflexivity|].
  rewrite generatePriceData_short by assumption.
  repeat split; reflexivity.
Qed.

Lemma filter_none {A : Type} (p : A -> bool) (l : list A) :
  forallb (fun x => negb (p x)) l = true -> List.filter p l = [].
Proof.
  induction l as [|x l IH]; cbn; [reflexivity|].
  intros [Hx Hl]%andb_true_iff. apply negb_true_iff in Hx.
  rewrite Hx. auto.
Qed.

(** C4 (the code breaks it). Without a negative return the downside
    variance is [0 / 0]; the guard [downsideDeviation === 0] does not hold
    for NaN, and the Sortino ratio comes out NaN, not 0. *)
Theorem sortino_without_losses_is_NaN (returns values : list JS.number) :
  forallb (fun r => negb (PrimFloat.ltb r 0)) returns = true ->
  JS.isNaN (sortinoRatio (calculateAdvancedMetrics Math_pow returns values)) = true.
Proof.
  intros Hpos. unfold calculateAdvancedMetrics. cbn [sortinoRatio].
  rewrite (filter_none _ _ Hpos).
  change (fold_left _ [] 0 / JS.of_nat (length [])) with JS.NaN.
  change (PrimFloat.sqrt JS.NaN) with JS.NaN.
  change (JS.strict_eq JS.NaN 0) with false.
  cbv iota. now rewrite div_NaN_r.
Qed.

End SimulationRun.

(** The benchmark over thirty days. *)
Lemma runBenchmark_of_thirty_days :
  exists r,
    Sim.runBenchmark 30 = Some r
    /\ length (Sim.portfolioValues r) = 31%nat
    /\ length (Sim.dailyReturns r) = 30%nat.
Proof.
  apply (runBenchmark_series 30). lia.
Defined.

(** A thirty-day run started on 2026-11-02. *)
Lemma portfolioValues_of_thirty_days :
  exists r,
    Sim.runSimulation JS.pow_by_mul (Sim.constant_draw 0.5%float) Sim.sample_now
      (Sim.sample_params Sim.passive 30) = inr r
    /\ length (Sim.portfolioValues r) = 30%nat
    /\ nth_error (Sim.portfolioValues r) 0 = Some 10000%float
    /\ length (Sim.dailyReturns r) = 29%nat.
Proof.
  apply (portfolioValues_has_duration_elements JS.pow_by_mul
           (Sim.constant_draw 0.5%float) Sim.sample_now
           (Sim.sample_params Sim.passive 30)).
  - cbn. lia.
  - vm_compute. discriminate.
Defined.

Lemma short_run_of_one_day :
  exists r,
    Sim.runSimulation JS.pow_by_mul (Sim.constant_draw 0.5%float) Sim.sample_now
      (Sim.sample_params Sim.passive 1) = inr r
    /\ Sim.dailyReturns r = []
    /\ Sim.portfolioValues r = [10000%float]
    /\ Sim.rebalanceEvents r = []
    /\ Sim.totalFees r = 0%float.
Proof.
  apply (short_run_returns_empty_series JS.pow_by_mul
           (Sim.constant_draw 0.5%float) Sim.sample_now
           (Sim.sample_params Sim.passive 1)).
  cbn. lia.
Defined.

(** The run of one day returns, and its Sharpe ratio and win rate are
    NaN: no error is raised for the empty series. *)
Lemma one_day_run_returns_NaN :
  exists r,
    Sim.runSimulation JS.pow_by_mul (Sim.constant_draw 0.5%float) Sim.sample_now
      (Sim.sample_params Sim.passive 1) = inr r
    /\ JS.isNaN (Sim.sharpeRatio r) = true
    /\ JS.isNaN (Sim.winRate r) = true
    /\ JS.isNaN (Sim.volatility (Sim.metrics r)) = true.
Proof.
  eexists. split; [reflexivity|]. vm_compute. auto.
Qed.

Lemma sortino_of_two_gains :
  JS.isNaN (Sim.sortinoRatio
              (Sim.calculateAdvancedMetrics JS.pow_by_mul
                 [0.01; 0.02]%float [100; 101; 103.02]%float)) = true.
Proof.
  apply (sortino_without_losses_is_NaN JS.pow_by_mul). reflexivity.
Defined.

(* ================================================================== *)
(** * The passive strategy on a constant price series *)
(* ================================================================== *)

Section PassiveRun.
Import Sim.

Variable Math_pow : JS.number -> JS.number -> JS.number.

Local Open Scope float_scope.

Lemma get_repeat (p : JS.number) (n i : nat) :
  (i < n)%nat -> JS.get (repeat p n) (Z.of_nat i) = p.
Proof.
  intros Hi. unfold JS.get.
  destruct (Z.ltb_spec (Z.of_nat i) 0) as [Hneg|_]; [lia|]. rewrite Nat2Z.id.
  revert i Hi. induction n as [|n IH]; intros i Hi; [lia|].
  destruct i as [|i]; cbn; [reflexivity|]. apply IH. lia.
Qed.

Lemma get_last (l : list JS.number) (x : JS.number) :
  JS.get (l ++ [x]) (Z.of_nat (length (l ++ [x])) - 1) = x.
Proof.
  unfold JS.get. rewrite length_app. cbn [length].
  destruct (Z.ltb_spec (Z.of_nat (length l + 1) - 1) 0); [lia|].
  replace (Z.to_nat (Z.of_nat (length l + 1) - 1)) with (length l) by lia.
  now rewrite nth_middle.
Qed.

(** The relative change between two equal prices is a zero. *)
Lemma constant_price_change (p : JS.number) :
  JS.finite_nonzero p = true -> JS.strict_eq ((p - p) / p) 0 = true.
Proof.
  intros Hp. rewrite sub_self by now apply finite_nonzero_finite.
  now apply zero_div.
Qed.

(** A zero price change leaves the exposure factor at exactly 1. *)
Lemma exposure_of_zero_change (c : JS.number) :
  JS.strict_eq c 0 = true -> 1 + c * 0.8 = 1.
Proof.
  intros [s Hc]%strict_eq_zero.
  assert (c = 0 \/ c = -0) as [-> | ->].
  { destruct s; [right | left]; apply Prim2SF_inj; rewrite Hc; reflexivity. }
  all: reflexivity.
Qed.

Lemma after_days_S (params : SimulationParams) (startDate : JS.Date)
    (priceData : list JS.number) (n : nat) :
  after_days params startDate priceData (S n)
  = day_step params startDate priceData
             (after_days params startDate priceData n) (S n).
Proof.
  unfold after_days. now rewrite seq_S, fold_left_app.
Qed.

(** The value carried by the loop is the last one recorded. *)
Lemma after_days_last (params : SimulationParams) (startDate : JS.Date)
    (priceData : list JS.number) (n : nat) :
  let st := after_days params startDate priceData n in
  JS.get (cur_portfolioValues st)
         (Z.of_nat (length (cur_portfolioValues st)) - 1)
  = cur_portfolioValue st.
Proof.
  destruct n as [|n]; [reflexivity|]. cbv zeta. rewrite after_days_S.
  destruct (day_step_series params startDate priceData
              (after_days params startDate priceData n) (S n)) as [H _].
  cbv zeta in H. rewrite H. apply get_last.
Qed.

(** A day on which the passive strategy rebalances. *)
Lemma passive_rebalance_day (params : SimulationParams) (startDate : JS.Date)
    (priceData : list JS.number) (st : LoopState) (i : nat) :
  strategy params = passive -> (i mod 7 = 0)%nat ->
  cur_rebalanceEvents (day_step params startDate priceData st i)
  = cur_rebalanceEvents st ++
      [mkEvent (day_date startDate i) rebalance_action (cur_portfolioValue st)
               (JS.get priceData (Z.of_nat i)) Weekly_rebalance].
Proof.
  intros Hs Hi. unfold day_step, applyStrategy, applyPassiveStrategy.
  rewrite Hs, Hi. reflexivity.
Qed.

(** A day on which it does not, at a price equal to the day before. *)
Lemma passive_quiet_day (params : SimulationParams) (startDate : JS.Date)
    (priceData : list JS.number) (st : LoopState) (i : nat) (p : JS.number) :
  strategy params = passive -> (i mod 7 <> 0)%nat ->
  JS.get priceData (Z.of_nat i) = p ->
  JS.get priceData (Z.of_nat i - 1) = p ->
  JS.finite_nonzero p = true ->
  let st' := day_step params startDate priceData st i in
  let previous :=
    JS.get (cur_portfolioValues st)
           (Z.of_nat (length (cur_portfolioValues st)) - 1) in
  cur_rebalanceEvents st' = cur_rebalanceEvents st
  /\ cur_portfolioValue st' = cur_portfolioValue st
  /\ cur_dailyReturns st'
     = cur_dailyReturns st ++ [(cur_portfolioValue st - previous) / previous].
Proof.
  intros Hs Hi Hcur Hprev Hp.
  unfold day_step, applyStrategy, applyPassiveStrategy, getLiquidityExposure.
  rewrite Hs, Hcur, Hprev.
  destruct (Nat.eqb_spec (i mod 7) 0) as [?|_]; [contradiction|].
  cbn. rewrite (exposure_of_zero_change _ (constant_price_change p Hp)), mul_one_r.
  auto.
Qed.

Lemma weekly_days_S (n : nat) :
  weekly_days (S n)
  = weekly_days n ++ (if (S n mod 7 =? 0)%nat then [S n] else []).
Proof.
  unfold weekly_days. rewrite seq_S, List.filter_app. cbn [List.filter Nat.add].
  now destruct (S n mod 7 =? 0)%nat.
Qed.

Lemma passive_events (params : SimulationParams) (startDate : JS.Date)
    (p : JS.number) (days n : nat) :
  strategy params = passive -> JS.finite_nonzero p = true -> (n < days)%nat ->
  let st := after_days params startDate (repeat p days) n in
  map timestamp (cur_rebalanceEvents st) = map (day_date startDate) (weekly_days n)
  /\ Forall (fun ev => action ev = rebalance_action /\ reason ev = Weekly_rebalance)
            (cur_rebalanceEvents st).
Proof.
  intros Hs Hp. induction n as [|n IH]; intros Hn; [split; [reflexivity|constructor]|].
  destruct IH as [IH1 IH2]; [lia|]. cbv zeta in *.
  rewrite after_days_S, weekly_days_S.
  destruct (Nat.eqb_spec (S n mod 7) 0) as [Hw|Hw].
  - rewrite passive_rebalance_day by assumption.
    rewrite !map_app, IH1. split; [reflexivity|].
    apply Forall_app. split; [assumption|]. repeat constructor.
  - destruct (passive_quiet_day params startDate (repeat p days)
                (after_days params startDate (repeat p days) n) (S n) p)
      as (He & _); try assumption.
    + apply get_repeat. lia.
    + replace (Z.of_nat (S n) - 1)%Z with (Z.of_nat n) by lia.
      apply get_repeat. lia.
    + cbv zeta in He. rewrite He, app_nil_r. auto.
Qed.

Lemma passive_quiet_returns (params : SimulationParams) (startDate : JS.Date)
    (p : JS.number) (days n : nat) :
  strategy params = passive -> JS.finite_nonzero p = true -> (n < days)%nat ->
  let st := after_days params startDate (repeat p days) n in
  Forall (fun v => JS.finite_nonzero v = true) (cur_portfolioValues st) ->
  forall i, (1 <= i <= n)%nat -> (i mod 7 <> 0)%nat ->
    JS.strict_eq (nth (i - 1) (cur_dailyReturns st) JS.NaN) 0 = true.
Proof.
  intros Hs Hp. induction n as [|n IH]; intros Hn; cbv zeta; [intros; lia|].
  rewrite after_days_S.
  set (st := after_days params startDate (repeat p days) n) in *.
  destruct (day_step_series params startDate (repeat p days) st (S n)) as [Hv Hr].
  destruct (day_loop_series params startDate (repeat p days) (seq 1 n)
              (mkLoop (initialCapital params) 0 [] [initialCapital params] []))
    as (_ & Hlen & _).
  fold (after_days params startDate (repeat p days) n) in Hlen. fold st in Hlen.
  cbv zeta in *. rewrite length_seq in Hlen. cbn [cur_dailyReturns length] in Hlen.
  rewrite Hv. intros [Hall Hnew]%Forall_app i Hi Hq.
  specialize (IH ltac:(lia) Hall).
  destruct (Nat.eq_dec i (S n)) as [->|Hne].
  - destruct (passive_quiet_day params startDate (repeat p days) st (S n) p)
      as (_ & Hval & Hret); try assumption.
    + apply get_repeat. lia.
    + replace (Z.of_nat (S n) - 1)%Z with (Z.of_nat n) by lia.
      apply get_repeat. lia.
    + cbv zeta in Hret. rewrite Hret.
      replace (S n - 1)%nat with (length (cur_dailyReturns st)) by lia.
      rewrite nth_middle.
      pose proof (after_days_last params startDate (repeat p days) n) as Hlast.
      cbv zeta in Hlast. fold st in Hlast. rewrite Hlast.
      assert (Hfin : JS.finite_nonzero (cur_portfolioValue st) = true).
      { rewrite <- Hlast. unfold JS.get.
        destruct (Z.ltb_spec (Z.of_nat (length (cur_portfolioValues st)) - 1) 0).
        - destruct (cur_portfolioValues st) eqn:E; [|cbn in *; lia].
          destruct (day_loop_series params startDate (repeat p days) (seq 1 n)
                      (mkLoop (initialCapital params) 0 [] [initialCapital params] []))
            as (Hl & _).
          fold (after_days params startDate (repeat p days) n) in Hl. fold st in Hl.
          cbv zeta in Hl. rewrite E in Hl. cbn in Hl. lia.
        - rewrite List.Forall_forall in Hall. apply Hall, nth_In. lia. }
      rewrite sub_self by now apply finite_nonzero_finite.
      now apply zero_div.
  - destruct (Nat.eqb_spec (S n mod 7) 0) as [Hw|Hw].
    + assert (Hold : exists x, cur_dailyReturns
                 (day_step params startDate (repeat p days) st (S n))
                 = cur_dailyReturns st ++ [x]).
      { unfold day_step. destruct (rebalance _); cbn; eexists; reflexivity. }
      destruct Hold as [x ->]. rewrite app_nth1 by lia. apply IH; [lia|assumption].
    + destruct (passive_quiet_day params startDate (repeat p days) st (S n) p)
        as (_ & _ & Hret); try assumption.
      * apply get_repeat. lia.
      * replace (Z.of_nat (S n) - 1)%Z with (Z.of_nat n) by lia.
        apply get_repeat. lia.
      * cbv zeta in Hret. rewrite Hret, app_nth1 by lia. apply IH; [lia|assumption].
Qed.

Lemma simulate_series (params : SimulationParams) (startDate : JS.Date)
    (priceData : list JS.number) :
  let st := after_days params startDate priceData (length priceData - 1) in
  rebalanceEvents (simulate Math_pow params startDate priceData)
  = cur_rebalanceEvents st
  /\ dailyReturns (simulate Math_pow params startDate priceData)
     = cur_dailyReturns st
  /\ portfolioValues (simulate Math_pow params startDate priceData)
     = cur_portfolioValues st.
Proof. repeat split; reflexivity. Qed.

Lemma inr_injective {A B : Type} (x y : B) : @inr A B x = inr y -> y = x.
Proof. intros H. now injection H. Qed.

(** C7. In a run of 30 days under the passive strategy whose prices stay
    at one finite, non-zero value, the rebalance events are those of the
    days 7, 14, 21 and 28, each a weekly rebalance, and the return recorded
    for every other day is zero. The portfolio values are taken to be
    finite and non-zero, as they are for any ordinary capital. *)
Theorem passive_run_rebalances_weekly
    (Math_random : nat -> JS.number) (now : Z) (params : SimulationParams)
    (p : JS.number) (r : SimulationResult) :
  duration params = 30%Z ->
  strategy params = passive ->
  generatePriceData Math_random
    (JS.TimeClip (now - duration params * JS.msPerDay)) (Some now) (pair params)
  = repeat p 30 ->
  JS.finite_nonzero p = true ->
  runSimulation Math_pow Math_random now params = inr r ->
  Forall (fun v => JS.finite_nonzero v = true) (portfolioValues r) ->
  map timestamp (rebalanceEvents r)
  = map (day_date (JS.TimeClip (now - duration params * JS.msPerDay)))
        [7; 14; 21; 28]%nat
  /\ Forall (fun ev => action ev = rebalance_action /\ reason ev = Weekly_rebalance)
            (rebalanceEvents r)
  /\ forall i, (1 <= i < 30)%nat -> (i mod 7 <> 0)%nat ->
       JS.strict_eq (nth (i - 1) (dailyReturns r) JS.NaN) 0 = true.
Proof.
  intros Hd Hs Hprices Hp Hrun Hvalues.
  assert (Hr : r = simulate Math_pow params
                 (JS.TimeClip (now - duration params * JS.msPerDay))
                 (repeat p 30)).
  { unfold runSimulation in Hrun. rewrite Hprices in Hrun.
    now apply inr_injective in Hrun. }
  clear Hrun. subst r.
  set (start := JS.TimeClip _) in *.
  destruct (simulate_series params start (repeat p 30)) as (E1 & E2 & E3).
  rewrite E3 in Hvalues. rewrite E1, E2. clear E1 E2 E3.
  rewrite repeat_length in Hvalues |- *.
  change (30 - 1)%nat with 29%nat in Hvalues |- *.
  destruct (passive_events params start p 30 29 Hs Hp) as [He1 He2]; [lia|].
  split; [rewrite He1; reflexivity|].
  split; [exact He2|].
  intros i Hi Hq.
  apply (passive_quiet_returns params start p 30 29 Hs Hp); [lia|exact Hvalues|lia|exact Hq].
Qed.

End PassiveRun.


Lemma forallb_Forall_true {A : Type} (f : A -> bool) (l : list A) :
  forallb f l = true -> Forall (fun x => f x = true) l.
Proof.
  induction l as [|x l IH]; cbn; [constructor|].
  intros [Hx Hl]%andb_true_iff. constructor; auto.
Qed.

(** Draws equal to 0.495 change the price by less than half an ulp of 1,
    so the generated series stays at 100: such a run is one of those the
    theorem speaks of. *)
Lemma passive_run_of_thirty_constant_days :
  let params := Sim.sample_params Sim.passive 30 in
  let start := JS.TimeClip (Sim.sample_now - Sim.duration params * JS.msPerDay) in
  let r := Sim.simulate JS.pow_by_mul params start (repeat 100%float 30) in
  map Sim.timestamp (Sim.rebalanceEvents r)
  = map (Sim.day_date start) [7; 14; 21; 28]%nat
  /\ Forall (fun ev => Sim.action ev = Sim.rebalance_action
                       /\ Sim.reason ev = Sim.Weekly_rebalance)
            (Sim.rebalanceEvents r)
  /\ forall i, (1 <= i < 30)%nat -> (i mod 7 <> 0)%nat ->
       JS.strict_eq (nth (i - 1) (Sim.dailyReturns r) JS.NaN) 0%float = true.
Proof.
  cbv zeta.
  refine (passive_run_rebalances_weekly JS.pow_by_mul
            (Sim.constant_draw 0.495%float) Sim.sample_now
            (Sim.sample_params Sim.passive 30) 100%float _ _ _ _ _ _ _).
  - reflexivity.
  - reflexivity.
  - vm_compute. reflexivity.
  - vm_compute. reflexivity.
  - unfold Sim.runSimulation.
    apply (f_equal (fun prices =>
             inr (Sim.simulate JS.pow_by_mul (Sim.sample_params Sim.passive 30)
                    (JS.TimeClip (Sim.sample_now
                                  - Sim.duration (Sim.sample_params Sim.passive 30)
                                    * JS.msPerDay)) prices))).
    vm_compute. reflexivity.
  - apply forallb_Forall_true. vm_compute. reflexivity.
Defined.

(* ================================================================== *)
(** * Ranking the strategies *)
(* ================================================================== *)

Section Ranking.
Import Sim.

Local Open Scope float_scope.

Lemma ltb_false_key (x y : JS.number) :
  JS.isNaN x = false -> JS.isNaN y = false ->
  (PrimFloat.ltb x y = false <-> JS.lex_le (JS.key y) (JS.key x)).
Proof.
  intros Hx Hy. pose proof (ltb_key x y Hx Hy) as H.
  destruct (PrimFloat.ltb x y); split; intros H'; try reflexivity; try discriminate.
  - exfalso. eapply lex_lt_irrefl; [apply H; reflexivity | exact H'].
  - destruct (lex_total (JS.key x) (JS.key y)) as [Hlt|Hle]; [|exact Hle].
    apply H in Hlt. discriminate.
Qed.

Lemma lt_strict_weak : strict_weak lt.
Proof.
  unfold lt. repeat split.
  - intros x Hx. apply ltb_false_key; auto. now right.
  - intros x y Hx Hy H. apply ltb_false_key; auto.
    apply (ltb_key x y Hx Hy) in H. now left.
  - intros x y z Hx Hy Hz H1 H2.
    apply (ltb_false_key x y Hx Hy) in H1. apply (ltb_false_key y z Hy Hz) in H2.
    apply ltb_false_key; auto. eapply lex_le_trans; eassumption.
Qed.

Lemma gt_strict_weak : strict_weak gt.
Proof.
  destruct lt_strict_weak as (H1 & H2 & H3). unfold gt, lt in *.
  repeat split; eauto.
Qed.

Lemma lookup_result_In (results : list (string * SimulationResult))
    (k : string) (r : SimulationResult) :
  List.NoDup (map fst results) -> In (k, r) results -> lookup_result results k = Some r.
Proof.
  induction results as [|[k0 r0] results IH]; cbn; [tauto|].
  intros Hnd [Heq|Hin].
  - injection Heq as -> ->. now rewrite String.eqb_refl.
  - apply NoDup_cons_iff in Hnd as [Hnotin Hnd].
    destruct (String.eqb_spec k0 k) as [->|_]; [|auto].
    exfalso. apply Hnotin. apply in_map_iff. now exists (k, r).
Qed.

(** Folding over the keys is folding over the entries. *)
Lemma fold_pick_keep (better : JS.number -> JS.number -> bool)
    (f : SimulationResult -> JS.number)
    (results rest : list (string * SimulationResult))
    (a : string * SimulationResult) :
  List.NoDup (map fst results) ->
  In a results -> (forall b, In b rest -> In b results) ->
  fold_left (pick results better f) (map fst rest) (fst a)
  = fst (fold_left (keep better f) rest a).
Proof.
  intros Hnd. revert a. induction rest as [|b rest IH]; intros a Ha Hrest;
    [reflexivity|].
  cbn [map fold_left].
  assert (Hb : In b results) by (apply Hrest; now left).
  assert (Hstep : pick results better f (fst a) (fst b) = fst (keep better f a b)).
  { unfold pick, keep. destruct a as [ka ra], b as [kb rb]. cbn [fst snd].
    rewrite (lookup_result_In results ka ra Hnd Ha),
            (lookup_result_In results kb rb Hnd Hb).
    now destruct (better (f ra) (f rb)). }
  rewrite Hstep. apply IH.
  - unfold keep. now destruct (better _ _).
  - intros c Hc. apply Hrest. now right.
Qed.

(** The fold keeps the last of the best entries. *)
Lemma fold_keep_last_best (better : JS.number -> JS.number -> bool)
    (f : SimulationResult -> JS.number)
    (rest before after : list (string * SimulationResult))
    (a : string * SimulationResult) :
  strict_weak better ->
  (forall c, In c (before ++ a :: after ++ rest) -> JS.isNaN (f (snd c)) = false) ->
  (forall c, In c (before ++ a :: after) -> better (f (snd c)) (f (snd a)) = false) ->
  (forall c, In c after -> better (f (snd a)) (f (snd c)) = true) ->
  exists before' after',
    before ++ a :: after ++ rest
    = before' ++ fold_left (keep better f) rest a :: after'
    /\ (forall c, In c (before ++ a :: after ++ rest) ->
          better (f (snd c)) (f (snd (fold_left (keep better f) rest a))) = false)
    /\ (forall c, In c after' ->
          better (f (snd (fold_left (keep better f) rest a))) (f (snd c)) = true).
Proof.
  intros (Hirr & Hasym & Hneg).
  revert before after a. induction rest as [|b rest IH];
    intros before after a Hnn Hbest Hlater.
  - exists before, after. cbn [fold_left]. rewrite app_nil_r in *. auto.
  - cbn [fold_left].
    assert (Ha : JS.isNaN (f (snd a)) = false).
    { apply Hnn. apply in_app_iff. right. now left. }
    assert (Hb : JS.isNaN (f (snd b)) = false).
    { apply Hnn. apply in_or_app. right. right. apply in_or_app. right. now left. }
    assert (Hlist : before ++ a :: after ++ b :: rest
                    = before ++ a :: (after ++ [b]) ++ rest).
    { now rewrite <- app_assoc. }
    unfold keep at 2 4 6. destruct (better (f (snd a)) (f (snd b))) eqn:Hcmp.
    + rewrite Hlist in *. apply IH; try assumption.
      * intros c Hc. rewrite app_comm_cons, app_assoc in Hc.
        apply in_app_iff in Hc as [Hc|[<-|[]]]; [now apply Hbest|].
        now apply Hasym.
      * intros c [Hc|[<-|[]]]%in_app_iff; auto.
    + replace (before ++ a :: after ++ b :: rest)
        with ((before ++ a :: after) ++ b :: [] ++ rest) in *
        by (now rewrite <- app_assoc).
      apply IH; try assumption.
      * intros c Hc.
        apply in_app_iff in Hc as [Hc|[<-|[]]]; [|now apply Hirr].
        apply (Hneg _ (f (snd a))); auto.
        apply Hnn. rewrite in_app_iff. now left.
      * intros c [].
Qed.

Lemma compareStrategies_last_best
    (results : list (string * SimulationResult)) :
  results <> [] ->
  List.NoDup (map fst results) ->
  (forall c, In c results ->
     JS.isNaN (totalReturn (snd c)) = false
     /\ JS.isNaN (sharpeRatio (snd c)) = false) ->
  exists c,
    compareStrategies results = Some c
    /\ last_best gt totalReturn results (bestStrategy c)
    /\ last_best lt totalReturn results (worstStrategy c)
    /\ last_best gt sharpeRatio results (riskAdjustedWinner c).
Proof.
  intros Hne Hnd Hnn. destruct results as [|a rest]; [congruence|].
  assert (Hwin : forall better f,
             strict_weak better ->
             (forall c, In c (a :: rest) -> JS.isNaN (f (snd c)) = false) ->
             last_best better f (a :: rest)
               (fold_left (pick (a :: rest) better f) (map fst rest) (fst a))).
  { intros better f Hsw Hf.
    rewrite (fold_pick_keep better f (a :: rest) rest a Hnd);
      [| now left | intros b Hb; now right].
    destruct (fold_keep_last_best better f rest [] [] a Hsw) as (l1 & l2 & E & H1 & H2).
    - exact Hf.
    - intros c [<-|[]]. destruct Hsw as (Hirr & _). apply Hirr, Hf. now left.
    - intros c [].
    - cbn [app] in *. exists l1, (snd (fold_left (keep better f) rest a)), l2.
      rewrite <- surjective_pairing. auto. }
  unfold compareStrategies. cbn [map reduce1].
  eexists. split; [reflexivity|]. cbn [bestStrategy worstStrategy riskAdjustedWinner].
  repeat split.
  - apply Hwin; [apply gt_strict_weak | intros c Hc; now apply Hnn].
  - apply Hwin; [apply lt_strict_weak | intros c Hc; now apply Hnn].
  - apply Hwin; [apply gt_strict_weak | intros c Hc; now apply Hnn].
Qed.

(** C5 (amended). Over a non-empty set of results without NaN figures,
    [compareStrategies] names the strategy of highest total return, the one
    of lowest total return and the one of highest Sharpe ratio; among equal
    candidates it names the one that comes last in key order, not the
    first. Over the results A with total return 0.10 and B with 0.25 it
    names B the best and A the worst. *)
Theorem compareStrategies_names_last_best :
  (forall results : list (string * SimulationResult),
     results <> [] ->
     List.NoDup (map fst results) ->
     (forall c, In c results ->
        JS.isNaN (totalReturn (snd c)) = false
        /\ JS.isNaN (sharpeRatio (snd c)) = false) ->
     exists c,
       compareStrategies results = Some c
       /\ last_best gt totalReturn results (bestStrategy c)
       /\ last_best lt totalReturn results (worstStrategy c)
       /\ last_best gt sharpeRatio results (riskAdjustedWinner c))
  /\ (forall sharpeA sharpeB : JS.number,
        exists c,
          compareStrategies [("A", result_with 0.10 sharpeA);
                             ("B", result_with 0.25 sharpeB)] = Some c
          /\ bestStrategy c = "B"
          /\ worstStrategy c = "A").
Proof.
  split; [exact compareStrategies_last_best|].
  intros sharpeA sharpeB. eexists. split; [reflexivity|].
  split; reflexivity.
Qed.

End Ranking.

(** The results of the design's example, with Sharpe ratios 1.2 and 0.9. *)
Lemma compareStrategies_of_A_and_B :
  exists c,
    Sim.compareStrategies
      [("A", Sim.result_with 0.10 1.2); ("B", Sim.result_with 0.25 0.9)]%float
    = Some c
    /\ Sim.last_best Sim.gt Sim.totalReturn
         [("A", Sim.result_with 0.10 1.2); ("B", Sim.result_with 0.25 0.9)]%float
         (Sim.bestStrategy c)
    /\ Sim.last_best Sim.lt Sim.totalReturn
         [("A", Sim.result_with 0.10 1.2); ("B", Sim.result_with 0.25 0.9)]%float
         (Sim.worstStrategy c)
    /\ Sim.last_best Sim.gt Sim.sharpeRatio
         [("A", Sim.result_with 0.10 1.2); ("B", Sim.result_with 0.25 0.9)]%float
         (Sim.riskAdjustedWinner c).
Proof.
  apply (proj1 compareStrategies_names_last_best
           [("A", Sim.result_with 0.10 1.2); ("B", Sim.result_with 0.25 0.9)]%float).
  - discriminate.
  - repeat constructor; cbn; intros H; decompose [or] H; congruence.
  - intros c [<-|[<-|[]]]; split; reflexivity.
Defined.

Lemma compareStrategies_empty : Sim.compareStrategies [] = None.
Proof. reflexivity. Qed.

(** Two candidates with the same total return: the later one is named
    best, not the first. *)
Lemma compareStrategies_tie_names_later :
  Sim.compareStrategies
    [("A", Sim.result_with 0.10 1.0); ("B", Sim.result_with 0.10 1.0)]%float
  = Some (Sim.mkComparison "B" "B" "B").
Proof. reflexivity. Qed.

(* ================================================================== *)
(** * Skewness of a distribution without spread *)
(* ================================================================== *)

Section Skewness.
Import Dist.

Variable Math_pow : JS.number -> JS.number -> JS.number.

Local Open Scope float_scope.

Lemma fold_add_from_NaN {A : Type} (g : A -> JS.number) (l : list A) :
  fold_left (fun sum d => sum + g d) l JS.NaN = JS.NaN.
Proof.
  induction l as [|d l IH]; [reflexivity|].
  cbn [fold_left]. now rewrite add_NaN_l.
Qed.

(** One NaN summand makes the whole sum NaN. *)
Lemma fold_add_NaN_term {A : Type} (g : A -> JS.number) (l : list A)
    (a : JS.number) (d : A) :
  In d l -> g d = JS.NaN -> fold_left (fun sum d => sum + g d) l a = JS.NaN.
Proof.
  revert a. induction l as [|x l IH]; intros a Hin Hd; [destruct Hin|].
  cbn [fold_left]. destruct Hin as [->|Hin].
  - rewrite Hd, add_NaN_r. apply fold_add_from_NaN.
  - now apply IH.
Qed.

Lemma sqrt_zero (x : JS.number) :
  JS.strict_eq x 0 = true -> JS.strict_eq (PrimFloat.sqrt x) 0 = true.
Proof.
  intros [s Hx]%strict_eq_zero. apply strict_eq_zero. exists s.
  rewrite sqrt_spec, Hx. reflexivity.
Qed.

(** The summand of a bin that lies at the mean, when the deviation is
    zero: zero by zero. *)
Lemma skew_term_at_mean (mean stdDev : JS.number) (d : Distribution) :
  Math_pow JS.NaN 3 = JS.NaN ->
  JS.strict_eq (JS.of_Z (binRelativeId d) - mean) 0 = true ->
  JS.strict_eq stdDev 0 = true ->
  skew_term Math_pow mean stdDev d = JS.NaN.
Proof.
  intros Hpow Hd Hs. unfold skew_term.
  now rewrite (div_zero_zero _ _ Hd Hs), Hpow, mul_NaN_l.
Qed.

(** C8 (amended). The skewness of a distribution whose computed variance
    is zero and which has a bin at its computed mean is NaN: that value is
    the signal, no error is raised. The empty distribution has zero
    variance too, and its skewness is the number 0. [Math.pow(NaN, 3)] is
    NaN, as ECMAScript requires. *)
Theorem skewness_of_zero_variance :
  Math_pow JS.NaN 3 = JS.NaN ->
  skewness (getDistributionMetrics Math_pow []) = 0
  /\ forall (distribution : list Distribution) (d : Distribution),
       In d distribution ->
       JS.strict_eq (weighted_variance Math_pow distribution) 0 = true ->
       JS.strict_eq (JS.of_Z (binRelativeId d) - weighted_mean distribution) 0 = true ->
       JS.isNaN (skewness (getDistributionMetrics Math_pow distribution)) = true.
Proof.
  intros Hpow. split; [reflexivity|].
  intros distribution d Hin Hvar Hmean.
  unfold getDistributionMetrics. cbn [skewness].
  rewrite (fold_add_NaN_term _ distribution 0 d Hin); [reflexivity|].
  apply skew_term_at_mean; try assumption.
  unfold weighted_stdDev. now apply sqrt_zero.
Qed.

End Skewness.

(** All the weight in one bin at the centre, on the base side. *)
Lemma skewness_of_single_center_bin :
  Dist.skewness (Dist.getDistributionMetrics JS.pow_by_mul []) = 0%float
  /\ JS.isNaN (Dist.skewness
                 (Dist.getDistributionMetrics JS.pow_by_mul
                    [Dist.mkDistribution 0 10000 0])) = true.
Proof.
  destruct (skewness_of_zero_variance JS.pow_by_mul) as [Hempty Hzero];
    [reflexivity|].
  split; [exact Hempty|].
  apply (Hzero [Dist.mkDistribution 0 10000 0] (Dist.mkDistribution 0 10000 0)).
  - now left.
  - vm_compute. reflexivity.
  - vm_compute. reflexivity.
Defined.

(** The same with the weight on the quote side. *)
Lemma skewness_of_single_quote_bin :
  JS.isNaN (Dist.skewness
              (Dist.getDistributionMetrics JS.pow_by_mul
                 [Dist.mkDistribution 0 0 10000])) = true.
Proof. vm_compute. reflexivity. Qed.

(** The empty distribution has zero variance and the skewness 0. *)
Lemma skewness_of_empty_distribution :
  JS.strict_eq (Dist.weighted_variance JS.pow_by_mul []) 0%float = true
  /\ Dist.skewness (Dist.getDistributionMetrics JS.pow_by_mul []) = 0%float
  /\ JS.isNaN (Dist.skewness (Dist.getDistributionMetrics JS.pow_by_mul []))
     = false.
Proof. vm_compute. auto. Qed.

(* ================================================================== *)
(** * Fill evaluation and stop-loss triggers *)
(* ================================================================== *)

Section Evaluation.
Import Orders.

Local Open Scope float_scope.

(** What [examine] does with a pending order. *)
Lemma examine_pending (env : FillEnv) (orderId : string) (order : LimitOrder)
    (book book' : gmap string (list OrderBookEntry))
    (order' : LimitOrder) (pushed : list LimitOrder) :
  status order = pending ->
  examine env orderId order book = Some (order', book', pushed) ->
  exists currentPrice,
    marketPrice env orderId (pair order) = Some currentPrice
    /\ if has_expired (expiryClock env orderId) order
       then order' = set_status order expired /\ book' = book /\ pushed = []
       else if shouldFill order currentPrice
       then order' = set_filled order (fillClock env orderId) currentPrice
            /\ book' = removeFromOrderBook book order'
            /\ pushed = [order']
       else order' = order /\ book' = book /\ pushed = [].
Proof.
  intros Hp Hex. unfold examine, is_pending in Hex. rewrite Hp in Hex.
  cbn [negb] in Hex.
  destruct (marketPrice env orderId (pair order)) as [currentPrice|]; [|discriminate].
  exists currentPrice. split; [reflexivity|].
  destruct (has_expired _ order); [|destruct (shouldFill order currentPrice)];
    injection Hex as <- <- <-; auto.
Qed.

(** The only iteration that ends a pass is one whose quote is rejected. *)
Lemma examine_rejected (env : FillEnv) (orderId : string) (order : LimitOrder)
    (book : gmap string (list OrderBookEntry)) :
  examine env orderId order book = None
  <-> status order = pending /\ marketPrice env orderId (pair order) = None.
Proof.
  unfold examine, is_pending. destruct (status order); cbn [negb];
    try (split; [discriminate | intros [? _]; discriminate]).
  destruct (marketPrice env orderId (pair order)) as [currentPrice|].
  - split; [|intros [_ ?]; discriminate].
    destruct (has_expired _ _); [discriminate|].
    destruct (shouldFill _ _); discriminate.
  - split; [now split | reflexivity].
Qed.

(** A pass examines, each at its place, the orders that come before the
    first rejected quote. *)
Lemma fills_loop_reaches (env : FillEnv) (todo : list (string * LimitOrder)) :
  forall book todo' book' result,
    fills_loop env todo book = (todo', book', result) ->
    forall i orderId order,
      nth_error todo i = Some (orderId, order) ->
      (forall j id_j o_j, (j <= i)%nat -> nth_error todo j = Some (id_j, o_j) ->
         status o_j = pending -> marketPrice env id_j (pair o_j) <> None) ->
      exists order' before after pushed,
        examine env orderId order before = Some (order', after, pushed)
        /\ nth_error todo' i = Some (orderId, order')
        /\ forall filledOrders, result = Some filledOrders ->
             forall o, In o pushed -> In o filledOrders.
Proof.
  induction todo as [|[id0 o0] todo IH];
    intros book todo' book' result Hloop i orderId order Hnth Hquoted.
  - destruct i; discriminate.
  - cbn [fills_loop] in Hloop.
    destruct (examine env id0 o0 book) as [[[o0' book1] pushed0]|] eqn:Hex.
    2:{ exfalso. apply examine_rejected in Hex. destruct Hex as [Hp Hq].
        apply (Hquoted 0%nat id0 o0); [lia | reflexivity | exact Hp | exact Hq]. }
    destruct (fills_loop env todo book1) as [[rest' book2] r] eqn:Hrest.
    injection Hloop as <- <- <-.
    destruct i as [|i]; cbn [nth_error] in *.
    + injection Hnth as <- <-.
      exists o0', book, book1, pushed0. split; [exact Hex|]. split; [reflexivity|].
      intros f Hf o Ho. destruct r as [f0|]; [|discriminate].
      injection Hf as <-. apply in_or_app. now left.
    + destruct (IH _ _ _ _ Hrest i orderId order Hnth)
        as (order' & before & after & pushed & H1 & H2 & H3).
      { intros j id_j o_j Hj. apply (Hquoted (S j)). lia. }
      exists order', before, after, pushed. split; [exact H1|]. split; [exact H2|].
      intros f Hf o Ho. destruct r as [f0|]; [|discriminate].
      injection Hf as <-. apply in_or_app. right. now apply (H3 f0).
Qed.

(** A rejected quote ends the pass: no result is returned, and the order
    whose quote was rejected and all the orders after it are as they
    were. *)
Lemma fills_loop_cut (env : FillEnv) (todo : list (string * LimitOrder)) :
  forall book todo' book' result,
    fills_loop env todo book = (todo', book', result) ->
    forall j id_j o_j,
      nth_error todo j = Some (id_j, o_j) ->
      status o_j = pending -> marketPrice env id_j (pair o_j) = None ->
      result = None
      /\ forall i, (j <= i)%nat -> nth_error todo' i = nth_error todo i.
Proof.
  induction todo as [|[id0 o0] todo IH];
    intros book todo' book' result Hloop j id_j o_j Hnth Hp Hq.
  - destruct j; discriminate.
  - cbn [fills_loop] in Hloop.
    destruct (examine env id0 o0 book) as [[[o0' book1] pushed0]|] eqn:Hex.
    + destruct (fills_loop env todo book1) as [[rest' book2] r] eqn:Hrest.
      injection Hloop as <- <- <-.
      destruct j as [|j]; cbn [nth_error] in Hnth.
      * injection Hnth as -> ->.
        assert (Hnone : examine env id_j o_j book = None)
          by (apply examine_rejected; now split).
        congruence.
      * destruct (IH _ _ _ _ Hrest j id_j o_j Hnth Hp Hq) as [-> Hsame].
        split; [reflexivity|]. intros [|i] Hi; [lia|]. cbn. apply Hsame. lia.
    + injection Hloop as <- <- <-. split; reflexivity.
Qed.

(** Only filled orders are returned. *)
Lemma fills_loop_returns_filled (env : FillEnv) (todo : list (string * LimitOrder)) :
  forall book todo' book' filledOrders,
    fills_loop env todo book = (todo', book', Some filledOrders) ->
    forall o, In o filledOrders -> status o = filled.
Proof.
  induction todo as [|[id0 o0] todo IH];
    intros book todo' book' filledOrders Hloop o Ho; cbn [fills_loop] in Hloop.
  - injection Hloop as _ _ <-. destruct Ho.
  - destruct (examine env id0 o0 book) as [[[o0' book1] pushed0]|] eqn:Hex;
      [|discriminate].
    destruct (fills_loop env todo book1) as [[rest' book2] [f0|]] eqn:Hrest;
      [|discriminate].
    injection Hloop as _ _ <-. apply in_app_or in Ho. destruct Ho as [Ho|Ho].
    + unfold examine in Hex. destruct (negb (is_pending o0)).
      * injection Hex as _ _ <-. destruct Ho.
      * destruct (marketPrice env id0 (pair o0)) as [currentPrice|]; [|discriminate].
        destruct (has_expired _ _); [injection Hex as _ _ <-; destruct Ho|].
        destruct (shouldFill _ _); [|injection Hex as _ _ <-; destruct Ho].
        injection Hex as _ _ <-. destruct Ho as [<-|[]]. reflexivity.
    + now apply (IH _ _ _ _ Hrest).
Qed.

(** C6. In every pass of [checkOrderFills], a pending order that the pass
    reaches, the quotes of the pending orders up to it not being rejected,
    is treated as follows. If it has an expiry time and the clock is past
    it, it becomes expired and is not filled, whatever the price. Otherwise
    (no expiry time, an invalid one, or one that the clock has not passed)
    a buy order is filled exactly when the current price is at most its
    limit and a sell order exactly when it is at least its limit, so that
    both are filled at a current price equal to the limit; a filled order
    records the current price as its fill price and is returned. A pass
    that returns a result has reached every order. A pass that is ended by
    a rejected quote returns no result and leaves the order of that quote
    and every later order as it was. *)
Theorem checkOrderFills_expiry_then_price
    (env : FillEnv) (s s' : Service) (result : option (list LimitOrder))
    (i : nat) (orderId : string) (order : LimitOrder) :
  checkOrderFills env s = (s', result) ->
  nth_error (orders s) i = Some (orderId, order) ->
  status order = pending ->
  ((forall j id_j o_j, (j <= i)%nat -> nth_error (orders s) j = Some (id_j, o_j) ->
      status o_j = pending -> marketPrice env id_j (pair o_j) <> None) ->
   exists order' currentPrice,
     nth_error (orders s') i = Some (orderId, order')
     /\ marketPrice env orderId (pair order) = Some currentPrice
     /\ (forall e, expiresAt order = Some (Some e) ->
           (e < expiryClock env orderId)%Z ->
           order' = set_status order expired
           /\ status order' = expired
           /\ filledPrice order' = filledPrice order
           /\ filledAt order' = filledAt order
           /\ forall filledOrders, result = Some filledOrders ->
                ~ In order' filledOrders)
     /\ (expiresAt order = None \/ expiresAt order = Some None
         \/ (exists e, expiresAt order = Some (Some e)
                       /\ (expiryClock env orderId <= e)%Z) ->
           (side order = buy ->
              (status order' = filled
               <-> PrimFloat.leb currentPrice (price order) = true))
           /\ (side order = sell ->
                 (status order' = filled
                  <-> PrimFloat.leb (price order) currentPrice = true))
           /\ (JS.strict_eq currentPrice (price order) = true ->
                 status order' = filled)
           /\ (status order' = filled ->
                 filledPrice order' = Some currentPrice
                 /\ filledAmount order' = Some (amount order)
                 /\ forall filledOrders, result = Some filledOrders ->
                      In order' filledOrders)
           /\ (status order' <> filled -> order' = order)))
  /\ (forall filledOrders, result = Some filledOrders ->
        forall j id_j o_j, nth_error (orders s) j = Some (id_j, o_j) ->
          status o_j = pending -> marketPrice env id_j (pair o_j) <> None)
  /\ (forall j id_j o_j, (j <= i)%nat -> nth_error (orders s) j = Some (id_j, o_j) ->
        status o_j = pending -> marketPrice env id_j (pair o_j) = None ->
        result = None /\ nth_error (orders s') i = Some (orderId, order)).
Proof.
  intros Hpass Hnth Hp. unfold checkOrderFills in Hpass.
  destruct (fills_loop env (orders s) (orderBook s))
    as [[orders' book'] result0] eqn:Hloop.
  injection Hpass as <- <-. cbn [orders].
  split; [|split].
  - intros Hquoted.
    destruct (fills_loop_reaches env _ _ _ _ _ Hloop i orderId order Hnth Hquoted)
      as (order' & before & after & pushed & Hex & Hnth' & Hpushed).
    destruct (examine_pending env orderId order before after order' pushed Hp Hex)
      as (currentPrice & Hprice & Hcases).
    exists order', currentPrice.
    split; [assumption|]. split; [assumption|].
    unfold has_expired in Hcases. split.
    + intros e He Hpast. rewrite He in Hcases.
      destruct (Z.ltb_spec e (expiryClock env orderId)); [|lia].
      destruct Hcases as (-> & _ & _). repeat split.
      intros f -> Hin.
      pose proof (fills_loop_returns_filled env _ _ _ _ _ Hloop _ Hin) as Hst.
      discriminate.
    + intros Hlive.
      assert (Hno : match expiresAt order with
                    | Some (Some e) => (e <? expiryClock env orderId)%Z
                    | _ => false
                    end = false).
      { destruct Hlive as [-> | [-> | (e & -> & Hle)]]; try reflexivity.
        destruct (Z.ltb_spec e (expiryClock env orderId)); [lia | reflexivity]. }
      rewrite Hno in Hcases. clear Hno Hlive.
      unfold shouldFill in Hcases.
      assert (Hboundary : JS.strict_eq currentPrice (price order) = true ->
                (match side order with
                 | buy => PrimFloat.leb currentPrice (price order)
                 | sell => PrimFloat.leb (price order) currentPrice
                 end) = true).
      { intros [H1 H2]%strict_eq_leb. now destruct (side order). }
      destruct (match side order with
                | buy => PrimFloat.leb currentPrice (price order)
                | sell => PrimFloat.leb (price order) currentPrice
                end) eqn:Hfill.
      * destruct Hcases as (-> & _ & ->).
        cbn [set_filled status filledPrice filledAmount amount].
        split; [intros Hs; rewrite Hs in Hfill; split; [intros _; exact Hfill | reflexivity]|].
        split; [intros Hs; rewrite Hs in Hfill; split; [intros _; exact Hfill | reflexivity]|].
        split; [reflexivity|].
        split; [|congruence].
        intros _. repeat split. intros f Hf. apply (Hpushed f Hf). now left.
      * destruct Hcases as (-> & _ & _). rewrite Hp.
        split; [intros Hs; rewrite Hs in Hfill; split; [discriminate | congruence]|].
        split; [intros Hs; rewrite Hs in Hfill; split; [discriminate | congruence]|].
        split; [intros Heq; apply Hboundary in Heq; discriminate|].
        split; [discriminate | reflexivity].
  - intros f -> j id_j o_j Hj Hpj Hq.
    destruct (fills_loop_cut env _ _ _ _ _ Hloop j id_j o_j Hj Hpj Hq) as [Hnone _].
    discriminate.
  - intros j id_j o_j Hle Hj Hpj Hq.
    destruct (fills_loop_cut env _ _ _ _ _ Hloop j id_j o_j Hj Hpj Hq) as [Hnone Hsame].
    split; [exact Hnone|]. now rewrite (Hsame i Hle).
Qed.

Lemma triggers_loop_examines (env : TriggerEnv)
    (todo : list (string * StopLossOrder)) :
  forall todo' triggeredOrders,
    triggers_loop env todo = (todo', Some triggeredOrders) ->
    forall i orderId order,
      nth_error todo i = Some (orderId, order) ->
      exists order' pushed,
        examine_stop env orderId order = Some (order', pushed)
        /\ nth_error todo' i = Some (orderId, order').
Proof.
  induction todo as [|[id0 o0] todo IH];
    intros todo' triggeredOrders Hloop i orderId order Hnth.
  - destruct i; discriminate.
  - cbn [triggers_loop] in Hloop.
    destruct (examine_stop env id0 o0) as [[o0' pushed0]|] eqn:Hex; [|discriminate].
    destruct (triggers_loop env todo) as [rest' [triggered'|]] eqn:Hrest;
      cbn [option_map] in Hloop; [|discriminate].
    injection Hloop as <- <-.
    destruct i as [|i]; cbn [nth_error] in *.
    + injection Hnth as <- <-. eauto.
    + eapply IH; eauto.
Qed.

(** C9. The current price that [checkStopLossTriggers] compares with the
    trigger price is the value of the position divided by itself, which is
    1 for every finite non-zero value: an active order whose position is
    found is triggered exactly when its trigger price is at least 1. *)
Theorem checkStopLossTriggers_compares_with_one
    (env : TriggerEnv) (s s' : Service) (triggeredOrders : list StopLossOrder)
    (i : nat) (orderId : string) (order : StopLossOrder)
    (positions : list PositionData) (found : PositionData) :
  checkStopLossTriggers env s = (s', Some triggeredOrders) ->
  nth_error (stopLossOrders s) i = Some (orderId, order) ->
  stop_status order = active ->
  getUserPositions env orderId (position order) = Some positions ->
  find (fun p => String.eqb (pos_position p) (position order)) positions
  = Some found ->
  JS.finite_nonzero (totalValueUSD found) = true ->
  exists order',
    nth_error (stopLossOrders s') i = Some (orderId, order')
    /\ (stop_status order' = triggered
        <-> PrimFloat.leb 1 (triggerPrice order) = true)
    /\ (stop_status order' <> triggered -> order' = order).
Proof.
  intros Hpass Hnth Hact Hpos Hfind Hval. unfold checkStopLossTriggers in Hpass.
  destruct (triggers_loop env (stopLossOrders s)) as [stops' result] eqn:Hloop.
  injection Hpass as <- ->.
  destruct (triggers_loop_examines env _ _ _ Hloop i orderId order Hnth)
    as (order' & pushed & Hex & Hnth').
  exists order'. cbn [stopLossOrders]. split; [assumption|].
  unfold examine_stop, is_active in Hex. rewrite Hact in Hex. cbn [negb] in Hex.
  rewrite Hpos, Hfind, (div_self _ Hval) in Hex.
  destruct (PrimFloat.leb 1 (triggerPrice order)); injection Hex as <- <-.
  - cbn. repeat split; congruence.
  - rewrite Hact. repeat split; congruence.
Qed.

End Evaluation.

(** A pass at the price 100, an hour after [sample_time], over a sell
    order at 90 whose expiry lies before the pass, a buy order at the limit
    100 without expiry, and a sell order at the limit 100 whose expiry is
    the very time of the pass: the first expires although its price is
    met, the other two are filled at 100. When the quote of the first is
    rejected, the pass returns nothing and the order stays pending, past
    its expiry. *)
Lemma expired_order_and_orders_at_the_limit :
  let late :=
    Orders.sample_order "order_1" Orders.sell 90%float
      (Some (Some (Orders.sample_time + 1000)%Z)) in
  let limit := Orders.sample_order "order_2" Orders.buy 100%float None in
  let last_moment :=
    Orders.sample_order "order_3" Orders.sell 100%float
      (Some (Some (Orders.sample_time + 3600000)%Z)) in
  let s := Orders.service_of [late; limit; last_moment] in
  let pass := Orders.checkOrderFills (Orders.sample_env 100%float) s in
  let cut :=
    Orders.checkOrderFills (Orders.sample_env_without "order_1" 100%float) s in
  (nth_error (Orders.orders (fst pass)) 0
   = Some ("order_1", Orders.set_status late Orders.expired)
   /\ forall filledOrders, snd pass = Some filledOrders ->
        ~ In (Orders.set_status late Orders.expired) filledOrders)
  /\ (exists order',
        nth_error (Orders.orders (fst pass)) 1 = Some ("order_2", order')
        /\ Orders.status order' = Orders.filled
        /\ Orders.filledPrice order' = Some 100%float
        /\ forall filledOrders, snd pass = Some filledOrders -> In order' filledOrders)
  /\ (exists order',
        nth_error (Orders.orders (fst pass)) 2 = Some ("order_3", order')
        /\ Orders.status order' = Orders.filled
        /\ Orders.filledPrice order' = Some 100%float)
  /\ snd cut = None
  /\ nth_error (Orders.orders (fst cut)) 0 = Some ("order_1", late).
Proof.
  intros late limit last_moment s pass cut.
  assert (Hquoted : forall i j id_j o_j, (j <= i)%nat ->
            nth_error (Orders.orders s) j = Some (id_j, o_j) ->
            Orders.status o_j = Orders.pending ->
            Orders.marketPrice (Orders.sample_env 100%float) id_j (Orders.pair o_j)
            <> None) by (intros; discriminate).
  split; [|split; [|split]].
  - destruct (checkOrderFills_expiry_then_price (Orders.sample_env 100%float)
                s (fst pass) (snd pass) 0 "order_1" late)
      as (Hreached & _ & _);
      [subst pass; now rewrite <- surjective_pairing | reflexivity | reflexivity |].
    destruct (Hreached (Hquoted 0%nat)) as (order' & currentPrice & Hnth & _ & Hexp & _).
    destruct (Hexp (Orders.sample_time + 1000)%Z eq_refl) as (-> & _ & _ & _ & Hout);
      [vm_compute; reflexivity | split; assumption].
  - destruct (checkOrderFills_expiry_then_price (Orders.sample_env 100%float)
                s (fst pass) (snd pass) 1 "order_2" limit)
      as (Hreached & _ & _);
      [subst pass; now rewrite <- surjective_pairing | reflexivity | reflexivity |].
    destruct (Hreached (Hquoted 1%nat))
      as (order' & currentPrice & Hnth & Hprice & _ & Hlive).
    injection Hprice as <-.
    destruct (Hlive (or_introl eq_refl)) as (_ & _ & Hlimit & Hfilled & _).
    exists order'. split; [exact Hnth|]. split; [now apply Hlimit|].
    destruct (Hfilled (Hlimit eq_refl)) as (Hfp & _ & Hin). split; assumption.
  - destruct (checkOrderFills_expiry_then_price (Orders.sample_env 100%float)
                s (fst pass) (snd pass) 2 "order_3" last_moment)
      as (Hreached & _ & _);
      [subst pass; now rewrite <- surjective_pairing | reflexivity | reflexivity |].
    destruct (Hreached (Hquoted 2%nat))
      as (order' & currentPrice & Hnth & Hprice & _ & Hlive).
    injection Hprice as <-.
    destruct Hlive as (_ & _ & Hlimit & Hfilled & _).
    { right. right. exists (Orders.sample_time + 3600000)%Z.
      split; [reflexivity | vm_compute; discriminate]. }
    exists order'. split; [exact Hnth|]. split; [now apply Hlimit|].
    now destruct (Hfilled (Hlimit eq_refl)) as (Hfp & _ & _).
  - destruct (checkOrderFills_expiry_then_price
                (Orders.sample_env_without "order_1" 100%float)
                s (fst cut) (snd cut) 0 "order_1" late)
      as (_ & _ & Hcut);
      [subst cut; now rewrite <- surjective_pairing | reflexivity | reflexivity |].
    apply (Hcut 0%nat "order_1" late); [lia | reflexivity | reflexivity | reflexivity].
Defined.

(** A stop-loss with trigger price 1.5 on a position worth 1100. *)
Lemma stop_loss_above_one_triggers :
  let env := Orders.sample_trigger_env 1100%float in
  let s := Orders.mkService [] [("order_9", Orders.sample_stop 1.5%float)] ∅ in
  exists order',
    nth_error (Orders.stopLossOrders (fst (Orders.checkStopLossTriggers env s))) 0
    = Some ("order_9", order')
    /\ Orders.stop_status order' = Orders.triggered.
Proof.
  cbv zeta.
  destruct (checkStopLossTriggers_compares_with_one
              (Orders.sample_trigger_env 1100%float)
              (Orders.mkService [] [("order_9", Orders.sample_stop 1.5%float)] ∅)
              (fst (Orders.checkStopLossTriggers (Orders.sample_trigger_env 1100%float)
                      (Orders.mkService [] [("order_9", Orders.sample_stop 1.5%float)] ∅)))
              [Orders.set_triggered (Orders.sample_stop 1.5%float)
                 (Orders.sample_time + 3600000)]
              0 "order_9" (Orders.sample_stop 1.5%float)
              [Orders.sample_position 1100%float] (Orders.sample_position 1100%float))
    as (order' & Hnth & Htrig & _).
  - now rewrite (surjective_pairing (Orders.checkStopLossTriggers _ _)).
  - reflexivity.
  - reflexivity.
  - reflexivity.
  - reflexivity.
  - reflexivity.
  - exists order'. split; [assumption|]. now apply Htrig.
Defined.

(* ================================================================== *)
(** * Expired orders and the order book *)
(* ================================================================== *)

Section BookCover.
Import Orders.

Local Open Scope nat_scope.

Lemma Side_eqb_eq (a b : Side) : Side_eqb a b = true <-> a = b.
Proof. destruct a, b; cbn; split; congruence. Qed.

(** Two listings that an entry has in common are listings of each other. *)
Lemma same_listing_shared (a k e : OrderBookEntry) :
  same_listing a e = true -> same_listing k e = true -> same_listing a k = true.
Proof.
  unfold same_listing.
  intros [[Hp Ha]%andb_true_iff Hs]%andb_true_iff
         [[Hp' Ha']%andb_true_iff Hs']%andb_true_iff.
  apply Side_eqb_eq in Hs, Hs'.
  apply andb_true_iff; split; [apply andb_true_iff; split|].
  - eapply strict_eq_trans; [apply strict_eq_sym; exact Hp' | exact Hp].
  - eapply strict_eq_trans; [apply strict_eq_sym; exact Ha' | exact Ha].
  - apply Side_eqb_eq. congruence.
Qed.

Lemma same_listing_sym (a k : OrderBookEntry) :
  same_listing a k = true -> same_listing k a = true.
Proof.
  unfold same_listing.
  intros [[Hp Ha]%andb_true_iff Hs]%andb_true_iff. apply Side_eqb_eq in Hs.
  apply andb_true_iff; split; [apply andb_true_iff; split|].
  - now apply strict_eq_sym.
  - now apply strict_eq_sym.
  - apply Side_eqb_eq. congruence.
Qed.

(** Taking out one entry lowers a count by at most one. *)
Lemma remove_first_count {A : Type} (p q : A -> bool) (l : list A) :
  length (List.filter q l) <= S (length (List.filter q (remove_first p l))).
Proof.
  induction l as [|x l IH]; cbn; [lia|].
  destruct (p x); cbn; destruct (q x); cbn; lia.
Qed.

(** It does not change the count of the entries it cannot take out. *)
Lemma remove_first_other {A : Type} (p q : A -> bool) (l : list A) :
  (forall x, p x = true -> q x = false) ->
  List.filter q (remove_first p l) = List.filter q l.
Proof.
  intros Hpq. induction l as [|x l IH]; cbn; [reflexivity|].
  destruct (p x) eqn:Hp; cbn.
  - now rewrite (Hpq x Hp).
  - now rewrite IH.
Qed.

Lemma listed_orders_app (pair_ : string) (probe : OrderBookEntry)
    (l1 l2 : list (string * LimitOrder)) :
  listed_orders pair_ probe (l1 ++ l2)
  = listed_orders pair_ probe l1 + listed_orders pair_ probe l2.
Proof.
  unfold listed_orders. now rewrite List.filter_app, length_app.
Qed.

Lemma listed_orders_one (pair_ : string) (probe : OrderBookEntry)
    (orderId : string) (o : LimitOrder) :
  listed_orders pair_ probe [(orderId, o)]
  = if still_listed o && String.eqb (pair o) pair_
       && same_listing (entry_of o) probe
    then 1 else 0.
Proof.
  unfold listed_orders. cbn. now destruct (_ && _ && _).
Qed.

Lemma listed_orders_mid (pair_ : string) (probe : OrderBookEntry)
    (before after : list (string * LimitOrder)) (orderId : string) (o : LimitOrder) :
  listed_orders pair_ probe (before ++ (orderId, o) :: after)
  = listed_orders pair_ probe before
    + listed_orders pair_ probe [(orderId, o)]
    + listed_orders pair_ probe after.
Proof.
  change ((orderId, o) :: after) with ([(orderId, o)] ++ after).
  rewrite !listed_orders_app. lia.
Qed.

(** The entries listed for a pair after [removeFromOrderBook]. *)
Lemma listed_entries_remove (pair_ : string) (probe : OrderBookEntry)
    (book : gmap string (list OrderBookEntry)) (o : LimitOrder) :
  listed_entries pair_ probe (removeFromOrderBook book o)
  = if String.eqb (pair o) pair_
    then length (List.filter (same_listing probe)
                   (remove_first (entry_matches o) (default [] (book !! pair_))))
    else listed_entries pair_ probe book.
Proof.
  unfold listed_entries, removeFromOrderBook.
  destruct (String.eqb_spec (pair o) pair_) as [<-|Hne].
  - destruct (book !! pair o) as [entries|] eqn:E.
    + now rewrite lookup_insert_eq.
    + now rewrite E.
  - destruct (book !! pair o) as [entries|] eqn:E; [|reflexivity].
    now rewrite lookup_insert_ne.
Qed.

(** Taking an order off the list together with its entry keeps the
    cover: this is the step shared by a fill and a cancellation. *)
Lemma unlisting_keeps_cover (orderId : string) (o o' : LimitOrder)
    (before after : list (string * LimitOrder))
    (book : gmap string (list OrderBookEntry)) :
  still_listed o = true -> still_listed o' = false ->
  pair o' = pair o -> entry_of o' = entry_of o ->
  book_covers (before ++ (orderId, o) :: after) book ->
  book_covers (before ++ (orderId, o') :: after) (removeFromOrderBook book o').
Proof.
  intros Hlisted Hgone Hpair Hentry Hcov pair_ probe.
  specialize (Hcov pair_ probe).
  rewrite listed_orders_mid, listed_orders_one in *.
  rewrite listed_entries_remove, Hgone, Hpair. rewrite Hlisted in Hcov.
  cbn [andb] in *.
  destruct (String.eqb (pair o) pair_) eqn:Hp; [|cbn [andb] in Hcov; lia].
  cbn [andb] in Hcov. unfold listed_entries in Hcov.
  assert (Hmatch : forall x, entry_matches o' x = same_listing (entry_of o) x).
  { intros x. rewrite <- Hentry. reflexivity. }
  destruct (same_listing (entry_of o) probe) eqn:Hsame.
  - pose proof (remove_first_count (entry_matches o') (same_listing probe)
                  (default [] (book !! pair_))).
    lia.
  - rewrite remove_first_other; [lia|].
    intros x Hx. rewrite Hmatch in Hx.
    destruct (same_listing probe x) eqn:Hk; [|reflexivity].
    rewrite <- Hsame. symmetry.
    exact (same_listing_shared (entry_of o) probe x Hx Hk).
Qed.

(** One iteration of the loop keeps the book covering the orders. *)
Lemma examine_keeps_cover (env : FillEnv) (orderId : string) (o o' : LimitOrder)
    (before after : list (string * LimitOrder))
    (book book' : gmap string (list OrderBookEntry)) (pushed : list LimitOrder) :
  book_covers (before ++ (orderId, o) :: after) book ->
  examine env orderId o book = Some (o', book', pushed) ->
  book_covers (before ++ (orderId, o') :: after) book'.
Proof.
  intros Hcov Hex. destruct (status o) eqn:Hst.
  2-4: unfold examine, is_pending in Hex; rewrite Hst in Hex;
       injection Hex as <- <- <-; exact Hcov.
  destruct (examine_pending env orderId o book book' o' pushed Hst Hex)
    as (currentPrice & _ & Hcases).
  destruct (has_expired _ o); [|destruct (shouldFill o currentPrice)].
  - destruct Hcases as (-> & -> & _). intros pair_ probe.
    specialize (Hcov pair_ probe).
    rewrite listed_orders_mid, listed_orders_one in *.
    unfold still_listed in *.
    cbn [set_status status pair entry_of price amount binId side] in *.
    rewrite Hst in Hcov. exact Hcov.
  - destruct Hcases as (-> & -> & _).
    apply (unlisting_keeps_cover orderId o); try reflexivity; try assumption.
    unfold still_listed. now rewrite Hst.
  - destruct Hcases as (-> & -> & _). exact Hcov.
Qed.

Lemma fills_loop_keeps_cover (env : FillEnv) (todo : list (string * LimitOrder)) :
  forall before book todo' book' result,
    book_covers (before ++ todo) book ->
    fills_loop env todo book = (todo', book', result) ->
    book_covers (before ++ todo') book'.
Proof.
  induction todo as [|[id0 o0] todo IH];
    intros before book todo' book' result Hcov Hloop; cbn [fills_loop] in Hloop.
  - now injection Hloop as <- <- _.
  - destruct (examine env id0 o0 book) as [[[o0' book1] pushed0]|] eqn:Hex.
    + destruct (fills_loop env todo book1) as [[rest' book2] r] eqn:Hrest.
      injection Hloop as <- <- _.
      pose proof (examine_keeps_cover env id0 o0 o0' before todo book book1
                    pushed0 Hcov Hex) as Hcov1.
      change (before ++ (id0, o0') :: todo)
        with (before ++ [(id0, o0')] ++ todo) in Hcov1.
      rewrite app_assoc in Hcov1.
      specialize (IH _ _ _ _ _ Hcov1 Hrest).
      now rewrite <- app_assoc in IH.
    + now injection Hloop as <- <- _.
Qed.

Lemma filter_nonempty {A : Type} (q : A -> bool) (l : list A) :
  1 <= length (List.filter q l) -> exists x, In x l /\ q x = true.
Proof.
  destruct (List.filter q l) as [|x l'] eqn:E; cbn; [lia|]. intros _.
  assert (Hin : In x (List.filter q l)) by (rewrite E; now left).
  apply List.filter_In in Hin. eauto.
Qed.

(** An order that still has its place in a covering book has an entry. *)
Lemma covered_order_has_entry (os : list (string * LimitOrder))
    (book : gmap string (list OrderBookEntry)) (orderId : string) (o : LimitOrder) :
  book_covers os book -> In (orderId, o) os -> still_listed o = true ->
  JS.isNaN (price o) = false -> JS.isNaN (amount o) = false ->
  exists entries entry,
    book !! pair o = Some entries /\ In entry entries
    /\ entry_matches o entry = true.
Proof.
  intros Hcov Hin Hlisted Hprice Hamount.
  specialize (Hcov (pair o) (entry_of o)).
  apply in_split in Hin as (l1 & l2 & ->).
  rewrite listed_orders_mid, listed_orders_one in Hcov.
  rewrite Hlisted, String.eqb_refl in Hcov.
  assert (Hself : same_listing (entry_of o) (entry_of o) = true).
  { unfold same_listing, entry_of; cbn.
    rewrite !strict_eq_refl by assumption. now destruct (side o). }
  rewrite Hself in Hcov. cbn [andb] in Hcov.
  unfold listed_entries in Hcov.
  destruct (filter_nonempty (same_listing (entry_of o))
              (default [] (book !! pair o))) as (entry & Hentry & Hmatch); [lia|].
  destruct (book !! pair o) as [entries|]; [|destruct Hentry].
  exists entries, entry. auto.
Qed.

(** C10. [checkOrderFills] takes no entry out of the book for an order it
    expires: the iteration that expires an order leaves the book as it
    was. Hence, in a service whose book covers its orders, the book still
    covers them after the pass, and every order that is expired then, with
    a price and an amount that are numbers, still has an entry of its
    price, amount and side in the book of its pair. *)
Theorem expired_order_keeps_its_entry
    (env : FillEnv) (s s' : Service) (result : option (list LimitOrder)) :
  book_covers (orders s) (orderBook s) ->
  checkOrderFills env s = (s', result) ->
  (forall orderId order book order' book' pushed,
     status order = pending ->
     examine env orderId order book = Some (order', book', pushed) ->
     status order' = expired -> book' = book)
  /\ book_covers (orders s') (orderBook s')
  /\ (forall orderId order',
        In (orderId, order') (orders s') ->
        status order' = expired ->
        JS.isNaN (price order') = false -> JS.isNaN (amount order') = false ->
        exists entries entry,
          orderBook s' !! pair order' = Some entries
          /\ In entry entries
          /\ entry_matches order' entry = true).
Proof.
  intros Hcov Hpass. unfold checkOrderFills in Hpass.
  destruct (fills_loop env (orders s) (orderBook s))
    as [[orders' book'] r] eqn:Hloop.
  injection Hpass as <- _. cbn [orders orderBook].
  assert (Hcov' : book_covers orders' book').
  { exact (fills_loop_keeps_cover env (orders s) [] _ _ _ _ Hcov Hloop). }
  split; [|split; [exact Hcov'|]].
  - intros orderId order book order1 book1 pushed Hst Hex Hexp.
    destruct (examine_pending env orderId order book book1 order1 pushed Hst Hex)
      as (currentPrice & _ & Hcases).
    destruct (has_expired _ order); [now destruct Hcases as (_ & -> & _)|].
    destruct (shouldFill order currentPrice).
    + destruct Hcases as (-> & _ & _). discriminate.
    + destruct Hcases as (-> & _ & _). congruence.
  - intros orderId order1 Hin Hexp Hprice Hamount.
    apply (covered_order_has_entry orders' book' orderId order1); try assumption.
    unfold still_listed. now rewrite Hexp.
Qed.

(** ** The cover is what creating and cancelling maintain *)

Lemma book_covers_empty : book_covers [] ∅.
Proof. intros pair_ probe. cbn. lia. Qed.

Lemma filter_length_perm {A : Type} (q : A -> bool) (l1 l2 : list A) :
  Permutation l1 l2 -> length (List.filter q l1) = length (List.filter q l2).
Proof.
  induction 1 as [|x l1 l2 _ IH|x y l|l1 l2 l3 _ IH1 _ IH2]; cbn.
  - reflexivity.
  - destruct (q x); cbn; lia.
  - destruct (q x), (q y); cbn; lia.
  - lia.
Qed.

(** [createLimitOrder] puts the order in [orders] and its entry in the
    book, whatever order the engine's sort leaves the entries in. *)
Lemma book_covers_create
    (Array_sort : (OrderBookEntry -> OrderBookEntry -> JS.number) ->
                  list OrderBookEntry -> list OrderBookEntry)
    (os : list (string * LimitOrder))
    (book : gmap string (list OrderBookEntry)) (orderId : string) (o : LimitOrder) :
  (forall cmp l, Permutation (Array_sort cmp l) l) ->
  book_covers os book ->
  book_covers (os ++ [(orderId, o)]) (addToOrderBook Array_sort book o).
Proof.
  intros Hsort Hcov pair_ probe. specialize (Hcov pair_ probe).
  rewrite listed_orders_app, listed_orders_one.
  unfold listed_entries, addToOrderBook in *.
  destruct (String.eqb_spec (pair o) pair_) as [<-|Hne].
  - rewrite lookup_insert_eq. cbn [default]. unfold Datatypes.id in *.
    rewrite (filter_length_perm _ _ _ (Hsort _ _)), List.filter_app, length_app.
    cbn [List.filter]. rewrite andb_true_r.
    destruct (still_listed o && same_listing (entry_of o) probe) eqn:E.
    + apply andb_true_iff in E as [_ E]. apply same_listing_sym in E.
      rewrite E. cbn [length]. lia.
    + destruct (same_listing probe (entry_of o)); cbn [length]; lia.
  - rewrite lookup_insert_ne by assumption.
    rewrite andb_false_r. cbn [andb]. lia.
Qed.

Lemma Map_get_split {V : Type} (m : list (string * V)) (key : string) (v : V) :
  Map_get m key = Some v ->
  exists before after,
    m = before ++ (key, v) :: after
    /\ forall v', Map_set m key v' = before ++ (key, v') :: after.
Proof.
  induction m as [|[k v0] m IH]; cbn; [discriminate|].
  destruct (String.eqb_spec k key) as [->|Hne]; intros Hget.
  - injection Hget as ->. exists [], m. split; [reflexivity|].
    intros v'. reflexivity.
  - destruct (IH Hget) as (before & after & -> & Hset).
    exists ((k, v0) :: before), after. split; [reflexivity|].
    intros v'. cbn. now rewrite Hset.
Qed.

(** X4. [cancelLimitOrder] takes the order and its entry out together. *)
Lemma book_covers_cancel (s s' : Service) (orderId : string) :
  book_covers (orders s) (orderBook s) ->
  cancelLimitOrder s orderId = inr s' ->
  book_covers (orders s') (orderBook s').
Proof.
  intros Hcov Hcancel. unfold cancelLimitOrder in Hcancel.
  destruct (Map_get (orders s) orderId) as [order|] eqn:Hget; [|discriminate].
  destruct (is_pending order) eqn:Hp; [|discriminate].
  injection Hcancel as <-. cbn [orders orderBook].
  destruct (Map_get_split _ _ _ Hget) as (before & after & Hsplit & Hset).
  rewrite Hset. rewrite Hsplit in Hcov.
  apply (unlisting_keeps_cover orderId order); try reflexivity; try assumption.
  unfold is_pending in Hp. unfold still_listed. now destruct (status order).
Qed.

End BookCover.

(** An order whose expiry lies before the pass. *)
Lemma expired_sample_order_keeps_its_entry :
  let env := Orders.sample_env 150%float in
  let order :=
    Orders.sample_order "order_1" Orders.sell 200%float
      (Some (Some (Orders.sample_time + 1000)%Z)) in
  let s' := fst (Orders.checkOrderFills env (Orders.service_of [order])) in
  exists entries entry,
    Orders.orderBook s' !! "SOL/USDC" = Some entries
    /\ In entry entries
    /\ Orders.entry_matches (Orders.set_status order Orders.expired) entry = true.
Proof.
  cbv zeta.
  destruct (expired_order_keeps_its_entry
              (Orders.sample_env 150%float)
              (Orders.service_of
                 [Orders.sample_order "order_1" Orders.sell 200%float
                    (Some (Some (Orders.sample_time + 1000)%Z))])
              (fst (Orders.checkOrderFills (Orders.sample_env 150%float)
                      (Orders.service_of
                         [Orders.sample_order "order_1" Orders.sell 200%float
                            (Some (Some (Orders.sample_time + 1000)%Z))])))
              (snd (Orders.checkOrderFills (Orders.sample_env 150%float)
                      (Orders.service_of
                         [Orders.sample_order "order_1" Orders.sell 200%float
                            (Some (Some (Orders.sample_time + 1000)%Z))]))))
    as (_ & _ & Hentry).
  - exact (book_covers_create (fun _ l => l) [] ∅ "order_1"
             (Orders.sample_order "order_1" Orders.sell 200%float
                (Some (Some (Orders.sample_time + 1000)%Z)))
             (fun _ l => Permutation_refl l) book_covers_empty).
  - now rewrite <- surjective_pairing.
  - apply (Hentry "order_1"
             (Orders.set_status
                (Orders.sample_order "order_1" Orders.sell 200%float
                   (Some (Some (Orders.sample_time + 1000)%Z)))
                Orders.expired)).
    + vm_compute. now left.
    + reflexivity.
    + reflexivity.
    + reflexivity.
Defined.

(** Cancelling the only order of a service leaves a covered book. *)
Lemma book_covers_cancel_sample_order :
  let order := Orders.sample_order "order_1" Orders.buy 100%float None in
  exists s',
    Orders.cancelLimitOrder (Orders.service_of [order]) "order_1" = inr s'
    /\ Orders.book_covers (Orders.orders s') (Orders.orderBook s').
Proof.
  cbv zeta. eexists. split; [reflexivity|].
  apply (book_covers_cancel
           (Orders.service_of
              [Orders.sample_order "order_1" Orders.buy 100%float None])
           _ "order_1").
  - exact (book_covers_create (fun _ l => l) [] ∅ "order_1"
             (Orders.sample_order "order_1" Orders.buy 100%float None)
             (fun _ l => Permutation_refl l) book_covers_empty).
  - reflexivity.
Defined.

(* ================================================================== *)
(** * Which widths give a full distribution *)
(* ================================================================== *)

Section Widths.
Import Dist.

(** The weight [2 * floor(w / 2) * floor(10000 / w)] of the loop-built
    generators is the whole 10000 exactly for the even divisors of 10000. *)
Lemma loop_total_full (w : Z) :
  1 <= w ->
  (2 * (w / 2) * (10000 / w) = 10000 <-> Z.even w = true /\ 10000 mod w = 0).
Proof.
  intros Hw. split.
  - intros Htotal. destruct (Z.even w) eqn:He.
    + split; [reflexivity|]. rewrite (even_half w He) in Htotal.
      pose proof (Z.div_mod 10000 w ltac:(lia)). lia.
    + exfalso. assert (Ho : Z.odd w = true) by (rewrite <- Z.negb_even, He; reflexivity).
      rewrite (odd_half w Ho) in Htotal.
      pose proof (Z.mul_div_le 10000 w ltac:(lia)).
      assert (0 <= 10000 / w) by (apply Z.div_pos; lia). nia.
  - intros [He Hm]. rewrite (even_half w He).
    pose proof (Z.div_mod 10000 w ltac:(lia)). lia.
Qed.

(** X5. The momentum and the mean-reversion generators return a distribution
    that passes [validateDistribution] exactly when the width is an even
    divisor of 10000, whatever the signal. *)
Theorem shifted_generators_valid_iff (width signal : Z) :
  1 <= width < 2147483648 ->
  (validateDistribution (makeMomentumDistribution width signal) = true
   <-> Z.even width = true /\ 10000 mod width = 0)
  /\ (validateDistribution (makeMeanReversionDistribution width signal) = true
      <-> Z.even width = true /\ 10000 mod width = 0).
Proof.
  intros Hw.
  unfold validateDistribution, makeMomentumDistribution, makeMeanReversionDistribution.
  rewrite ToInt32_small by lia. rewrite Z.max_r by lia.
  rewrite !loop_weight by (apply Z.div_pos; lia).
  rewrite Z.eqb_eq. split; apply loop_total_full; lia.
Qed.

Lemma shifted_generators_valid_at_8 :
  (validateDistribution (makeMomentumDistribution 8 1) = true
   <-> Z.even 8 = true /\ 10000 mod 8 = 0)
  /\ (validateDistribution (makeMeanReversionDistribution 8 1) = true
      <-> Z.even 8 = true /\ 10000 mod 8 = 0).
Proof.
  apply (shifted_generators_valid_iff 8 1). lia.
Defined.

(** X6. [makeConservativeDistribution] clamps the width to 1..5 and
    [makeAggressiveDistribution] to 1..15: the first returns a distribution
    that passes [validateDistribution] only for the widths 2 and 4, the
    second only for 2, 4, 8 and 10. *)
Theorem clamped_generators_valid_iff (width : Z) :
  (validateDistribution (makeConservativeDistribution width) = true
   <-> width = 2 \/ width = 4)
  /\ (validateDistribution (makeAggressiveDistribution width) = true
      <-> width = 2 \/ width = 4 \/ width = 8 \/ width = 10).
Proof.
  unfold validateDistribution, makeConservativeDistribution, makeAggressiveDistribution.
  rewrite !loop_weight by (apply Z.div_pos; lia).
  rewrite !Z.eqb_eq, !loop_total_full by lia. split.
  - assert (Hc : width <= 1 \/ width = 2 \/ width = 3 \/ width = 4 \/ 5 <= width)
      by lia.
    destruct Hc as [H|[->|[->|[->|H]]]].
    + rewrite Z.min_l, Z.max_l by lia. cbn. split; [intros [? _]; discriminate | lia].
    + cbn. split; [tauto | intros _; split; reflexivity].
    + cbn. split; [intros [? _]; discriminate | lia].
    + cbn. split; [tauto | intros _; split; reflexivity].
    + rewrite Z.min_r, Z.max_r by lia. cbn. split; [intros [? _]; discriminate | lia].
  - assert (Hc : width <= 1 \/ 15 <= width \/ (2 <= width <= 14)) by lia.
    destruct Hc as [H|[H|H]].
    + rewrite Z.min_l, Z.max_l by lia. cbn. split; [intros [? _]; discriminate | lia].
    + rewrite Z.min_r, Z.max_r by lia. cbn. split; [intros [? _]; discriminate | lia].
    + rewrite Z.min_l, Z.max_r by lia.
      assert (Hv : width = 2 \/ width = 3 \/ width = 4 \/ width = 5 \/ width = 6
                   \/ width = 7 \/ width = 8 \/ width = 9 \/ width = 10
                   \/ width = 11 \/ width = 12 \/ width = 13 \/ width = 14) by lia.
      destruct Hv as [->|[->|[->|[->|[->|[->|[->|[->|[->|[->|[->|[->| ->]]]]]]]]]]]];
        vm_compute; (split; [intros [He Hm]; first [discriminate | lia]
                            | intros Hd; first [split; reflexivity | lia]]).
Qed.

Lemma clamped_generators_at_4 :
  validateDistribution (makeConservativeDistribution 4) = true
  /\ validateDistribution (makeAggressiveDistribution 4) = true.
Proof.
  split.
  - apply (proj1 (clamped_generators_valid_iff 4)). now right.
  - apply (proj2 (clamped_generators_valid_iff 4)). right. now left.
Defined.

Lemma add_to_center_ids (dx dy : Z) (bins : list Distribution) :
  map binRelativeId (add_to_center dx dy bins) = map binRelativeId bins.
Proof.
  induction bins as [|b bins IH]; [reflexivity|]. cbn.
  destruct (binRelativeId b =? 0); cbn; [reflexivity|]. now rewrite IH.
Qed.

Lemma add_to_center_In (dx dy : Z) (bins : list Distribution) (d : Distribution) :
  In d (add_to_center dx dy bins) -> In d bins \/ binRelativeId d = 0.
Proof.
  induction bins as [|b bins IH]; [intros []|]. cbn.
  destruct (binRelativeId b =? 0) eqn:E; cbn.
  - intros [<-|H]; [right; cbn; now apply Z.eqb_eq | left; now right].
  - intros [<-|H]; [left; now left|]. destruct (IH H); [left; now right | now right].
Qed.

(** X7. [makeCenteredDistribution] returns [2 * floor(w / 2) + 1] bins, which
    is [width + 1] bins for an even width; their ids run from
    [- floor(w / 2)] upwards; a bin below the centre holds no quote weight
    and a bin above it no base weight. *)
Theorem centered_bins (width : Z) :
  1 <= width < 2147483648 ->
  let bins := makeCenteredDistribution width in
  length bins = Z.to_nat (2 * (width / 2) + 1)
  /\ (forall i d, nth_error bins i = Some d ->
        binRelativeId d = Z.of_nat i - width / 2)
  /\ (forall d, In d bins ->
        (binRelativeId d < 0 -> bpsY d = 0)
        /\ (0 < binRelativeId d -> bpsX d = 0)).
Proof.
  intros Hw bins. subst bins. unfold makeCenteredDistribution.
  rewrite ToInt32_small by lia. rewrite Z.max_r by lia.
  set (per := 10000 / width). set (rem := 10000 - per * width).
  split; [|split].
  - rewrite <- (length_map binRelativeId), add_to_center_ids.
    unfold loop_ids. now rewrite !length_map, length_seq.
  - intros i d Hi.
    assert (Hid : nth_error (map binRelativeId
                    (add_to_center (rem / 2) (rem - rem / 2)
                       (map (side_bin per 0) (loop_ids (width / 2))))) i
                  = Some (binRelativeId d)) by (rewrite nth_error_map, Hi; reflexivity).
    rewrite add_to_center_ids in Hid. unfold loop_ids in Hid.
    rewrite !nth_error_map in Hid.
    destruct (nth_error (seq 0 (Z.to_nat (2 * (width / 2) + 1))) i) as [k|] eqn:Hk;
      [|discriminate].
    cbn in Hid. injection Hid as <-.
    assert (Hlt : (i < length (seq 0 (Z.to_nat (2 * (width / 2) + 1))))%nat)
      by (apply nth_error_Some; congruence).
    rewrite length_seq in Hlt.
    rewrite nth_error_seq in Hk.
    destruct (Nat.ltb_spec i (Z.to_nat (2 * (width / 2) + 1))); [|lia].
    injection Hk as <-. lia.
  - intros d Hd. apply add_to_center_In in Hd. destruct Hd as [Hd|Hd]; [|lia].
    apply in_map_iff in Hd. destruct Hd as (i & <- & _). unfold side_bin. cbn.
    split; intros H.
    + destruct (Z.ltb_spec 0 i); [lia | reflexivity].
    + destruct (Z.ltb_spec i 0); [lia | reflexivity].
Qed.

Lemma centered_bins_at_4 :
  let bins := makeCenteredDistribution 4 in
  length bins = 5%nat
  /\ (forall i d, nth_error bins i = Some d -> binRelativeId d = Z.of_nat i - 2)
  /\ (forall d, In d bins ->
        (binRelativeId d < 0 -> bpsY d = 0)
        /\ (0 < binRelativeId d -> bpsX d = 0)).
Proof.
  apply (centered_bins 4). lia.
Defined.

(** X8. Every width from -2^31 up to 1 is treated as the width 1: the result
    is the centre bin alone, with no weight at all. *)
Theorem centered_of_small_width (width : Z) :
  - 2147483648 <= width <= 1 ->
  makeCenteredDistribution width = [mkDistribution 0 0 0].
Proof.
  intros Hw. unfold makeCenteredDistribution.
  rewrite ToInt32_small by lia.
  replace (Z.max 1 width) with 1 by lia. reflexivity.
Qed.

Lemma centered_of_width_0 : makeCenteredDistribution 0 = [mkDistribution 0 0 0].
Proof.
  apply (centered_of_small_width 0). lia.
Defined.

Lemma single_sided_nth (g : Z -> Distribution) (dx dy : Z) (n i : nat)
    (d : Distribution) :
  nth_error (bump_first dx dy (map (fun k => g (Z.of_nat k)) (seq 0 n))) i = Some d ->
  (i < n)%nat
  /\ binRelativeId d = binRelativeId (g (Z.of_nat i))
  /\ (bpsX (g (Z.of_nat i)) = 0 -> dx = 0 -> bpsX d = 0)
  /\ (bpsY (g (Z.of_nat i)) = 0 -> dy = 0 -> bpsY d = 0).
Proof.
  destruct n as [|n]; [destruct i; discriminate|].
  cbn [seq map bump_first]. destruct i as [|i]; cbn [nth_error].
  - intros H. injection H as <-. cbn. repeat split; lia.
  - rewrite nth_error_map. intros H.
    destruct (nth_error (seq 1 n) i) as [k|] eqn:Hk; [|discriminate].
    injection H as <-.
    assert (Hlt : (i < length (seq 1 n))%nat) by (apply nth_error_Some; congruence).
    rewrite length_seq in Hlt. rewrite nth_error_seq in Hk.
    destruct (Nat.ltb_spec i n); [|lia]. injection Hk as <-.
    repeat split; auto; lia.
Qed.

(** X9. The single-sided generators return [width] bins, none for a width of
    0 or below, all on one side of the centre: base weight only, in the
    bins -1, -2, ..., and quote weight only, in the bins 1, 2, ... *)
Theorem single_sided_bins (width : Z) :
  width <= 4294967295 ->
  exists xs ys,
    makeSingleSidedX width = Some xs
    /\ makeSingleSidedY width = Some ys
    /\ length xs = Z.to_nat width
    /\ length ys = Z.to_nat width
    /\ (forall i d, nth_error xs i = Some d ->
          binRelativeId d = - Z.of_nat i - 1 /\ bpsY d = 0)
    /\ (forall i d, nth_error ys i = Some d ->
          binRelativeId d = Z.of_nat i + 1 /\ bpsX d = 0).
Proof.
  intros Hw. unfold makeSingleSidedX, makeSingleSidedY, Array_from.
  destruct (Z.ltb_spec 4294967295 width); [lia|].
  do 2 eexists. split; [reflexivity|]. split; [reflexivity|].
  assert (Hlen : forall g dx dy,
            length (bump_first dx dy
                      (map (fun k => g (Z.of_nat k)) (seq 0 (Z.to_nat width))))
            = Z.to_nat width).
  { intros g dx dy. destruct (Z.to_nat width); [reflexivity|].
    cbn. now rewrite length_map, length_seq. }
  split; [apply (Hlen (fun i => mkDistribution (- i - 1) (10000 / width) 0))|].
  split; [apply (Hlen (fun i => mkDistribution (i + 1) 0 (10000 / width)))|].
  split; intros i d Hi.
  - apply (single_sided_nth (fun i => mkDistribution (- i - 1) (10000 / width) 0))
      in Hi.
    cbn in Hi. destruct Hi as (_ & Hid & _ & Hy). split; [exact Hid | now apply Hy].
  - apply (single_sided_nth (fun i => mkDistribution (i + 1) 0 (10000 / width)))
      in Hi.
    cbn in Hi. destruct Hi as (_ & Hid & Hx & _). split; [exact Hid | now apply Hx].
Qed.

Lemma single_sided_bins_at_3 :
  exists xs ys,
    makeSingleSidedX 3 = Some xs
    /\ makeSingleSidedY 3 = Some ys
    /\ length xs = 3%nat
    /\ length ys = 3%nat
    /\ (forall i d, nth_error xs i = Some d ->
          binRelativeId d = - Z.of_nat i - 1 /\ bpsY d = 0)
    /\ (forall i d, nth_error ys i = Some d ->
          binRelativeId d = Z.of_nat i + 1 /\ bpsX d = 0).
Proof.
  apply (single_sided_bins 3). lia.
Defined.

End Widths.

(* ================================================================== *)
(** * A distribution without weight *)
(* ================================================================== *)

Section Weightless.
Import Dist.

Variable Math_pow : JS.number -> JS.number -> JS.number.

Local Open Scope float_scope.

Lemma sub_NaN_r (x : JS.number) : x - JS.NaN = JS.NaN.
Proof.
  apply Prim2SF_inj. rewrite FloatAxioms.sub_spec.
  change (Prim2SF JS.NaN) with S754_nan.
  destruct (Prim2SF x) as [s|s| |s m e]; reflexivity.
Qed.

Lemma div_NaN_l (x : JS.number) : JS.NaN / x = JS.NaN.
Proof.
  apply Prim2SF_inj. rewrite FloatAxioms.div_spec.
  change (Prim2SF JS.NaN) with S754_nan. reflexivity.
Qed.

Lemma mul_zero_r (x : JS.number) : JS.zero_or_NaN (x * 0).
Proof.
  unfold JS.zero_or_NaN. rewrite isNaN_spec, strict_eq_zero, FloatAxioms.mul_spec.
  change (Prim2SF 0) with (S754_zero false).
  destruct (Prim2SF x) as [s|s| |s m e]; cbn; eauto.
Qed.

Lemma add_zero_or_NaN (x y : JS.number) :
  JS.zero_or_NaN x -> JS.zero_or_NaN y -> JS.zero_or_NaN (x + y).
Proof.
  unfold JS.zero_or_NaN. rewrite !isNaN_spec, !strict_eq_zero, FloatAxioms.add_spec.
  intros [Hx|[sx Hx]] [Hy|[sy Hy]]; rewrite ?Hx, ?Hy.
  - left. reflexivity.
  - left. reflexivity.
  - left. reflexivity.
  - right. destruct sx, sy; cbn; eauto.
Qed.

Lemma div_zero_or_NaN (x y : JS.number) :
  JS.zero_or_NaN x -> JS.strict_eq y 0 = true -> x / y = JS.NaN.
Proof.
  intros [Hx|Hx] Hy.
  - rewrite (isNaN_eq x Hx). apply div_NaN_l.
  - now apply div_zero_zero.
Qed.

Lemma weightless_bin (d : Distribution) :
  bpsX d = 0%Z -> bpsY d = 0%Z -> weight d = 0.
Proof. unfold weight. intros -> ->. reflexivity. Qed.

Lemma weightless_total (distribution : list Distribution) :
  (forall d, In d distribution -> bpsX d = 0%Z /\ bpsY d = 0%Z) ->
  weighted_total distribution = 0.
Proof.
  unfold weighted_total. induction distribution as [|d l IH]; intros H; [reflexivity|].
  cbn [fold_left]. destruct (H d (or_introl eq_refl)) as [-> ->].
  change (0 + JS.of_Z 0 + JS.of_Z 0) with 0. apply IH. intros; apply H; now right.
Qed.

Lemma weightless_moment (distribution : list Distribution) (a : JS.number) :
  (forall d, In d distribution -> bpsX d = 0%Z /\ bpsY d = 0%Z) ->
  JS.zero_or_NaN a ->
  JS.zero_or_NaN (fold_left (fun sum d => sum + JS.of_Z (binRelativeId d) * weight d)
                         distribution a).
Proof.
  revert a. induction distribution as [|d l IH]; intros a H Ha; [exact Ha|].
  cbn [fold_left]. apply IH; [intros; apply H; now right|].
  apply add_zero_or_NaN; [exact Ha|].
  destruct (H d (or_introl eq_refl)) as [Hx Hy].
  rewrite (weightless_bin d Hx Hy). apply mul_zero_r.
Qed.

(** X10. A distribution that is not empty and holds no weight at all has no
    mean, 0 / 0, and its skewness is NaN. *)
Theorem skewness_of_weightless_distribution (distribution : list Distribution) :
  Math_pow JS.NaN 3 = JS.NaN ->
  distribution <> [] ->
  (forall d, In d distribution -> bpsX d = 0%Z /\ bpsY d = 0%Z) ->
  let m := getDistributionMetrics Math_pow distribution in
  totalBps m = 0
  /\ activeBins m = O
  /\ JS.isNaN (weighted_mean distribution) = true
  /\ JS.isNaN (skewness m) = true.
Proof.
  intros Hpow Hne Hzero m. subst m. unfold getDistributionMetrics.
  cbn [totalBps activeBins skewness].
  assert (Hmean : weighted_mean distribution = JS.NaN).
  { unfold weighted_mean. apply div_zero_or_NaN.
    - apply weightless_moment; [exact Hzero|]. right. reflexivity.
    - now rewrite weightless_total. }
  split; [now apply weightless_total|]. split.
  { rewrite filter_none; [reflexivity|].
    apply forallb_forall. intros d Hd. destruct (Hzero d Hd) as [-> ->].
    reflexivity. }
  split; [now rewrite Hmean|].
  destruct distribution as [|d l]; [congruence|].
  rewrite (fold_add_NaN_term _ _ _ d); [reflexivity | now left |].
  unfold skew_term. rewrite Hmean, sub_NaN_r, div_NaN_l, Hpow. apply mul_NaN_l.
Qed.

End Weightless.

(** Three empty bins. *)
Lemma skewness_of_three_empty_bins :
  let distribution :=
    [Dist.mkDistribution (-1) 0 0; Dist.mkDistribution 0 0 0;
     Dist.mkDistribution 1 0 0] in
  let m := Dist.getDistributionMetrics JS.pow_by_mul distribution in
  Dist.totalBps m = 0%float
  /\ Dist.activeBins m = O
  /\ JS.isNaN (Dist.weighted_mean distribution) = true
  /\ JS.isNaN (Dist.skewness m) = true.
Proof.
  apply (skewness_of_weightless_distribution JS.pow_by_mul).
  - reflexivity.
  - discriminate.
  - intros d [<-|[<-|[<-|[]]]]; split; reflexivity.
Defined.

(* ================================================================== *)
(** * What the strategies decide *)
(* ================================================================== *)

Section Decisions.
Import Dist Sim.

Local Open Scope float_scope.

Lemma ltb_NaN_l (x : JS.number) : PrimFloat.ltb JS.NaN x = false.
Proof.
  rewrite FloatAxioms.ltb_spec. change (Prim2SF JS.NaN) with S754_nan. reflexivity.
Qed.

Lemma ltb_NaN_r (x : JS.number) : PrimFloat.ltb x JS.NaN = false.
Proof.
  rewrite FloatAxioms.ltb_spec. change (Prim2SF JS.NaN) with S754_nan.
  unfold SFltb, SFcompare. destruct (Prim2SF x) as [s|s| |s m e]; try reflexivity;
    destruct s; reflexivity.
Qed.

(** A window whose end is not after its start is empty. *)
Lemma slice_wrapped {A : Type} (arr : list A) (start stop : Z) :
  (start < 0)%Z -> (0 <= stop)%Z ->
  (stop <= Z.of_nat (length arr) + start)%Z ->
  JS.slice arr start stop = [].
Proof.
  intros Hs Hstop Hlen. unfold JS.slice.
  destruct (Z.ltb_spec start 0); [|lia]. destruct (Z.ltb_spec stop 0); [lia|].
  replace (Z.to_nat _) with O by lia. reflexivity.
Qed.

(** X11. Whenever a strategy decides to rebalance, it proposes a distribution,
    and that distribution does not pass [validateDistribution]: the widths
    are odd, so one share of [floor(10000 / width)] is never handed out. *)
Theorem rebalance_proposes_short_distribution
    (params : SimulationParams) (currentPrice priceChange portfolioValue : JS.number)
    (dayIndex : nat) (priceData : list JS.number) :
  let decision :=
    applyStrategy params currentPrice priceChange portfolioValue dayIndex priceData in
  rebalance decision = true ->
  exists distribution,
    newDistribution decision = Some distribution
    /\ validateDistribution distribution = false
    /\ (sumBps distribution < 10000)%Z.
Proof.
  intros decision. subst decision.
  assert (Hshort : forall width shift,
            (width = 3 \/ width = 5 \/ width = 7 \/ width = 9)%Z ->
            let d := map (side_bin (10000 / width) shift) (loop_ids (width / 2)) in
            validateDistribution d = false /\ (sumBps d < 10000)%Z).
  { intros width shift Hw d. subst d. unfold validateDistribution.
    rewrite loop_weight by (apply Z.div_pos; lia).
    destruct Hw as [->|[->|[->| ->]]]; split; reflexivity. }
  unfold applyStrategy, applyPassiveStrategy, applyActiveStrategy,
    applyMomentumStrategy, applyMeanReversionStrategy.
  destruct (strategy params).
  - destruct (dayIndex mod 7 =? 0)%nat; [|discriminate]. intros _.
    eexists. split; [reflexivity|]. unfold generateBalancedDistribution.
    destruct (riskTolerance params); apply Hshort; lia.
  - destruct (PrimFloat.ltb _ _); [|discriminate]. intros _.
    eexists. split; [reflexivity|]. unfold generateVolatilityAdjustedDistribution.
    destruct (riskTolerance params); apply Hshort; lia.
  - destruct (dayIndex <? 5)%nat; [discriminate|]. cbv zeta.
    destruct (_ && _); [|discriminate]. intros _.
    eexists. split; [reflexivity|]. unfold generateMomentumDistribution.
    destruct (riskTolerance params); apply Hshort; lia.
  - destruct (dayIndex <? 10)%nat; [discriminate|]. cbv zeta.
    destruct (PrimFloat.ltb _ _); [|discriminate]. intros _.
    eexists. split; [reflexivity|]. unfold generateMeanReversionDistribution.
    destruct (riskTolerance params); apply Hshort; lia.
Qed.

(** The long-term return of the momentum strategy on a day before the
    twentieth, over twenty prices or more. *)
Lemma long_term_return_early (priceData : list JS.number) (dayIndex : nat) :
  (dayIndex < 20)%nat -> (20 <= length priceData)%nat ->
  let longTerm := JS.slice priceData (Z.of_nat dayIndex - 20) (Z.of_nat dayIndex) in
  (JS.get longTerm (Z.of_nat (length longTerm) - 1) - JS.get longTerm 0)
  / JS.get longTerm 0 = JS.NaN.
Proof.
  intros Hday Hlen. cbv zeta.
  rewrite (slice_wrapped priceData (Z.of_nat dayIndex - 20)) by lia.
  change (JS.get [] 0) with JS.NaN. apply div_NaN_r.
Qed.

(** The deviation of the mean-reversion strategy on a day before the
    twentieth, over fifteen prices or more. *)
Lemma deviation_early (priceData : list JS.number) (dayIndex : nat)
    (recentAvg : JS.number) :
  (10 <= dayIndex < 20)%nat -> (15 <= length priceData)%nat ->
  let historical :=
    JS.slice priceData (Z.of_nat dayIndex - 20) (Z.of_nat dayIndex - 5) in
  let historicalAvg := JS.sum historical / JS.of_nat (length historical) in
  PrimFloat.abs ((recentAvg - historicalAvg) / historicalAvg) = JS.NaN.
Proof.
  intros Hday Hlen. cbv zeta.
  rewrite (slice_wrapped priceData (Z.of_nat dayIndex - 20)) by lia.
  change (JS.sum [] / JS.of_nat (length (@nil JS.number))) with JS.NaN.
  now rewrite div_NaN_r.
Qed.

(** X12. On the days before the twentieth, [slice(dayIndex - 20, dayIndex)]
    has a negative start, which counts from the end of the array: over
    twenty prices or more the long-term window is empty, its return is NaN,
    and the momentum strategy does not rebalance. *)
Theorem momentum_waits_twenty_days
    (params : SimulationParams) (priceData : list JS.number) (dayIndex : nat) :
  (dayIndex < 20)%nat -> (20 <= length priceData)%nat ->
  let decision := applyMomentumStrategy params priceData dayIndex in
  rebalance decision = false /\ newDistribution decision = None.
Proof.
  intros Hday Hlen decision. subst decision. unfold applyMomentumStrategy.
  destruct (dayIndex <? 5)%nat; [split; reflexivity|].
  pose proof (long_term_return_early priceData dayIndex Hday Hlen) as Hlong.
  cbv zeta in *. rewrite Hlong, ltb_NaN_l. split; reflexivity.
Qed.

(** X13. Likewise [slice(dayIndex - 20, dayIndex - 5)]: over fifteen prices or
    more the historical window of the days before the twentieth is empty,
    its average is 0 / 0, and the mean-reversion strategy does not
    rebalance. *)
Theorem mean_reversion_waits_twenty_days
    (params : SimulationParams) (priceData : list JS.number) (dayIndex : nat) :
  (dayIndex < 20)%nat -> (15 <= length priceData)%nat ->
  let decision := applyMeanReversionStrategy params priceData dayIndex in
  rebalance decision = false /\ newDistribution decision = None.
Proof.
  intros Hday Hlen decision. subst decision. unfold applyMeanReversionStrategy.
  destruct (Nat.ltb_spec dayIndex 10); [split; reflexivity|].
  pose proof (deviation_early priceData dayIndex) as Hdev.
  cbv zeta in *. rewrite Hdev by lia. rewrite ltb_NaN_r. split; reflexivity.
Qed.

End Decisions.

Lemma passive_rebalance_on_day_7 :
  exists distribution,
    Sim.newDistribution
      (Sim.applyStrategy (Sim.sample_params Sim.passive 30) 100%float 0%float 10000%float 7
                         (repeat 100%float 30))
    = Some distribution
    /\ Dist.validateDistribution distribution = false
    /\ (Dist.sumBps distribution < 10000)%Z.
Proof.
  apply (rebalance_proposes_short_distribution
           (Sim.sample_params Sim.passive 30) 100%float 0%float 10000%float 7
           (repeat 100%float 30)).
  reflexivity.
Defined.

Lemma momentum_on_day_12_of_30 :
  let decision :=
    Sim.applyMomentumStrategy (Sim.sample_params Sim.momentum 30)
      (map (fun i => JS.of_nat (100 + 5 * i)%nat) (seq 0 30)) 12 in
  Sim.rebalance decision = false /\ Sim.newDistribution decision = None.
Proof.
  apply (momentum_waits_twenty_days (Sim.sample_params Sim.momentum 30)
           (map (fun i => JS.of_nat (100 + 5 * i)%nat) (seq 0 30)) 12).
  - lia.
  - vm_compute. lia.
Defined.

Lemma mean_reversion_on_day_12_of_30 :
  let decision :=
    Sim.applyMeanReversionStrategy (Sim.sample_params Sim.mean_reversion 30)
      (map (fun i => JS.of_nat (100 + 5 * i)%nat) (seq 0 30)) 12 in
  Sim.rebalance decision = false /\ Sim.newDistribution decision = None.
Proof.
  apply (mean_reversion_waits_twenty_days (Sim.sample_params Sim.mean_reversion 30)
           (map (fun i => JS.of_nat (100 + 5 * i)%nat) (seq 0 30)) 12).
  - lia.
  - vm_compute. lia.
Defined.

(* ================================================================== *)
(** * The rebalances of a run *)
(* ================================================================== *)

Section Rebalances.
Import Dist Sim.

Variable Math_pow : JS.number -> JS.number -> JS.number.

Local Open Scope float_scope.

(** The price change that [day_step] hands to the strategy on day [i]. *)
Lemma day_step_rebalance (params : SimulationParams) (startDate : JS.Date)
    (priceData : list JS.number) (st : LoopState) (i : nat) :
  let currentPrice := JS.get priceData (Z.of_nat i) in
  let previousPrice := JS.get priceData (Z.of_nat i - 1) in
  let priceChange := (currentPrice - previousPrice) / previousPrice in
  let v := cur_portfolioValue st in
  let decision := applyStrategy params currentPrice priceChange v i priceData in
  let st' := day_step params startDate priceData st i in
  let previous :=
    JS.get (cur_portfolioValues st)
           (Z.of_nat (length (cur_portfolioValues st)) - 1) in
  cur_dailyReturns st'
  = cur_dailyReturns st ++ [(cur_portfolioValue st' - previous) / previous]
  /\ cur_portfolioValues st' = cur_portfolioValues st ++ [cur_portfolioValue st']
  /\ if rebalance decision
     then cur_rebalanceEvents st'
          = cur_rebalanceEvents st
            ++ [mkEvent (day_date startDate i) rebalance_action v currentPrice
                        (decision_reason decision)]
          /\ cur_totalFees st' = cur_totalFees st + v * 0.003
          /\ cur_portfolioValue st' = v - v * 0.003
     else cur_rebalanceEvents st' = cur_rebalanceEvents st
          /\ cur_totalFees st' = cur_totalFees st
          /\ cur_portfolioValue st'
             = v * (1 + priceChange * getLiquidityExposure params).
Proof.
  cbv zeta. unfold day_step.
  destruct (rebalance (applyStrategy params _ _ _ i priceData));
    cbn; repeat split; reflexivity.
Qed.

Lemma fees_of_snoc (events : list RebalanceEvent) (ev : RebalanceEvent) :
  fees_of (events ++ [ev]) = fees_of events + amount ev * 0.003.
Proof. unfold fees_of. now rewrite fold_left_app. Qed.

Lemma nth_error_snoc_old {A : Type} (l : list A) (x : A) (i : nat) :
  (i < length l)%nat -> nth_error (l ++ [x]) i = nth_error l i.
Proof. intros H. now rewrite nth_error_app1. Qed.

Lemma nth_error_snoc_new {A : Type} (l : list A) (x : A) (k : nat) :
  length l = k -> nth_error (l ++ [x]) k = Some x.
Proof. intros <-. rewrite nth_error_app2, Nat.sub_diag by lia. reflexivity. Qed.

Lemma after_days_events (params : SimulationParams) (startDate : JS.Date)
    (priceData : list JS.number) (n : nat) :
  let st := after_days params startDate priceData n in
  cur_totalFees st = fees_of (cur_rebalanceEvents st)
  /\ length (cur_portfolioValues st) = S n
  /\ length (cur_dailyReturns st) = n
  /\ nth_error (cur_portfolioValues st) n = Some (cur_portfolioValue st)
  /\ forall ev, In ev (cur_rebalanceEvents st) ->
       exists i, (1 <= i <= n)%nat
                 /\ recorded_on params startDate priceData
                      (cur_portfolioValues st) (cur_dailyReturns st) ev i.
Proof.
  induction n as [|n IH].
  - cbn. repeat split; intros ev [].
  - cbv zeta in *. rewrite after_days_S.
    set (st := after_days params startDate priceData n) in *.
    destruct IH as (Hfees & Hlen & Hlen' & Hlast & Hev).
    pose proof (day_step_rebalance params startDate priceData st (S n)) as Hstep.
    pose proof (after_days_last params startDate priceData n) as Hprev.
    cbv zeta in Hstep, Hprev. fold st in Hprev. rewrite Hprev in Hstep.
    set (st' := day_step params startDate priceData st (S n)) in *.
    destruct Hstep as (Hret & Hval & Hcase).
    assert (Hold : forall ev i, (1 <= i <= n)%nat ->
              recorded_on params startDate priceData
                (cur_portfolioValues st) (cur_dailyReturns st) ev i ->
              recorded_on params startDate priceData
                (cur_portfolioValues st') (cur_dailyReturns st') ev i).
    { intros ev i Hi (H1 & H2 & H3 & H4 & H5 & H6 & H7).
      unfold recorded_on. rewrite Hval, Hret.
      rewrite !nth_error_snoc_old by lia. repeat split; assumption. }
    split; [|split; [|split; [|split]]].
    + destruct (rebalance _); destruct Hcase as (He & Hf & _); rewrite He, Hf.
      * now rewrite fees_of_snoc, Hfees.
      * exact Hfees.
    + rewrite Hval, length_app, Hlen. cbn. lia.
    + rewrite Hret, length_app, Hlen'. cbn. lia.
    + rewrite Hval. now apply nth_error_snoc_new.
    + intros ev Hin.
      destruct (rebalance _) eqn:Hdec; destruct Hcase as (He & Hf & Hv).
      * rewrite He in Hin. apply in_app_or in Hin. destruct Hin as [Hin|[<-|[]]].
        -- destruct (Hev ev Hin) as (i & Hi & Hrec). exists i. split; [lia|].
           now apply Hold.
        -- exists (S n). split; [lia|]. unfold recorded_on.
           cbn [timestamp action price amount]. rewrite Hval, Hret, Hv.
           replace (S n - 1)%nat with n by lia.
           rewrite (nth_error_snoc_old (cur_portfolioValues st)) by lia.
           rewrite (nth_error_snoc_new (cur_portfolioValues st) _ (S n) Hlen).
           rewrite (nth_error_snoc_new (cur_dailyReturns st) _ n Hlen').
           repeat split; try reflexivity; assumption.
      * rewrite He in Hin. destruct (Hev ev Hin) as (i & Hi & Hrec).
        exists i. split; [lia|]. now apply Hold.
Qed.

(** The events, the fees and the two series of a run are those of the
    day loop over all the prices. *)
Lemma simulate_loop (params : SimulationParams) (startDate : JS.Date)
    (priceData : list JS.number) :
  let st := after_days params startDate priceData (length priceData - 1) in
  let r := simulate Math_pow params startDate priceData in
  rebalanceEvents r = cur_rebalanceEvents st
  /\ totalFees r = cur_totalFees st
  /\ dailyReturns r = cur_dailyReturns st
  /\ portfolioValues r = cur_portfolioValues st.
Proof. repeat split; reflexivity. Qed.

(** X14. The fees that a run reports are 0.3 % of the amount of each of its
    rebalance events, added up in the order of the events; a run without
    an event reports no fees. *)
Theorem totalFees_adds_up
    (Math_random : nat -> JS.number) (now : Z) (params : SimulationParams) :
  exists r,
    runSimulation Math_pow Math_random now params = inr r
    /\ totalFees r = fees_of (rebalanceEvents r)
    /\ (rebalanceEvents r = [] -> totalFees r = 0).
Proof.
  eexists. split; [reflexivity|].
  set (start := JS.TimeClip _).
  set (priceData := generatePriceData _ _ _ _).
  destruct (simulate_loop params start priceData) as (He & Hf & _ & _).
  destruct (after_days_events params start priceData (length priceData - 1))
    as (Hfees & _).
  cbv zeta in *. rewrite He, Hf, Hfees. split; [reflexivity|].
  intros ->. reflexivity.
Qed.

(** X15. Every rebalance event of a run was recorded on one of its days: it
    carries the date and the price of that day, its amount is the
    portfolio value of the day before, and the value of the day is that
    amount less 0.3 %. *)
Theorem rebalance_events_are_recorded
    (Math_random : nat -> JS.number) (now : Z) (params : SimulationParams) :
  let startDate := JS.TimeClip (now - duration params * JS.msPerDay) in
  let priceData :=
    generatePriceData Math_random startDate (Some now) (pair params) in
  exists r,
    runSimulation Math_pow Math_random now params = inr r
    /\ forall ev, In ev (rebalanceEvents r) ->
         exists i, (1 <= i < length priceData)%nat
                   /\ recorded_on params startDate priceData
                        (portfolioValues r) (dailyReturns r) ev i.
Proof.
  intros start priceData. eexists. split; [reflexivity|].
  fold start. fold priceData.
  destruct (simulate_loop params start priceData) as (He & _ & Hr & Hv).
  destruct (after_days_events params start priceData (length priceData - 1))
    as (_ & _ & _ & _ & Hev).
  cbv zeta in *. rewrite He, Hr, Hv. intros ev Hin.
  destruct (Hev ev Hin) as (i & Hi & Hrec). exists i. split; [lia | exact Hrec].
Qed.

(** X16. A momentum or a mean-reversion run of twenty days or more does not
    rebalance before its twentieth day. *)
Theorem trend_runs_wait_twenty_days
    (Math_random : nat -> JS.number) (now : Z) (params : SimulationParams) :
  strategy params = momentum \/ strategy params = mean_reversion ->
  (20 <= duration params)%Z ->
  JS.TimeClip (now - duration params * JS.msPerDay) <> None ->
  exists r,
    runSimulation Math_pow Math_random now params = inr r
    /\ forall ev, In ev (rebalanceEvents r) ->
         exists i, (20 <= i < Z.to_nat (duration params))%nat
                   /\ timestamp ev
                      = day_date (JS.TimeClip (now - duration params * JS.msPerDay)) i.
Proof.
  intros Hs Hd Hvalid. eexists. split; [reflexivity|].
  pose proof (generatePriceData_length Math_random now params ltac:(lia) Hvalid)
    as Hlen.
  set (start := JS.TimeClip _) in *.
  set (priceData := generatePriceData _ _ _ _) in *.
  destruct (simulate_loop params start priceData) as (He & _ & _ & _).
  destruct (after_days_events params start priceData (length priceData - 1))
    as (_ & _ & _ & _ & Hev).
  cbv zeta in *. rewrite He. intros ev Hin.
  destruct (Hev ev Hin) as (i & Hi & Hstamp & _ & _ & _ & _ & _ & Hdec).
  exists i. split; [|exact Hstamp]. split; [|lia].
  destruct (Nat.le_gt_cases 20 i) as [|Hearly]; [assumption|]. exfalso.
  unfold applyStrategy in Hdec. destruct Hs as [Hs|Hs]; rewrite Hs in Hdec.
  - unfold applyMomentumStrategy in Hdec.
    destruct (i <? 5)%nat; [discriminate|].
    pose proof (long_term_return_early priceData i Hearly ltac:(lia)) as Hlong.
    cbv zeta in *. rewrite Hlong, ltb_NaN_l in Hdec. discriminate.
  - unfold applyMeanReversionStrategy in Hdec.
    destruct (Nat.ltb_spec i 10); [discriminate|].
    pose proof (deviation_early priceData i) as Hdev.
    cbv zeta in *. rewrite Hdev in Hdec by lia. rewrite ltb_NaN_r in Hdec.
    discriminate.
Qed.

End Rebalances.

(** The fees of a passive run of thirty days, which rebalances four
    times. *)
Lemma fees_of_a_passive_run :
  exists r,
    Sim.runSimulation JS.pow_by_mul (Sim.constant_draw 0.9%float) Sim.sample_now
      (Sim.sample_params Sim.passive 30) = inr r
    /\ length (Sim.rebalanceEvents r) = 4%nat
    /\ Sim.totalFees r = Sim.fees_of (Sim.rebalanceEvents r).
Proof.
  destruct (totalFees_adds_up JS.pow_by_mul (Sim.constant_draw 0.9%float)
              Sim.sample_now (Sim.sample_params Sim.passive 30))
    as (r & Hrun & Hfees & _).
  exists r. split; [exact Hrun|]. split; [|exact Hfees].
  apply inr_injective in Hrun. subst r. vm_compute. reflexivity.
Defined.

(** The first rebalance of that run, on its seventh day. *)
Lemma first_event_of_a_passive_run :
  let params := Sim.sample_params Sim.passive 30 in
  let startDate := JS.TimeClip (Sim.sample_now - Sim.duration params * JS.msPerDay) in
  let priceData :=
    Sim.generatePriceData (Sim.constant_draw 0.9%float) startDate
      (Some Sim.sample_now) (Sim.pair params) in
  exists r ev i,
    Sim.runSimulation JS.pow_by_mul (Sim.constant_draw 0.9%float) Sim.sample_now
      params = inr r
    /\ hd_error (Sim.rebalanceEvents r) = Some ev
    /\ Sim.timestamp ev = Sim.day_date startDate 7
    /\ (1 <= i < length priceData)%nat
    /\ Sim.recorded_on params startDate priceData
         (Sim.portfolioValues r) (Sim.dailyReturns r) ev i.
Proof.
  intros params startDate priceData.
  destruct (rebalance_events_are_recorded JS.pow_by_mul
              (Sim.constant_draw 0.9%float) Sim.sample_now params)
    as (r & Hrun & Hev).
  destruct (hd_error (Sim.rebalanceEvents r)) as [ev|] eqn:Hhd.
  - assert (Hin : In ev (Sim.rebalanceEvents r)).
    { destruct (Sim.rebalanceEvents r); [discriminate|].
      injection Hhd as ->. now left. }
    destruct (Hev ev Hin) as (i & Hi & Hrec).
    exists r, ev, i. split; [exact Hrun|]. split; [exact Hhd|].
    split; [|split; [exact Hi | exact Hrec]].
    apply inr_injective in Hrun. subst r. vm_compute in Hhd.
    injection Hhd as <-. reflexivity.
  - exfalso. apply inr_injective in Hrun. subst r. vm_compute in Hhd. discriminate.
Defined.

(** A momentum run of thirty days over prices that fall for twenty days
    and rally afterwards: it rebalances five times, on the days 25 to 29. *)
Lemma momentum_run_of_thirty_days :
  exists r,
    Sim.runSimulation JS.pow_by_mul Sim.late_rally Sim.sample_now
      (Sim.sample_params Sim.momentum 30) = inr r
    /\ length (Sim.rebalanceEvents r) = 5%nat
    /\ forall ev, In ev (Sim.rebalanceEvents r) ->
         exists i, (20 <= i < 30)%nat
                   /\ Sim.timestamp ev
                      = Sim.day_date (JS.TimeClip (Sim.sample_now - 30 * JS.msPerDay)) i.
Proof.
  destruct (trend_runs_wait_twenty_days JS.pow_by_mul Sim.late_rally
              Sim.sample_now (Sim.sample_params Sim.momentum 30))
    as (r & Hrun & Hev).
  - now left.
  - cbn. lia.
  - discriminate.
  - exists r. split; [exact Hrun|]. split; [|exact Hev].
    apply inr_injective in Hrun. subst r. vm_compute. reflexivity.
Defined.

(* ================================================================== *)
(** * Passive runs over any prices *)
(* ================================================================== *)

Section PassiveRuns.
Import Dist Sim.

Variable Math_pow : JS.number -> JS.number -> JS.number.

Local Open Scope float_scope.

Lemma weekly_days_length (n : nat) : length (weekly_days n) = (n / 7)%nat.
Proof.
  induction n as [|n IH]; [reflexivity|].
  rewrite weekly_days_S, length_app, IH.
  pose proof (Nat.div_mod_eq n 7) as Hn.
  pose proof (Nat.div_mod_eq (S n) 7) as HS.
  pose proof (Nat.mod_upper_bound n 7 ltac:(lia)) as Bn.
  pose proof (Nat.mod_upper_bound (S n) 7 ltac:(lia)) as BS.
  destruct (Nat.eqb_spec (S n mod 7) 0); cbn [length]; lia.
Qed.

Lemma passive_events_any (params : SimulationParams) (startDate : JS.Date)
    (priceData : list JS.number) (n : nat) :
  strategy params = passive ->
  let st := after_days params startDate priceData n in
  map timestamp (cur_rebalanceEvents st) = map (day_date startDate) (weekly_days n)
  /\ Forall (fun ev => action ev = rebalance_action /\ reason ev = Weekly_rebalance)
            (cur_rebalanceEvents st).
Proof.
  intros Hs. induction n as [|n IH]; [split; [reflexivity | constructor]|].
  cbv zeta in *. rewrite after_days_S, weekly_days_S.
  set (st := after_days params startDate priceData n) in *.
  destruct IH as [Hstamps Hall].
  destruct (day_step_rebalance params startDate priceData st (S n)) as (_ & _ & Hcase).
  cbv zeta in Hcase. unfold applyStrategy in Hcase. rewrite Hs in Hcase.
  unfold applyPassiveStrategy in Hcase.
  destruct (S n mod 7 =? 0)%nat; cbn [rebalance decision_reason] in Hcase;
    destruct Hcase as (He & _); rewrite He.
  - rewrite !map_app, Hstamps. split; [reflexivity|].
    apply Forall_app. split; [exact Hall|]. repeat constructor.
  - rewrite app_nil_r. now split.
Qed.

(** X17. A passive run rebalances on the days divisible by 7 and on no other
    day, whatever its duration and whatever the prices: over [d] days
    that is [floor((d - 1) / 7)] events, each a weekly rebalance. *)
Theorem passive_runs_rebalance_weekly
    (Math_random : nat -> JS.number) (now : Z) (params : SimulationParams) :
  strategy params = passive ->
  (1 <= duration params)%Z ->
  JS.TimeClip (now - duration params * JS.msPerDay) <> None ->
  exists r,
    runSimulation Math_pow Math_random now params = inr r
    /\ map timestamp (rebalanceEvents r)
       = map (day_date (JS.TimeClip (now - duration params * JS.msPerDay)))
             (weekly_days (Z.to_nat (duration params) - 1))
    /\ Forall (fun ev => action ev = rebalance_action /\ reason ev = Weekly_rebalance)
              (rebalanceEvents r)
    /\ length (rebalanceEvents r) = ((Z.to_nat (duration params) - 1) / 7)%nat.
Proof.
  intros Hs Hd Hvalid. eexists. split; [reflexivity|].
  pose proof (generatePriceData_length Math_random now params Hd Hvalid) as Hlen.
  set (start := JS.TimeClip _) in *.
  set (priceData := generatePriceData _ _ _ _) in *.
  destruct (simulate_loop Math_pow params start priceData) as (He & _ & _ & _).
  destruct (passive_events_any params start priceData (length priceData - 1) Hs)
    as [Hstamps Hall].
  cbv zeta in *. rewrite He. rewrite Hlen in *.
  split; [exact Hstamps|]. split; [exact Hall|].
  rewrite <- (length_map timestamp), Hstamps, length_map. apply weekly_days_length.
Qed.

End PassiveRuns.

(** A passive run of sixty days over rising prices. *)
Lemma passive_run_of_sixty_days :
  exists r,
    Sim.runSimulation JS.pow_by_mul (Sim.constant_draw 0.9%float) Sim.sample_now
      (Sim.sample_params Sim.passive 60) = inr r
    /\ map Sim.timestamp (Sim.rebalanceEvents r)
       = map (Sim.day_date (JS.TimeClip (Sim.sample_now - 60 * JS.msPerDay)))
             [7; 14; 21; 28; 35; 42; 49; 56]%nat
    /\ length (Sim.rebalanceEvents r) = 8%nat.
Proof.
  destruct (passive_runs_rebalance_weekly JS.pow_by_mul
              (Sim.constant_draw 0.9%float) Sim.sample_now
              (Sim.sample_params Sim.passive 60))
    as (r & Hrun & Hstamps & _ & Hlen).
  - reflexivity.
  - cbn. lia.
  - discriminate.
  - exists r. split; [exact Hrun|]. split; [exact Hstamps | exact Hlen].
Defined.

(* ================================================================== *)
(** * Drawdown *)
(* ================================================================== *)

Section Drawdown.
Import Sim.

Variable Math_pow : JS.number -> JS.number -> JS.number.

Local Open Scope float_scope.

Lemma finite_nonzero_not_NaN (x : JS.number) :
  JS.finite_nonzero x = true -> JS.isNaN x = false.
Proof.
  intros H. apply isNaN_false. unfold JS.finite_nonzero in H.
  destruct (Prim2SF x); congruence.
Qed.

(** Two finite numbers other than zero that compare equal are the same
    number. *)
Lemma key_injective (x y : JS.number) :
  JS.finite_nonzero x = true -> JS.finite_nonzero y = true ->
  JS.key x = JS.key y -> x = y.
Proof.
  unfold JS.finite_nonzero, JS.key. intros Hx Hy Hk. apply Prim2SF_inj.
  destruct (Prim2SF x) as [| | |sx mx ex]; try discriminate.
  destruct (Prim2SF y) as [| | |sy my ey]; try discriminate.
  destruct sx, sy; cbn in Hk; injection Hk; intros; subst;
    try discriminate; f_equal; lia.
Qed.

Lemma lex_le_antisym (a b : Z * Z * Z) : JS.lex_le a b -> JS.lex_le b a -> a = b.
Proof.
  destruct a as [[a1 a2] a3], b as [[b1 b2] b3]. unfold JS.lex_le, JS.lex_lt.
  intros [H1|H1] [H2|H2]; try congruence. lia.
Qed.

Lemma leb_not_ltb (x y : JS.number) :
  JS.finite_nonzero x = true -> JS.finite_nonzero y = true ->
  PrimFloat.leb x y = true -> PrimFloat.ltb x y = false -> x = y.
Proof.
  intros Hx Hy Hle Hlt. apply key_injective; try assumption.
  pose proof (finite_nonzero_not_NaN x Hx) as Nx.
  pose proof (finite_nonzero_not_NaN y Hy) as Ny.
  apply lex_le_antisym.
  - now apply leb_key.
  - now apply ltb_false_key.
Qed.

Lemma Math_max_zero (y : JS.number) :
  JS.strict_eq y 0 = true -> JS.Math_max 0 y = 0.
Proof.
  intros Hy. unfold JS.Math_max.
  assert (Hn : JS.isNaN y = false) by (apply strict_eq_key in Hy; tauto).
  rewrite Hn. change (JS.isNaN 0) with false. cbn [orb].
  apply strict_eq_zero in Hy. destruct Hy as [s Hy].
  rewrite !FloatAxioms.ltb_spec, Hy. change (Prim2SF 0) with (S754_zero false).
  reflexivity.
Qed.

(** No drawdown at a value that is its own peak. *)
Lemma drawdown_at_peak (v : JS.number) :
  JS.finite_nonzero v = true -> JS.Math_max 0 ((v - v) / v) = 0.
Proof.
  intros Hv. apply Math_max_zero.
  rewrite sub_self by now apply finite_nonzero_finite.
  now apply zero_div.
Qed.

Lemma drawdown_fold (values : list JS.number) (peak : JS.number) :
  JS.finite_nonzero peak = true ->
  forallb JS.finite_nonzero values = true ->
  nondecreasing (peak :: values) = true ->
  fst (fold_left
         (fun (acc : JS.number * JS.number) value =>
            let '(maxDrawdown, peak) := acc in
            let peak := if PrimFloat.ltb peak value then value else peak in
            let drawdown := (peak - value) / peak in
            (JS.Math_max maxDrawdown drawdown, peak))
         values (0, peak)) = 0.
Proof.
  revert peak. induction values as [|v rest IH]; intros peak Hp Hf Hs; [reflexivity|].
  cbn [forallb] in Hf. apply andb_prop in Hf. destruct Hf as [Hv Hf].
  change (nondecreasing (peak :: v :: rest))
    with (PrimFloat.leb peak v && nondecreasing (v :: rest)) in Hs.
  apply andb_prop in Hs. destruct Hs as [Hle Hs].
  cbn [fold_left]. destruct (PrimFloat.ltb peak v) eqn:Hlt.
  - rewrite (drawdown_at_peak v Hv). now apply IH.
  - rewrite <- (leb_not_ltb peak v Hp Hv Hle Hlt) in *.
    rewrite (drawdown_at_peak peak Hp). now apply IH.
Qed.

(** X18. A series of finite values other than zero that never falls has no
    drawdown, and neither has the empty series; the Calmar ratio over such
    a series is then reported as 0, whatever the returns. *)
Theorem maxDrawdown_of_rising_series (values returns : list JS.number) :
  forallb JS.finite_nonzero values = true ->
  nondecreasing values = true ->
  calculateMaxDrawdown values = 0
  /\ calmarRatio (calculateAdvancedMetrics Math_pow returns values) = 0.
Proof.
  intros Hf Hs.
  enough (Hzero : calculateMaxDrawdown values = 0).
  { split; [exact Hzero|]. unfold calculateAdvancedMetrics. cbn [calmarRatio].
    now rewrite Hzero. }
  unfold calculateMaxDrawdown.
  destruct values as [|v rest]; [reflexivity|].
  change (JS.get (v :: rest) 0) with v.
  pose proof Hf as Hv. cbn [forallb] in Hv. apply andb_prop in Hv. destruct Hv as [Hv _].
  apply (drawdown_fold (v :: rest) v Hv Hf).
  change (nondecreasing (v :: v :: rest))
    with (PrimFloat.leb v v && nondecreasing (v :: rest)).
  rewrite Hs, andb_true_r.
  apply strict_eq_leb, strict_eq_refl. now apply finite_nonzero_not_NaN.
Qed.

End Drawdown.

Lemma maxDrawdown_of_four_rising_values :
  Sim.calculateMaxDrawdown [100; 101; 101; 105.5]%float = 0%float
  /\ Sim.calmarRatio
       (Sim.calculateAdvancedMetrics JS.pow_by_mul [0.01; 0; 0.04]%float
          [100; 101; 101; 105.5]%float) = 0%float.
Proof.
  apply (maxDrawdown_of_rising_series JS.pow_by_mul
           [100; 101; 101; 105.5]%float [0.01; 0; 0.04]%float); reflexivity.
Defined.

(* ================================================================== *)
(** * Backtests *)
(* ================================================================== *)

Section Backtests.
Import Sim.

Variable Math_pow : JS.number -> JS.number -> JS.number.
Variable Math_random : nat -> nat -> JS.number.
Variable now : nat -> Z.
Variable RangeError_message : string.
Variable TypeError_message : string.

(** ** The keys of the results *)

Lemma pretty_N_char_digit (x : N) : is_digit (pretty_N_char x) = true.
Proof. unfold pretty_N_char. repeat case_match; reflexivity. Qed.

Lemma pretty_N_go_numeral (x : N) (s : string) :
  numeral s = true -> numeral (pretty_N_go x s) = true.
Proof.
  revert s. induction (N.lt_wf_0 x) as [x _ IH]. intros s Hs.
  destruct (decide (x = 0)%N) as [->|Hx]; [exact Hs|].
  rewrite pretty_N_go_step by lia.
  apply IH; [apply N.div_lt; lia|]. cbn. now rewrite pretty_N_char_digit.
Qed.

Lemma pretty_nat_numeral (i : nat) : numeral (pretty i) = true.
Proof.
  unfold pretty, pretty_nat, pretty, pretty_N. case_decide; [reflexivity|].
  now apply pretty_N_go_numeral.
Qed.

(** A numeral followed by an underscore is read back unambiguously. *)
Lemma numeral_prefix (s1 s2 t1 t2 : string) :
  numeral s1 = true -> numeral s2 = true ->
  s1 +:+ String "_" t1 = s2 +:+ String "_" t2 -> s1 = s2.
Proof.
  revert s2. induction s1 as [|c1 s1 IH]; intros [|c2 s2] H1 H2 Heq; cbn in *.
  - reflexivity.
  - injection Heq as <- _. discriminate.
  - injection Heq as -> _. discriminate.
  - injection Heq as -> Heq. apply andb_prop in H1, H2. f_equal.
    apply IH; tauto.
Qed.

Lemma strategy_key_index (i j : nat) (s t : SimulationParams) :
  strategy_key i s = strategy_key j t -> i = j.
Proof.
  unfold strategy_key. intros H. cbn in H. injection H as H.
  apply numeral_prefix in H; try apply pretty_nat_numeral.
  now apply (inj pretty).
Qed.

Lemma set_result_fresh (results : list (string * SimulationResult))
    (key : string) (r : SimulationResult) :
  ~ In key (map fst results) -> set_result results key r = results ++ [(key, r)].
Proof.
  induction results as [|[k r0] rest IH]; intros Hfresh; [reflexivity|].
  cbn in *. destruct (String.eqb_spec k key) as [->|_]; [tauto|].
  rewrite IH by tauto. reflexivity.
Qed.

Lemma runSimulation_returns (random : nat -> JS.number) (clock : Z)
    (params : SimulationParams) :
  exists r, runSimulation Math_pow random clock params = inr r.
Proof. eexists. reflexivity. Qed.

(** The loop over the strategies never fails and files the result of the
    [k]-th strategy under its own key, after the results that were there. *)
Lemma run_strategies_entries (todo : list SimulationParams) :
  forall (i : nat) (results : list (string * SimulationResult)),
    (forall key, In key (map fst results) ->
       exists j s, (j < i)%nat /\ key = strategy_key j s) ->
    exists entries,
      run_strategies Math_pow Math_random now i todo results
      = inr (results ++ entries)
      /\ length entries = length todo
      /\ (forall key, In key (map fst entries) ->
            exists j s, (i <= j)%nat /\ key = strategy_key j s)
      /\ List.NoDup (map fst entries)
      /\ forall k s, nth_error todo k = Some s ->
           exists r,
             runSimulation Math_pow (Math_random (i + k)%nat) (now (i + k)%nat) s
             = inr r
             /\ nth_error entries k = Some (strategy_key (i + k) s, r).
Proof.
  induction todo as [|s todo IH]; intros i results Hold.
  - exists []. cbn. rewrite app_nil_r. repeat split.
    + intros key [].
    + constructor.
    + intros k s Hk. destruct k; discriminate.
  - cbn [run_strategies].
    destruct (runSimulation_returns (Math_random i) (now i) s) as [r Hr].
    rewrite Hr. rewrite set_result_fresh.
    2:{ intros Hin. destruct (Hold _ Hin) as (j & t & Hj & Hkey).
        apply strategy_key_index in Hkey. lia. }
    destruct (IH (S i) (results ++ [(strategy_key i s, r)])) as
      (entries & Hrun & Hlen & Hkeys & Hnodup & Hnth).
    { intros key Hin. rewrite map_app in Hin. apply in_app_or in Hin.
      destruct Hin as [Hin|[<-|[]]].
      - destruct (Hold _ Hin) as (j & t & Hj & Hkey). exists j, t. split; [lia|exact Hkey].
      - exists i, s. split; [lia|reflexivity]. }
    exists ((strategy_key i s, r) :: entries). rewrite Hrun, <- app_assoc.
    split; [reflexivity|]. split; [cbn; now rewrite Hlen|]. split; [|split].
    + intros key [<-|Hin]; [exists i, s; split; [lia|reflexivity]|].
      destruct (Hkeys _ Hin) as (j & t & Hj & Hkey). exists j, t. split; [lia|exact Hkey].
    + cbn. constructor; [|exact Hnodup]. intros Hin.
      destruct (Hkeys _ Hin) as (j & t & Hj & Hkey).
      apply strategy_key_index in Hkey. lia.
    + intros k t Hk. destruct k as [|k]; cbn in Hk.
      * injection Hk as <-. exists r. rewrite Nat.add_0_r. split; [exact Hr|reflexivity].
      * destruct (Hnth k t Hk) as (r' & Hr' & Hn). exists r'.
        replace (i + S k)%nat with (S i + k)%nat by lia. split; [exact Hr'|exact Hn].
Qed.

(** ** The names of a comparison *)

Lemma pick_among (results : list (string * SimulationResult))
    (better : JS.number -> JS.number -> bool)
    (f : SimulationResult -> JS.number) (keys : list string) (a : string) :
  In (fold_left (pick results better f) keys a) (a :: keys).
Proof.
  revert a. induction keys as [|b keys IH]; intros a; [now left|].
  cbn [fold_left]. specialize (IH (pick results better f a b)).
  destruct IH as [H|H]; [|right; now right].
  rewrite <- H. unfold pick.
  destruct (lookup_result results a), (lookup_result results b);
    try (right; now left).
  destruct (better _ _); [now left | right; now left].
Qed.

Lemma compareStrategies_names (results : list (string * SimulationResult)) :
  results <> [] ->
  exists c,
    compareStrategies results = Some c
    /\ In (bestStrategy c) (map fst results)
    /\ In (worstStrategy c) (map fst results)
    /\ In (riskAdjustedWinner c) (map fst results).
Proof.
  intros Hne. unfold compareStrategies.
  destruct results as [|[k r] rest]; [congruence|].
  cbn [map fst reduce1]. eexists. split; [reflexivity|].
  cbn [bestStrategy worstStrategy riskAdjustedWinner].
  repeat split; apply pick_among.
Qed.

(** X19. A backtest without a strategy fails: the comparison reduces an empty
    array. No result is returned, whether a benchmark was asked for or
    not. *)
Theorem runBacktest_without_strategies (params : BacktestParams) :
  strategies params = [] ->
  exists message,
    runBacktest Math_pow Math_random now RangeError_message TypeError_message params
    = inl (UNKNOWN_ERROR ("Saros operation failed: " +:+ message))
    /\ (message = TypeError_message \/ message = RangeError_message).
Proof.
  intros Hs. unfold runBacktest. rewrite Hs. cbn [run_strategies].
  destruct (benchmark params) as [kind|].
  - destruct (benchmark_of params).
    + exists TypeError_message. split; [reflexivity | now left].
    + exists RangeError_message. split; [reflexivity | now right].
  - exists TypeError_message. split; [reflexivity | now left].
Qed.

(** X20. A backtest of one strategy or more, without a benchmark or between
    two valid dates in their order, returns a result: the [k]-th strategy
    is filed under [strategy_k_name] with the result of its own run, no
    key is used twice, the three names of the comparison are keys of the
    results, and the benchmark is there exactly when it was asked for. *)
Theorem runBacktest_keeps_every_strategy (params : BacktestParams) :
  strategies params <> [] ->
  (benchmark params = None
   \/ exists s e, startDate params = Some s /\ endDate params = Some e
                  /\ (0 <= e - s <= 17280000000000000)%Z) ->
  exists result,
    runBacktest Math_pow Math_random now RangeError_message TypeError_message params
    = inr result
    /\ length (bt_strategies result) = length (strategies params)
    /\ List.NoDup (map fst (bt_strategies result))
    /\ (forall k s, nth_error (strategies params) k = Some s ->
          exists r,
            runSimulation Math_pow (Math_random k) (now k) s = inr r
            /\ nth_error (bt_strategies result) k = Some (strategy_key k s, r))
    /\ In (bestStrategy (comparison result)) (map fst (bt_strategies result))
    /\ In (worstStrategy (comparison result)) (map fst (bt_strategies result))
    /\ In (riskAdjustedWinner (comparison result)) (map fst (bt_strategies result))
    /\ (bt_benchmark result = None <-> benchmark params = None).
Proof.
  intros Hne Hbench. unfold runBacktest.
  destruct (run_strategies_entries (strategies params) 0 [])
    as (entries & Hrun & Hlen & _ & Hnodup & Hnth); [intros key []|].
  rewrite Hrun. cbn [app].
  assert (Hentries : entries <> []).
  { intros ->. destruct (strategies params); [congruence|discriminate]. }
  destruct (compareStrategies_names entries Hentries) as (c & Hc & Hb & Hw & Hr).
  assert (Hreq :
    match benchmark params with
    | Some _ =>
        match benchmark_of params with
        | Some r => inr (Some r)
        | None => inl (wrapped RangeError_message)
        end
    | None => inr None
    end
    = inr (match benchmark params with
           | Some _ => benchmark_of params
           | None => None
           end)
    /\ (match benchmark params with
        | Some _ => benchmark_of params
        | None => None
        end = None <-> benchmark params = None)).
  { destruct (benchmark params) as [kind|]; [|split; [reflexivity|tauto]].
    destruct Hbench as [Hb'|(s & e & Hs & He & Hspan)]; [discriminate|].
    unfold benchmark_of. rewrite Hs, He. cbn [days_between].
    set (d := (- (- (e - s) / JS.msPerDay))%Z).
    assert (Hd : (0 <= d < 4294967295)%Z).
    { subst d. unfold JS.msPerDay.
      pose proof (Z.div_le_mono (- 17280000000000000) (- (e - s)) 86400000
                    ltac:(lia) ltac:(lia)) as Hlo.
      pose proof (Z.div_le_mono (- (e - s)) 0 86400000 ltac:(lia) ltac:(lia)) as Hhi.
      change (24 * 60 * 60 * 1000)%Z with 86400000%Z.
      change (- 17280000000000000 / 86400000)%Z with (- 200000000)%Z in Hlo.
      change (0 / 86400000)%Z with 0%Z in Hhi. lia. }
    unfold runBenchmark.
    destruct (Z.ltb_spec d 0); [lia|].
    destruct (Z.ltb_spec 4294967295 (d + 1)); [lia|]. cbn [orb].
    split; [reflexivity|]. split; discriminate. }
  destruct Hreq as [-> Hiff]. rewrite Hc.
  eexists. split; [reflexivity|]. cbn [bt_strategies bt_benchmark comparison].
  repeat split; try assumption; apply Hiff.
Qed.

End Backtests.

(** A backtest of no strategy, with a benchmark between two valid dates. *)
Lemma runBacktest_of_no_strategy :
  exists message,
    Sim.runBacktest JS.pow_by_mul (fun _ => Sim.constant_draw 0.5%float)
      (fun _ => Sim.sample_now) "Invalid array length"
      "Reduce of empty array with no initial value"
      (Sim.mkBacktestParams (Some (Sim.sample_now - 30 * JS.msPerDay)%Z)
         (Some Sim.sample_now) [] (Some Sim.buy_hold))
    = inl (Sim.UNKNOWN_ERROR ("Saros operation failed: " +:+ message))
    /\ (message = "Reduce of empty array with no initial value"
        \/ message = "Invalid array length").
Proof.
  apply (runBacktest_without_strategies JS.pow_by_mul
           (fun _ => Sim.constant_draw 0.5%float) (fun _ => Sim.sample_now)
           "Invalid array length" "Reduce of empty array with no initial value"
           (Sim.mkBacktestParams (Some (Sim.sample_now - 30 * JS.msPerDay)%Z)
              (Some Sim.sample_now) [] (Some Sim.buy_hold))).
  reflexivity.
Defined.

(** A backtest of a passive and a momentum strategy over five days. *)
Lemma runBacktest_of_two_strategies :
  let params :=
    Sim.mkBacktestParams (Some (Sim.sample_now - 5 * JS.msPerDay)%Z)
      (Some Sim.sample_now)
      [Sim.sample_params Sim.passive 5; Sim.sample_params Sim.momentum 5]
      (Some Sim.buy_hold) in
  exists result,
    Sim.runBacktest JS.pow_by_mul (fun _ => Sim.constant_draw 0.5%float)
      (fun _ => Sim.sample_now) "Invalid array length"
      "Reduce of empty array with no initial value" params
    = inr result
    /\ map fst (Sim.bt_strategies result)
       = ["strategy_0_passive"; "strategy_1_momentum"]
    /\ In (Sim.bestStrategy (Sim.comparison result))
          (map fst (Sim.bt_strategies result))
    /\ Sim.bt_benchmark result <> None.
Proof.
  intros params.
  destruct (runBacktest_keeps_every_strategy JS.pow_by_mul
              (fun _ => Sim.constant_draw 0.5%float) (fun _ => Sim.sample_now)
              "Invalid array length" "Reduce of empty array with no initial value"
              params)
    as (result & Hrun & Hlen & _ & Hnth & Hbest & _ & _ & Hbench).
  - discriminate.
  - right. exists (Sim.sample_now - 5 * JS.msPerDay)%Z, Sim.sample_now.
    repeat split; vm_compute; congruence.
  - exists result. split; [exact Hrun|].
    destruct (Hnth 0%nat _ eq_refl) as (r0 & _ & H0).
    destruct (Hnth 1%nat _ eq_refl) as (r1 & _ & H1).
    destruct (Sim.bt_strategies result) as [|e0 [|e1 [|e2 rest]]]; try discriminate.
    cbn in H0, H1. injection H0 as ->. injection H1 as ->.
    split; [reflexivity|]. split; [exact Hbest|].
    intros Hnone. apply Hbench in Hnone. discriminate.
Defined.

(* ================================================================== *)
(** * The life of an order *)
(* ================================================================== *)

Section OrderLife.
Import Orders.

Variable Array_sort :
  (OrderBookEntry -> OrderBookEntry -> JS.number) ->
  list OrderBookEntry -> list OrderBookEntry.
Variable Math_log : JS.number -> JS.number.
Variable Math_round : JS.number -> JS.number.

(** [Array.prototype.sort] rearranges the array it is given. *)
Hypothesis Array_sort_permutes : forall cmp l, Permutation (Array_sort cmp l) l.

(** ** Reading back what was written *)

Lemma Map_get_set_same {V : Type} (m : list (string * V)) (key : string) (v : V) :
  Map_get (Map_set m key v) key = Some v.
Proof.
  induction m as [|[k v0] m IH]; cbn.
  - now rewrite String.eqb_refl.
  - destruct (String.eqb k key) eqn:E; cbn; rewrite E; [reflexivity | exact IH].
Qed.

Lemma Map_get_set_other {V : Type} (m : list (string * V)) (key other : string)
    (v : V) :
  other <> key -> Map_get (Map_set m key v) other = Map_get m other.
Proof.
  intros Hne. induction m as [|[k v0] m IH]; cbn.
  - destruct (String.eqb_spec key other); [congruence | reflexivity].
  - destruct (String.eqb_spec k key) as [->|Hk]; cbn.
    + destruct (String.eqb_spec key other); [congruence | reflexivity].
    + now rewrite IH.
Qed.

Lemma Map_set_In {V : Type} (m : list (string * V)) (key : string) (v : V)
    (k : string) (x : V) :
  In (k, x) (Map_set m key v) -> (k = key /\ x = v) \/ In (k, x) m.
Proof.
  induction m as [|[k0 v0] m IH]; cbn.
  - intros [H|[]]. injection H as <- <-. now left.
  - destruct (String.eqb_spec k0 key) as [->|Hk]; cbn.
    + intros [H|H]; [injection H as <- <-; now left | right; now right].
    + intros [H|H]; [right; now left|]. destruct (IH H); [now left | right; now right].
Qed.

Lemma Map_set_keys {V : Type} (m : list (string * V)) (key : string) (v : V) :
  List.NoDup (map fst m) -> List.NoDup (map fst (Map_set m key v)).
Proof.
  induction m as [|[k0 v0] m IH]; cbn; intros Hnd.
  - constructor; [intros [] | constructor].
  - inversion Hnd as [|? ? Hnotin Hnd']; subst.
    destruct (String.eqb_spec k0 key) as [->|Hk]; cbn.
    + now constructor.
    + constructor; [|now apply IH]. intros Hin. apply in_map_iff in Hin.
      destruct Hin as ([k x] & Hfst & Hin). cbn in Hfst. subst k.
      apply Map_set_In in Hin. destruct Hin as [[? _]|Hin]; [congruence|].
      apply Hnotin. apply in_map_iff. now exists (k0, x).
Qed.

Lemma Map_set_present_keys {V : Type} (m : list (string * V)) (key : string)
    (v0 v : V) :
  Map_get m key = Some v0 -> map fst (Map_set m key v) = map fst m.
Proof.
  intros Hget. destruct (Map_get_split m key v0 Hget) as (before & after & -> & Hset).
  rewrite Hset, !map_app. reflexivity.
Qed.

Lemma Map_get_In {V : Type} (m : list (string * V)) (key : string) (v : V) :
  List.NoDup (map fst m) -> In (key, v) m -> Map_get m key = Some v.
Proof.
  induction m as [|[k0 v0] m IH]; cbn; intros Hnd Hin; [destruct Hin|].
  inversion Hnd as [|? ? Hnotin Hnd']; subst.
  destruct Hin as [H|Hin].
  - injection H as -> ->. now rewrite String.eqb_refl.
  - destruct (String.eqb_spec k0 key) as [->|_]; [|now apply IH].
    exfalso. apply Hnotin. apply in_map_iff. now exists (key, v).
Qed.

(** ** Cancelling *)

(** X21. A successful [cancelLimitOrder] found the order pending and leaves it
    cancelled under the same id; no other order, no stop-loss order and
    no key changes; a second cancel of the same order is refused. *)
Theorem cancelLimitOrder_is_final (s s' : Service) (orderId : string) :
  cancelLimitOrder s orderId = inr s' ->
  (exists order,
     Map_get (orders s) orderId = Some order /\ status order = pending
     /\ Map_get (orders s') orderId = Some (set_status order cancelled))
  /\ (forall other, other <> orderId ->
        Map_get (orders s') other = Map_get (orders s) other)
  /\ map fst (orders s') = map fst (orders s)
  /\ stopLossOrders s' = stopLossOrders s
  /\ cancelLimitOrder s' orderId = inl Order_cannot_be_cancelled.
Proof.
  unfold cancelLimitOrder at 1. intros Hcancel.
  destruct (Map_get (orders s) orderId) as [order|] eqn:Hget; [|discriminate].
  destruct (is_pending order) eqn:Hp; [|discriminate].
  injection Hcancel as <-. cbn [orders stopLossOrders].
  split; [|split; [|split; [|split]]].
  - exists order. split; [reflexivity|]. split.
    + unfold is_pending in Hp. now destruct (status order).
    + apply Map_get_set_same.
  - intros other Hne. now apply Map_get_set_other.
  - now apply (Map_set_present_keys _ _ order).
  - reflexivity.
  - unfold cancelLimitOrder. cbn [orders]. rewrite Map_get_set_same. reflexivity.
Qed.

(** ** Creating, then cancelling *)

Lemma remove_first_length {A : Type} (p : A -> bool) (l : list A) :
  length (remove_first p l)
  = if existsb p l then (length l - 1)%nat else length l.
Proof.
  induction l as [|x l IH]; [reflexivity|]. cbn.
  destruct (p x); cbn; [lia|]. rewrite IH.
  destruct (existsb p l) eqn:E; [|reflexivity].
  destruct l; [discriminate | cbn; lia].
Qed.

Lemma existsb_none {A : Type} (p : A -> bool) (l : list A) :
  (forall x, p x = false) -> existsb p l = false.
Proof.
  intros H. induction l as [|x l IH]; [reflexivity|]. cbn. now rewrite H, IH.
Qed.

Lemma existsb_perm {A : Type} (p : A -> bool) (l1 l2 : list A) :
  Permutation l1 l2 -> existsb p l1 = existsb p l2.
Proof.
  intros Hperm. apply eq_true_iff_eq. rewrite !existsb_exists.
  split; intros (x & Hin & Hx); exists x; split; try assumption.
  - now apply (Permutation_in _ Hperm).
  - now apply (Permutation_in _ (Permutation_sym Hperm)).
Qed.

Lemma entry_matches_own (order : LimitOrder) :
  entry_matches order (entry_of order)
  = negb (JS.isNaN (price order) || JS.isNaN (amount order)).
Proof.
  unfold entry_matches, entry_of. cbn.
  assert (Hside : Side_eqb (side order) (side order) = true) by now destruct (side order).
  rewrite Hside, andb_true_r.
  assert (Hrefl : forall x, JS.strict_eq x x = negb (JS.isNaN x)).
  { intros x. destruct (JS.isNaN x) eqn:E.
    - destruct (JS.strict_eq x x) eqn:F; [|reflexivity].
      apply strict_eq_key in F. destruct F as [F _]. congruence.
    - now apply strict_eq_refl. }
  rewrite !Hrefl. now destruct (JS.isNaN (price order)), (JS.isNaN (amount order)).
Qed.

Lemma entry_matches_NaN (order : LimitOrder) (entry : OrderBookEntry) :
  JS.isNaN (price order) || JS.isNaN (amount order) = true ->
  entry_matches order entry = false.
Proof.
  intros H. unfold entry_matches.
  destruct (JS.strict_eq (entry_price entry) (price order)) eqn:E1; [|reflexivity].
  destruct (JS.strict_eq (entry_amount entry) (amount order)) eqn:E2; [|reflexivity].
  apply strict_eq_key in E1, E2. destruct E1 as (_ & E1 & _), E2 as (_ & E2 & _).
  rewrite E1, E2 in H. discriminate.
Qed.

(** X22. An order that was created can be cancelled at once. The cancel takes
    one entry out of the book of the pair, so that the book is as long
    as it was before the order; but an order whose price or amount is NaN
    matches no entry, and its own entry stays behind. The books of the
    other pairs are as they were. *)
Theorem createLimitOrder_then_cancel
    (env : CreateEnv) (s s1 : Service) (params : LimitOrderParams)
    (order : LimitOrder) :
  createLimitOrder Array_sort Math_log Math_round env s params = inr (s1, order) ->
  exists s2,
    cancelLimitOrder s1 (id order) = inr s2
    /\ Map_get (orders s2) (id order) = Some (set_status order cancelled)
    /\ length (default [] (orderBook s2 !! new_pair params))
       = (if JS.isNaN (new_price params) || JS.isNaN (new_amount params)
          then S (length (default [] (orderBook s !! new_pair params)))
          else length (default [] (orderBook s !! new_pair params)))
    /\ forall other, other <> new_pair params ->
         orderBook s2 !! other = orderBook s !! other.
Proof.
  unfold createLimitOrder. intros Hcreate.
  destruct (getPairInfo env (new_pair params)) as [message|[pairInfo|]];
    try discriminate.
  destruct (JS.strict_eq _ _); [discriminate|].
  injection Hcreate as <- <-.
  set (order := mkLimitOrder _ _ _ _ _ _ _ _ _ _ _ _).
  unfold cancelLimitOrder. cbn [orders id stopLossOrders orderBook].
  change (id order) with (generateOrderId env).
  rewrite Map_get_set_same. change (is_pending order) with true. cbv iota.
  eexists. split; [reflexivity|]. cbn [orders orderBook].
  split; [apply Map_get_set_same|].
  unfold removeFromOrderBook, addToOrderBook.
  change (pair (set_status order cancelled)) with (new_pair params).
  change (pair order) with (new_pair params).
  rewrite lookup_insert_eq. split.
  - rewrite lookup_insert_eq. cbn [default]. unfold Datatypes.id.
    rewrite remove_first_length.
    rewrite (existsb_perm _ _ _ (Array_sort_permutes _ _)).
    rewrite (Permutation_length (Array_sort_permutes _ _)).
    rewrite existsb_app, length_app. cbn [existsb length].
    change (entry_matches (set_status order cancelled) (entry_of order))
      with (entry_matches order (entry_of order)).
    rewrite entry_matches_own, orb_false_r.
    change (price order) with (new_price params).
    change (amount order) with (new_amount params).
    destruct (JS.isNaN (new_price params) || JS.isNaN (new_amount params)) eqn:E.
    + cbn [negb]. rewrite orb_false_r.
      rewrite existsb_none; [lia|].
      intros e. now apply entry_matches_NaN.
    + cbn [negb]. rewrite orb_true_r. lia.
  - intros other Hne. rewrite !lookup_insert_ne by congruence. reflexivity.
Qed.

End OrderLife.

(* ================================================================== *)
(** * Passes over the orders *)
(* ================================================================== *)

Section Passes.
Import Orders.

(** ** One pass over the orders *)

(** What [examine] can do to an order: nothing, or take it from pending
    to expired or to filled; only a filled order is pushed. *)
Lemma examine_shape (env : FillEnv) (orderId : string) (order order' : LimitOrder)
    (book book' : gmap string (list OrderBookEntry)) (pushed : list LimitOrder) :
  examine env orderId order book = Some (order', book', pushed) ->
  id order' = id order
  /\ (status order <> pending -> order' = order)
  /\ (status order' = pending -> order' = order)
  /\ (forall o, In o pushed -> o = order' /\ status order' = filled)
  /\ forall book2, examine env orderId order' book2 = Some (order', book2, []).
Proof.
  unfold examine. destruct (is_pending order) eqn:Hp; cbn [negb].
  - assert (Hst : status order = pending)
      by (unfold is_pending in Hp; now destruct (status order)).
    destruct (marketPrice env orderId (pair order)) as [currentPrice|] eqn:Hq;
      [|discriminate].
    destruct (has_expired (expiryClock env orderId) order) eqn:He;
      [|destruct (shouldFill order currentPrice) eqn:Hf];
      intros H; injection H as <- <- <-;
      (split; [reflexivity|]); (split; [intros; congruence|]);
      (split; [cbn; intros; congruence|]); split.
    + intros o [].
    + reflexivity.
    + intros o [<-|[]]. split; reflexivity.
    + reflexivity.
    + intros o [].
    + intros book2. rewrite Hp. cbn [negb]. now rewrite Hq, He, Hf.
  - intros H. injection H as <- <- <-.
    (split; [reflexivity|]); (split; [reflexivity|]); (split; [reflexivity|]); split.
    + intros o [].
    + intros book2. now rewrite Hp.
Qed.

Lemma fills_loop_shape (env : FillEnv) (todo : list (string * LimitOrder)) :
  forall book todo' book' result,
    fills_loop env todo book = (todo', book', result) ->
    Forall2 settled_step todo todo'
    /\ forall filledOrders, result = Some filledOrders ->
         (forall o, In o filledOrders ->
            status o = filled /\ exists k, In (k, o) todo')
         /\ forall book2, fills_loop env todo' book2 = (todo', book2, Some []).
Proof.
  induction todo as [|[k o] todo IH]; intros book todo' book' result Hloop;
    cbn [fills_loop] in Hloop.
  - injection Hloop as <- <- <-. split; [constructor|].
    intros f Hf. injection Hf as <-. split; [intros o []|reflexivity].
  - destruct (examine env k o book) as [[[o' book1] pushed]|] eqn:Hex.
    + destruct (fills_loop env todo book1) as [[rest' book2] r] eqn:Hrest.
      injection Hloop as <- <- <-.
      destruct (IH _ _ _ _ Hrest) as (Hall & Hfilled).
      destruct (examine_shape _ _ _ _ _ _ _ Hex) as (Hid & Hs1 & Hs2 & Hpush & Hagain).
      split; [constructor; [repeat split; assumption | exact Hall]|].
      intros f Hf. destruct r as [f0|]; [|discriminate]. injection Hf as <-.
      destruct (Hfilled f0 eq_refl) as (Hin & Hidem). split.
      * intros x Hx. apply in_app_or in Hx. destruct Hx as [Hx|Hx].
        -- destruct (Hpush x Hx) as [-> Hst]. split; [exact Hst|].
           exists k. now left.
        -- destruct (Hin x Hx) as (Hst & k' & Hk'). split; [exact Hst|].
           exists k'. now right.
      * intros book3. cbn [fills_loop]. rewrite Hagain, Hidem. reflexivity.
    + injection Hloop as <- <- <-. split.
      * clear. induction ((k, o) :: todo) as [|a l IHl]; constructor; [|exact IHl].
        repeat split; try reflexivity.
      * intros f Hf. discriminate.
Qed.

Lemma Forall2_keys (l l' : list (string * LimitOrder)) :
  Forall2 settled_step l l' -> map fst l' = map fst l.
Proof.
  induction 1 as [|a b l l' (Hk & _) _ IH]; [reflexivity|]. cbn. now rewrite Hk, IH.
Qed.

Lemma Forall2_filed (l l' : list (string * LimitOrder)) :
  Forall2 settled_step l l' -> filed_by_id l -> filed_by_id l'.
Proof.
  intros Hall [Hnd Hids]. split; [now rewrite (Forall2_keys _ _ Hall)|].
  clear Hnd. induction Hall as [|a b l l' (Hk & Hid & _) _ IH]; [intros k o []|].
  intros k o [Hin|Hin].
  - destruct a as [ka oa], b as [kb ob]. cbn in *. injection Hin as -> ->.
    rewrite Hid, Hk. apply Hids. now left.
  - apply IH; [|exact Hin]. intros k' o' H'. apply Hids. now right.
Qed.

(** X23. A pass of [checkOrderFills], whether it completes or is ended by a
    rejected quote, keeps the ids and their order, does not touch the
    stop-loss orders, leaves every order that was not pending exactly as
    it was, and takes no order back to pending. *)
Theorem checkOrderFills_leaves_settled_orders
    (env : FillEnv) (s s' : Service) (result : option (list LimitOrder)) :
  checkOrderFills env s = (s', result) ->
  map fst (orders s') = map fst (orders s)
  /\ stopLossOrders s' = stopLossOrders s
  /\ (forall i orderId order,
        nth_error (orders s) i = Some (orderId, order) ->
        status order <> pending ->
        nth_error (orders s') i = Some (orderId, order))
  /\ (forall i orderId order',
        nth_error (orders s') i = Some (orderId, order') ->
        status order' = pending ->
        nth_error (orders s) i = Some (orderId, order')).
Proof.
  unfold checkOrderFills.
  destruct (fills_loop env (orders s) (orderBook s)) as [[orders' book'] r] eqn:Hloop.
  intros H. injection H as <- <-. cbn [orders stopLossOrders].
  destruct (fills_loop_shape _ _ _ _ _ _ Hloop) as (Hall & _).
  split; [now apply Forall2_keys|]. split; [reflexivity|].
  clear Hloop. split.
  - induction Hall as [|a b l l' (Hk & _ & Hs & _) _ IH]; intros i k o Hi Hst.
    + destruct i; discriminate.
    + destruct i as [|i]; cbn in *; [|now apply (IH i k o)].
      injection Hi as ->. cbn in *. specialize (Hs Hst).
      destruct b as [kb ob]. cbn in *. now subst.
  - induction Hall as [|a b l l' (Hk & _ & _ & Hs) _ IH]; intros i k o Hi Hst.
    + destruct i; discriminate.
    + destruct i as [|i]; cbn in *; [|now apply (IH i k o)].
      injection Hi as ->. cbn in *. specialize (Hs Hst).
      destruct a as [ka oa]. cbn in *. now subst.
Qed.

(** X24. A second pass over the same market, at the same clock readings, finds
    nothing to do: it changes no order and no book, and fills nothing. *)
Theorem checkOrderFills_twice
    (env : FillEnv) (s s' : Service) (filled1 : list LimitOrder) :
  checkOrderFills env s = (s', Some filled1) ->
  checkOrderFills env s' = (s', Some []).
Proof.
  unfold checkOrderFills.
  destruct (fills_loop env (orders s) (orderBook s)) as [[orders' book'] r] eqn:Hloop.
  intros H. injection H as <- ->. cbn [orders orderBook stopLossOrders].
  destruct (fills_loop_shape _ _ _ _ _ _ Hloop) as (_ & Hfilled).
  destruct (Hfilled filled1 eq_refl) as (_ & Hidem). now rewrite (Hidem book').
Qed.

(** X25. An order that a pass returns as filled is filed as filled under its
    id, and can no longer be cancelled. *)
Theorem filled_orders_are_final
    (env : FillEnv) (s s' : Service) (filled1 : list LimitOrder) (order : LimitOrder) :
  filed_by_id (orders s) ->
  checkOrderFills env s = (s', Some filled1) ->
  In order filled1 ->
  status order = filled
  /\ Map_get (orders s') (id order) = Some order
  /\ cancelLimitOrder s' (id order) = inl Order_cannot_be_cancelled.
Proof.
  intros Hfiled. unfold checkOrderFills.
  destruct (fills_loop env (orders s) (orderBook s)) as [[orders' book'] r] eqn:Hloop.
  intros H Hin. injection H as <- ->. cbn [orders].
  destruct (fills_loop_shape _ _ _ _ _ _ Hloop) as (Hall & Hfilled).
  destruct (Hfilled filled1 eq_refl) as (Hst & _).
  destruct (Hst order Hin) as (Hstatus & k & Hk).
  destruct (Forall2_filed _ _ Hall Hfiled) as [Hnd Hids].
  rewrite <- (Hids k order Hk) in Hk.
  pose proof (Map_get_In _ _ _ Hnd Hk) as Hget.
  split; [exact Hstatus|]. split; [exact Hget|].
  unfold cancelLimitOrder. cbn [orders]. rewrite Hget.
  unfold is_pending. now rewrite Hstatus.
Qed.

(** ** One pass over the stop-loss orders *)

Lemma examine_stop_again (env : TriggerEnv) (orderId : string)
    (order order' : StopLossOrder) (pushed : list StopLossOrder) :
  examine_stop env orderId order = Some (order', pushed) ->
  examine_stop env orderId order' = Some (order', []).
Proof.
  unfold examine_stop. destruct (is_active order) eqn:Ha; cbn [negb].
  - destruct (getUserPositions env orderId (position order)) as [positions|] eqn:Hp;
      [|discriminate].
    destruct (find _ positions) as [found|] eqn:Hf.
    + destruct (PrimFloat.leb _ _) eqn:Hle.
      * intros H. injection H as <- <-. reflexivity.
      * intros H. injection H as <- <-. rewrite Ha. cbn [negb].
        now rewrite Hp, Hf, Hle.
    + intros H. injection H as <- <-. rewrite Ha. cbn [negb]. now rewrite Hp, Hf.
  - intros H. injection H as <- <-. now rewrite Ha.
Qed.

Lemma triggers_loop_again (env : TriggerEnv) (todo : list (string * StopLossOrder)) :
  forall todo' triggered1,
    triggers_loop env todo = (todo', Some triggered1) ->
    triggers_loop env todo' = (todo', Some []).
Proof.
  induction todo as [|[k o] todo IH]; intros todo' t1 Hloop; cbn [triggers_loop] in Hloop.
  - injection Hloop as <- _. reflexivity.
  - destruct (examine_stop env k o) as [[o' pushed]|] eqn:Hex; [|discriminate].
    destruct (triggers_loop env todo) as [rest' [r|]] eqn:Hrest; [|discriminate].
    injection Hloop as <- _. cbn [triggers_loop].
    rewrite (examine_stop_again _ _ _ _ _ Hex), (IH _ _ eq_refl). reflexivity.
Qed.

(** X26. A second pass of [checkStopLossTriggers] over the same positions
    triggers nothing and changes nothing; neither pass touches the limit
    orders or the book. *)
Theorem checkStopLossTriggers_twice
    (env : TriggerEnv) (s s' : Service) (triggered1 : list StopLossOrder) :
  checkStopLossTriggers env s = (s', Some triggered1) ->
  checkStopLossTriggers env s' = (s', Some [])
  /\ orders s' = orders s
  /\ orderBook s' = orderBook s.
Proof.
  unfold checkStopLossTriggers.
  destruct (triggers_loop env (stopLossOrders s)) as [stops' r] eqn:Hloop.
  intros H. injection H as <- ->. cbn [orders orderBook stopLossOrders].
  rewrite (triggers_loop_again _ _ _ _ Hloop). repeat split.
Qed.

(** ** Stop-loss orders *)

(** X27. A stop-loss order that was created can be cancelled, once; creating
    and cancelling it touches neither the limit orders nor the book. *)
Theorem createStopLossOrder_then_cancel
    (env : CreateEnv) (s : Service) (params : StopLossParams) :
  let s1 := fst (createStopLossOrder env s params) in
  let order := snd (createStopLossOrder env s params) in
  stop_status order = active
  /\ Map_get (stopLossOrders s1) (stop_id order) = Some order
  /\ exists s2,
       cancelStopLossOrder s1 (stop_id order) = inr s2
       /\ Map_get (stopLossOrders s2) (stop_id order)
          = Some (set_stop_status order stop_cancelled)
       /\ cancelStopLossOrder s2 (stop_id order)
          = inl Stop_loss_order_cannot_be_cancelled
       /\ orders s2 = orders s
       /\ orderBook s2 = orderBook s.
Proof.
  cbv zeta. unfold createStopLossOrder. cbn [fst snd stop_status stop_id stopLossOrders].
  split; [reflexivity|]. split; [apply Map_get_set_same|].
  unfold cancelStopLossOrder at 1. cbn [stopLossOrders orders orderBook].
  rewrite Map_get_set_same. change (is_active _) with true. cbv iota.
  eexists. split; [reflexivity|]. cbn [stopLossOrders orders orderBook].
  split; [apply Map_get_set_same|]. split; [|split; reflexivity].
  unfold cancelStopLossOrder. cbn [stopLossOrders]. rewrite Map_get_set_same.
  reflexivity.
Qed.

(** ** Statistics *)

Lemma status_partition (l : list LimitOrder) :
  length l
  = (length (List.filter (has_status pending) l)
     + length (List.filter (has_status filled) l)
     + length (List.filter (has_status cancelled) l)
     + length (List.filter (has_status expired) l))%nat.
Proof.
  induction l as [|o l IH]; [reflexivity|]. cbn [List.filter length].
  destruct (has_status pending o) eqn:E1, (has_status filled o) eqn:E2,
    (has_status cancelled o) eqn:E3, (has_status expired o) eqn:E4;
    unfold has_status in E1, E2, E3, E4; destruct (status o);
    try discriminate; cbn [length]; lia.
Qed.

(** X28. [getOrderStatistics] counts every order in [totalOrders] but the
    expired ones in none of its three classes: the classes fall short of
    the total by the number of expired orders. With no order at all the
    success rate is 0. *)
Theorem statistics_leave_out_expired (s : Service) (user : PublicKey) :
  let stats := getOrderStatistics s user in
  totalOrders stats
  = (pendingOrders stats + filledOrders stats + cancelledOrders stats
     + length (List.filter (has_status expired) (map snd (orders s))))%nat
  /\ totalOrders stats = length (orders s)
  /\ (orders s = [] -> successRate stats = 0%float /\ totalVolume stats = 0%float).
Proof.
  cbv zeta. unfold getOrderStatistics, getUserOrders.
  cbn [fst totalOrders pendingOrders filledOrders cancelledOrders successRate totalVolume].
  split; [apply status_partition|]. split; [apply length_map|].
  intros ->. split; reflexivity.
Qed.

End Passes.

(* ================================================================== *)
(** * Every state of a service *)
(* ================================================================== *)

Section ReachableStates.
Import Orders.

Variable Array_sort :
  (OrderBookEntry -> OrderBookEntry -> JS.number) ->
  list OrderBookEntry -> list OrderBookEntry.
Variable Math_log : JS.number -> JS.number.
Variable Math_round : JS.number -> JS.number.

Hypothesis Array_sort_permutes : forall cmp l, Permutation (Array_sort cmp l) l.

(** Writing an order under an id that is already taken replaces the
    order that was there: no more orders are listed than if the new one
    had been added. *)
Lemma listed_orders_Map_set (pair_ : string) (probe : OrderBookEntry)
    (os : list (string * LimitOrder)) (orderId : string) (o : LimitOrder) :
  (listed_orders pair_ probe (Map_set os orderId o)
   <= listed_orders pair_ probe (os ++ [(orderId, o)]))%nat.
Proof.
  induction os as [|[k v] os IH]; [cbn; lia|]. cbn [Map_set].
  destruct (String.eqb_spec k orderId) as [->|Hk].
  - change ((orderId, o) :: os) with ([(orderId, o)] ++ os).
    change (((orderId, v) :: os) ++ [(orderId, o)])
      with ([(orderId, v)] ++ os ++ [(orderId, o)]).
    rewrite !listed_orders_app. lia.
  - change ((k, v) :: Map_set os orderId o) with ([(k, v)] ++ Map_set os orderId o).
    change (((k, v) :: os) ++ [(orderId, o)]) with ([(k, v)] ++ os ++ [(orderId, o)]).
    rewrite (listed_orders_app _ _ [(k, v)] (Map_set os orderId o)).
    rewrite (listed_orders_app _ _ [(k, v)] (os ++ [(orderId, o)])). lia.
Qed.

Lemma Map_set_filed (os : list (string * LimitOrder)) (o : LimitOrder) :
  filed_by_id os -> filed_by_id (Map_set os (id o) o).
Proof.
  intros [Hnd Hids]. split; [now apply Map_set_keys|].
  intros k x Hin. apply Map_set_In in Hin. destruct Hin as [[-> ->]|Hin];
    [reflexivity | now apply Hids].
Qed.

(** X29. Whatever calls a service has served, every order is filed under its
    own id, and the book covers the orders that are pending or expired:
    each of them with a price and an amount that are not NaN has an entry
    of its price, amount and side in the book of its pair. *)
Theorem reachable_orders_are_listed (s : Service) :
  reachable Array_sort Math_log Math_round s ->
  filed_by_id (orders s)
  /\ book_covers (orders s) (orderBook s)
  /\ forall orderId order,
       Map_get (orders s) orderId = Some order ->
       id order = orderId
       /\ (status order = pending \/ status order = expired ->
           JS.isNaN (price order) = false -> JS.isNaN (amount order) = false ->
           exists entries entry,
             orderBook s !! pair order = Some entries
             /\ In entry entries
             /\ entry_matches order entry = true).
Proof.
  intros Hreach.
  assert (Hinv : filed_by_id (orders s) /\ book_covers (orders s) (orderBook s)).
  { induction Hreach as
      [ | env s params s' order Hreach [Hfiled Hcov] Hcreate
        | env s params Hreach IH
        | s orderId s' Hreach [Hfiled Hcov] Hcancel
        | s orderId s' Hreach IH Hcancel
        | env s Hreach [Hfiled Hcov]
        | env s Hreach IH ].
    - split; [split; [constructor | intros k o []] | apply book_covers_empty].
    - unfold createLimitOrder in Hcreate.
      destruct (getPairInfo env (new_pair params)) as [message|[pairInfo|]];
        try discriminate.
      destruct (JS.strict_eq _ _); [discriminate|].
      injection Hcreate as <- <-. cbn [orders orderBook].
      set (order := mkLimitOrder _ _ _ _ _ _ _ _ _ _ _ _).
      split; [exact (Map_set_filed (orders s) order Hfiled)|].
      intros pair_ probe.
      etransitivity; [apply listed_orders_Map_set|].
      now apply book_covers_create.
    - exact IH.
    - unfold cancelLimitOrder in Hcancel.
      destruct (Map_get (orders s) orderId) as [order|] eqn:Hget; [|discriminate].
      destruct (is_pending order) eqn:Hp; [|discriminate].
      injection Hcancel as <-. cbn [orders orderBook].
      destruct (Map_get_split _ _ _ Hget) as (before & after & Hsplit & Hset).
      split.
      + destruct Hfiled as [Hnd Hids]. split.
        * now rewrite (Map_set_present_keys _ _ order).
        * intros k x Hin. apply Map_set_In in Hin.
          destruct Hin as [[-> ->]|Hin]; [|now apply Hids].
          cbn. apply Hids. rewrite Hsplit. apply in_or_app. right. now left.
      + rewrite Hset. rewrite Hsplit in Hcov.
        apply (unlisting_keeps_cover orderId order); try reflexivity; try assumption.
        unfold is_pending in Hp. unfold still_listed. now destruct (status order).
    - unfold cancelStopLossOrder in Hcancel.
      destruct (Map_get (stopLossOrders s) orderId) as [order|]; [|discriminate].
      destruct (is_active order); [|discriminate].
      injection Hcancel as <-. exact IH.
    - unfold checkOrderFills.
      destruct (fills_loop env (orders s) (orderBook s)) as [[orders' book'] r] eqn:Hloop.
      cbn [fst orders orderBook].
      destruct (fills_loop_shape _ _ _ _ _ _ Hloop) as (Hall & _).
      split; [now apply (Forall2_filed _ _ Hall)|].
      exact (fills_loop_keeps_cover env (orders s) [] _ _ _ _ Hcov Hloop).
    - unfold checkStopLossTriggers.
      destruct (triggers_loop env (stopLossOrders s)) as [stops' r]. exact IH. }
  destruct Hinv as [Hfiled Hcov]. split; [exact Hfiled|]. split; [exact Hcov|].
  intros orderId order Hget.
  destruct (Map_get_split _ _ _ Hget) as (before & after & Hsplit & _).
  assert (Hin : In (orderId, order) (orders s))
    by (rewrite Hsplit; apply in_or_app; right; now left).
  split; [now apply (proj2 Hfiled)|].
  intros Hst Hprice Hamount.
  apply (covered_order_has_entry (orders s) (orderBook s) orderId order);
    try assumption.
  unfold still_listed. destruct Hst as [-> | ->]; reflexivity.
Qed.

End ReachableStates.

(** Cancelling the only order of a service, twice. *)
Lemma cancel_sample_order_twice :
  let s := Orders.service_of [Orders.sample_order "order_1" Orders.buy 100%float None] in
  exists s',
    Orders.cancelLimitOrder s "order_1" = inr s'
    /\ Orders.cancelLimitOrder s' "order_1" = inl Orders.Order_cannot_be_cancelled.
Proof.
  intros s.
  destruct (Orders.cancelLimitOrder s "order_1") as [failure|s'] eqn:Hcancel;
    [vm_compute in Hcancel; discriminate|].
  exists s'. split; [reflexivity|].
  exact (proj2 (proj2 (proj2 (proj2
           (cancelLimitOrder_is_final s s' "order_1" Hcancel))))).
Defined.

(** A buy order at 95 and a buy order whose amount is NaN, each created
    on a new service and cancelled: the entry of the second stays behind. *)
Lemma create_and_cancel_at_95 :
  (exists s1 order s2,
     Orders.createLimitOrder Orders.sample_sort Orders.sample_log
       Orders.sample_round (Orders.sample_create_env "order_1")
       Orders.new_service (Orders.sample_limit_params Orders.buy 95%float)
     = inr (s1, order)
     /\ Orders.cancelLimitOrder s1 (Orders.id order) = inr s2
     /\ length (default [] (Orders.orderBook s1 !! "SOL/USDC")) = 1%nat
     /\ length (default [] (Orders.orderBook s2 !! "SOL/USDC")) = 0%nat)
  /\ (exists s1 order s2,
        Orders.createLimitOrder Orders.sample_sort Orders.sample_log
          Orders.sample_round (Orders.sample_create_env "order_1")
          Orders.new_service
            (Orders.mkLimitOrderParams "SOL/USDC" Orders.buy JS.NaN 95%float "user1" None)
        = inr (s1, order)
        /\ Orders.cancelLimitOrder s1 (Orders.id order) = inr s2
        /\ length (default [] (Orders.orderBook s1 !! "SOL/USDC")) = 1%nat
        /\ length (default [] (Orders.orderBook s2 !! "SOL/USDC")) = 1%nat).
Proof.
  split.
  - destruct (Orders.createLimitOrder Orders.sample_sort Orders.sample_log
                Orders.sample_round (Orders.sample_create_env "order_1")
                Orders.new_service (Orders.sample_limit_params Orders.buy 95%float))
      as [failure|[s1 order]] eqn:Hcreate; [vm_compute in Hcreate; discriminate|].
    destruct (createLimitOrder_then_cancel Orders.sample_sort Orders.sample_log
                Orders.sample_round (fun _ l => Permutation_refl l)
                (Orders.sample_create_env "order_1") Orders.new_service s1
                (Orders.sample_limit_params Orders.buy 95%float) order Hcreate)
      as (s2 & Hcancel & _ & Hlen & _).
    exists s1, order, s2. split; [reflexivity|]. split; [exact Hcancel|].
    split; [|exact Hlen].
    vm_compute in Hcreate. injection Hcreate as <- _. reflexivity.
  - destruct (Orders.createLimitOrder Orders.sample_sort Orders.sample_log
                Orders.sample_round (Orders.sample_create_env "order_1")
                Orders.new_service
                  (Orders.mkLimitOrderParams "SOL/USDC" Orders.buy JS.NaN 95%float "user1" None))
      as [failure|[s1 order]] eqn:Hcreate; [vm_compute in Hcreate; discriminate|].
    destruct (createLimitOrder_then_cancel Orders.sample_sort Orders.sample_log
                Orders.sample_round (fun _ l => Permutation_refl l)
                (Orders.sample_create_env "order_1") Orders.new_service s1
                (Orders.mkLimitOrderParams "SOL/USDC" Orders.buy JS.NaN 95%float
                   "user1" None)
                order Hcreate)
      as (s2 & Hcancel & _ & Hlen & _).
    exists s1, order, s2. split; [reflexivity|]. split; [exact Hcancel|].
    split; [|exact Hlen].
    vm_compute in Hcreate. injection Hcreate as <- _. reflexivity.
Defined.

(** The service after one order was created on it. *)
Lemma created_order_is_listed :
  exists s order entries entry,
    Orders.createLimitOrder Orders.sample_sort Orders.sample_log Orders.sample_round
      (Orders.sample_create_env "order_1") Orders.new_service
      (Orders.sample_limit_params Orders.sell 120%float) = inr (s, order)
    /\ Orders.orderBook s !! "SOL/USDC" = Some entries
    /\ In entry entries
    /\ Orders.entry_matches order entry = true.
Proof.
  destruct (Orders.createLimitOrder Orders.sample_sort Orders.sample_log Orders.sample_round
              (Orders.sample_create_env "order_1") Orders.new_service
              (Orders.sample_limit_params Orders.sell 120%float))
    as [failure|[s order]] eqn:Hcreate; [vm_compute in Hcreate; discriminate|].
  destruct (reachable_orders_are_listed Orders.sample_sort Orders.sample_log Orders.sample_round
              (fun _ l => Permutation_refl l) s
              (Orders.reach_createLimitOrder _ _ _ _ _ _ _ _
                 (Orders.reach_new _ _ _) Hcreate))
    as (_ & _ & Hlisted).
  assert (Hget : Orders.Map_get (Orders.orders s) "order_1" = Some order)
    by (vm_compute in Hcreate; injection Hcreate as <- <-; reflexivity).
  destruct (Hlisted "order_1" order Hget) as (_ & Hentry).
  assert (Hfacts : Orders.status order = Orders.pending
                   /\ JS.isNaN (Orders.price order) = false
                   /\ JS.isNaN (Orders.amount order) = false
                   /\ Orders.pair order = "SOL/USDC")
    by (vm_compute in Hcreate; injection Hcreate as _ <-; repeat split).
  destruct Hfacts as (Hst & Hp & Ha & Hpair).
  destruct (Hentry (or_introl Hst) Hp Ha) as (entries & entry & H1 & H2 & H3).
  rewrite Hpair in H1.
  exists s, order, entries, entry. repeat split; assumption.
Defined.

(** A book with a filled order, and a pending sell order at 200 while the
    market is at 150. *)
Lemma settled_order_after_a_pass :
  let env := Orders.sample_env 150%float in
  let done :=
    Orders.set_filled (Orders.sample_order "order_1" Orders.buy 160%float None)
                      Orders.sample_time 155%float in
  let waiting := Orders.sample_order "order_2" Orders.sell 200%float None in
  let s := Orders.service_of [done; waiting] in
  let s' := fst (Orders.checkOrderFills env s) in
  map fst (Orders.orders s') = ["order_1"; "order_2"]
  /\ nth_error (Orders.orders s') 0 = Some ("order_1", done).
Proof.
  intros env done waiting s s'.
  destruct (checkOrderFills_leaves_settled_orders env s s'
              (snd (Orders.checkOrderFills env s)))
    as (Hkeys & _ & Hsettled & _).
  - subst s'. now rewrite <- surjective_pairing.
  - split; [exact Hkeys|]. apply (Hsettled 0%nat "order_1" done); [reflexivity|].
    discriminate.
Defined.

(** A buy order at 100 while the market is at 100, passed over twice. *)
Lemma second_pass_fills_nothing :
  let env := Orders.sample_env 100%float in
  let s := Orders.service_of [Orders.sample_order "order_1" Orders.buy 100%float None] in
  exists s' filled1,
    Orders.checkOrderFills env s = (s', Some filled1)
    /\ length filled1 = 1%nat
    /\ Orders.checkOrderFills env s' = (s', Some []).
Proof.
  intros env s.
  destruct (Orders.checkOrderFills env s) as [s' [filled1|]] eqn:Hpass;
    [|vm_compute in Hpass; discriminate].
  exists s', filled1. split; [reflexivity|]. split.
  - vm_compute in Hpass. injection Hpass as _ <-. reflexivity.
  - exact (checkOrderFills_twice env s s' filled1 Hpass).
Defined.

(** The order filled by that pass. *)
Lemma filled_sample_order_is_final :
  let env := Orders.sample_env 100%float in
  let s := Orders.service_of [Orders.sample_order "order_1" Orders.buy 100%float None] in
  let s' := fst (Orders.checkOrderFills env s) in
  Orders.cancelLimitOrder s' "order_1" = inl Orders.Order_cannot_be_cancelled.
Proof.
  intros env s s'.
  destruct (Orders.checkOrderFills env s) as [s0 [filled1|]] eqn:Hpass;
    [|vm_compute in Hpass; discriminate].
  assert (Hin : In (Orders.set_filled
                      (Orders.sample_order "order_1" Orders.buy 100%float None)
                      (Orders.sample_time + 3600001) 100%float) filled1)
    by (vm_compute in Hpass; injection Hpass as _ <-; now left).
  assert (Hfiled : Orders.filed_by_id (Orders.orders s)).
  { split; [repeat constructor; intros []|].
    intros k o [H|[]]. now injection H as <- <-. }
  destruct (filled_orders_are_final env s s0 filled1 _ Hfiled Hpass Hin)
    as (_ & _ & Hfinal).
  exact Hfinal.
Defined.

(** A stop-loss order with the trigger 1.5, passed over twice. *)
Lemma second_pass_triggers_nothing :
  let env := Orders.sample_trigger_env 1100%float in
  let s := Orders.mkService [] [("order_9", Orders.sample_stop 1.5%float)] ∅ in
  exists s' triggered1,
    Orders.checkStopLossTriggers env s = (s', Some triggered1)
    /\ length triggered1 = 1%nat
    /\ Orders.checkStopLossTriggers env s' = (s', Some []).
Proof.
  intros env s.
  destruct (Orders.checkStopLossTriggers env s) as [s' [triggered1|]] eqn:Hpass;
    [|vm_compute in Hpass; discriminate].
  exists s', triggered1. split; [reflexivity|]. split.
  - vm_compute in Hpass. injection Hpass as _ <-. reflexivity.
  - exact (proj1 (checkStopLossTriggers_twice env s s' triggered1 Hpass)).
Defined.

(** A stop-loss order created on a new service, and cancelled. *)
Lemma create_and_cancel_a_stop :
  let created :=
    Orders.createStopLossOrder (Orders.sample_create_env "order_7")
      Orders.new_service
      (Orders.mkStopLossParams "pos1" 90%float 10%float "user1") in
  exists s2,
    Orders.cancelStopLossOrder (fst created) "order_7" = inr s2
    /\ Orders.cancelStopLossOrder s2 "order_7"
       = inl Orders.Stop_loss_order_cannot_be_cancelled.
Proof.
  intros created.
  destruct (createStopLossOrder_then_cancel (Orders.sample_create_env "order_7")
              Orders.new_service
              (Orders.mkStopLossParams "pos1" 90%float 10%float "user1"))
    as (_ & _ & s2 & Hcancel & _ & Hagain & _).
  exists s2. split; [exact Hcancel | exact Hagain].
Defined.

(** The statistics of a pending, a filled and an expired order. *)
Lemma statistics_of_three_orders :
  let waiting := Orders.sample_order "order_1" Orders.buy 90%float None in
  let done :=
    Orders.set_filled (Orders.sample_order "order_2" Orders.buy 160%float None)
                      Orders.sample_time 155%float in
  let late :=
    Orders.set_status (Orders.sample_order "order_3" Orders.sell 200%float None)
                      Orders.expired in
  let stats :=
    Orders.getOrderStatistics (Orders.service_of [waiting; done; late]) "user1" in
  Orders.totalOrders stats = 3%nat
  /\ (Orders.pendingOrders stats + Orders.filledOrders stats
      + Orders.cancelledOrders stats)%nat = 2%nat.
Proof.
  intros waiting done late stats.
  destruct (statistics_leave_out_expired
              (Orders.service_of [waiting; done; late]) "user1")
    as (Hsum & Htotal & _).
  fold stats in Hsum, Htotal. split; [exact Htotal|].
  rewrite Htotal in Hsum. cbn in Hsum. cbn. lia.
Defined.
